(** * gpumon: the sysfs GPU dashboard of [src/main.cpp]

    A shallow embedding of the program: the device object and its metric
    fetches, the bar renderer, the row registry and the main loop, over
    models of the C and C++ library functions the source calls.

    - [unsigned long long] is a [Z] in [0, 2^64) with the wrap-around of
      every operation written out; [int] is a [Z] whose overflow is
      undefined behaviour ([Undef]);
    - [double] is IEEE-754 binary64 as specified by [SpecFloat]
      (the specification the primitive floats are given by), so that
      rounding, infinities and NaN are those of the machine;
    - exceptions and undefined behaviour are results of a small monad;
    - the terminal is the list of curses calls the program makes. *)

From Stdlib Require Import ZArith Bool List String Ascii Lia.
From Stdlib Require Import DecimalString.
From Stdlib Require Import Floats.
From Stdlib Require DecimalPos DecimalN.
Import ListNotations.

Local Open Scope string_scope.
Local Open Scope Z_scope.

Set Warnings "-inexact-float".

(* ================================================================== *)
(** ** Results of C++ code: a value, an exception, or undefined behaviour *)

Inductive exn : Type :=
| invalid_argument   (* std::invalid_argument: no conversion could be performed *)
| out_of_range.      (* std::out_of_range: the converted value does not fit *)

Inductive result (A : Type) : Type :=
| Ok (a : A)
| Throw (e : exn)
| Undef.

Arguments Ok {A} a.
Arguments Throw {A} e.
Arguments Undef {A}.

Definition bind {A B : Type} (r : result A) (k : A -> result B) : result B :=
  match r with
  | Ok a => k a
  | Throw e => Throw e
  | Undef => Undef
  end.

Declare Scope cxx_scope.
Delimit Scope cxx_scope with cxx.
Notation "'let*' x ':=' c1 'in' c2" := (bind c1 (fun x => c2))
  (at level 61, x pattern, c1 at next level, right associativity) : cxx_scope.
Local Open Scope cxx_scope.

(* ================================================================== *)
(** ** Machine integers *)

Definition ULLONG_MAX : Z := 2 ^ 64 - 1.
Definition INT_MAX : Z := 2 ^ 31 - 1.
Definition INT_MIN : Z := - 2 ^ 31.

(** Arithmetic on [unsigned long long] is modulo 2^64. *)
Definition ull (z : Z) : Z := z mod 2 ^ 64.
Definition ull_sub (a b : Z) : Z := ull (a - b).

Definition in_int (z : Z) : bool := (INT_MIN <=? z) && (z <=? INT_MAX).

(** Arithmetic on [int]: a result outside the type is undefined. *)
Definition int_of (z : Z) : result Z := if in_int z then Ok z else Undef.
Definition int_add (a b : Z) : result Z := int_of (a + b).
Definition int_sub (a b : Z) : result Z := int_of (a - b).

(** [static_cast<int>] of a [size_t]: reduced modulo 2^32 into the range
    of [int]. *)
Definition int_of_size (n : Z) : Z :=
  let r := n mod 2 ^ 32 in if r <=? INT_MAX then r else r - 2 ^ 32.

(* ================================================================== *)
(** ** [double]: IEEE-754 binary64 *)

Module Double.

Definition double : Type := spec_float.

Definition mul : double -> double -> double := SF64mul.
Definition div : double -> double -> double := SF64div.
Definition sub : double -> double -> double := SF64sub.
Definition ltb : double -> double -> bool := SFltb.
Definition leb : double -> double -> bool := SFleb.

Definition is_nan (x : double) : bool :=
  match x with S754_nan => true | _ => false end.

(** Conversion of an integer to [double], rounding to nearest even
    (exact for every [int]). *)
Definition of_Z (z : Z) : double := binary_normalize prec emax z 0 false.

(** The integer part of a finite [double], rounding toward zero. *)
Definition trunc (x : double) : option Z :=
  match x with
  | S754_zero _ => Some 0
  | S754_finite s m e =>
      let v := if 0 <=? e then Zpos m * 2 ^ e else Zpos m / 2 ^ (- e) in
      Some (if s then - v else v)
  | S754_infinity _ | S754_nan => None
  end.

(** [static_cast<int>(x)]: the truncated value when [int] can hold it;
    undefined for NaN, the infinities and values out of range. *)
Definition to_int (x : double) : result Z :=
  match trunc x with
  | Some z => int_of z
  | None => Undef
  end.

(** The literals of the source, as the compiler rounds them. *)
Definition zero : double := S754_zero false.
Definition one : double := Eval vm_compute in Prim2SF 1%float.
Definition c0_01 : double := Eval vm_compute in Prim2SF 0.01%float.
Definition c0_33 : double := Eval vm_compute in Prim2SF 0.33%float.
Definition c0_67 : double := Eval vm_compute in Prim2SF 0.67%float.

Definition pinf : double := S754_infinity false.
Definition nan : double := S754_nan.

(** A value of the type: in canonical form and within the exponent range. *)
Definition valid (x : double) : Prop :=
  SpecFloat.valid_binary prec emax x = true.

(** [std::clamp(v, lo, hi)]: [lo] if [v < lo], [hi] if [hi < v],
    otherwise [v]. *)
Definition clamp (v lo hi : double) : double :=
  if ltb v lo then lo else if ltb hi v then hi else v.

End Double.

Abbreviation double := Double.double.

(* ================================================================== *)
(** ** Strings and the conversions of <string> *)

Definition char_in (c : ascii) (lo hi : N) : bool :=
  let n := N_of_ascii c in ((lo <=? n) && (n <=? hi))%N.

(** [isspace] in the C locale: space, and \t \n \v \f \r. *)
Definition isspace (c : ascii) : bool :=
  (N_of_ascii c =? 32)%N || char_in c 9 13.

Definition isdigit (c : ascii) : bool := char_in c 48 57.

Definition digit_val (c : ascii) : Z := Z.of_N (N_of_ascii c) - 48.

Fixpoint skip_space (s : string) : string :=
  match s with
  | String c r => if isspace c then skip_space r else s
  | EmptyString => s
  end.

(** An optional sign: whether it is a minus, and what follows it. *)
Definition read_sign (s : string) : bool * string :=
  match s with
  | String "-" r => (true, r)
  | String "+" r => (false, r)
  | _ => (false, s)
  end.

(** The longest prefix of decimal digits: how many, their value (after
    [acc]), and the rest. *)
Fixpoint read_digits (s : string) (acc : Z) : nat * Z * string :=
  match s with
  | String c r =>
      if isdigit c then
        let '(n, v, rest) := read_digits r (10 * acc + digit_val c) in
        (S n, v, rest)
      else (O, acc, s)
  | EmptyString => (O, acc, s)
  end.

(** [std::stoull(str)] (base 10), through [strtoull]: leading white space,
    an optional sign, then decimal digits; what follows the digits is
    ignored. No digit: [invalid_argument]. A value above [ULLONG_MAX]:
    [out_of_range]. A minus sign negates the value in the unsigned type. *)
Definition stoull (str : string) : result Z :=
  let '(neg, s) := read_sign (skip_space str) in
  let '(n, v, _) := read_digits s 0 in
  match n with
  | O => Throw invalid_argument
  | S _ =>
      if v <=? ULLONG_MAX then Ok (if neg then ull (- v) else v)
      else Throw out_of_range
  end.

(** [std::stoi(str)] (base 10), through [strtol]: the same syntax; the
    signed value must fit an [int]. *)
Definition stoi (str : string) : result Z :=
  let '(neg, s) := read_sign (skip_space str) in
  let '(n, v, _) := read_digits s 0 in
  match n with
  | O => Throw invalid_argument
  | S _ =>
      let z := if neg then - v else v in
      if in_int z then Ok z else Throw out_of_range
  end.

(** [std::to_string] of an [unsigned long long]: its decimal digits. *)
Definition to_string (z : Z) : string :=
  NilZero.string_of_uint (N.to_uint (Z.to_N z)).

(** [str.size()]. *)
Definition size (s : string) : Z := Z.of_nat (String.length s).

(** [std::string(n, c)]. *)
Fixpoint string_of_char (n : nat) (c : ascii) : string :=
  match n with
  | O => EmptyString
  | S k => String c (string_of_char k c)
  end.

(** [std::getline(input, ret)] on a freshly opened stream: the characters
    before the first newline (all of them when there is none). *)
Fixpoint getline (content : string) : string :=
  match content with
  | EmptyString => EmptyString
  | String c r => if (N_of_ascii c =? 10)%N then EmptyString else String c (getline r)
  end.

(** [str.c_str()] read as a C string: the characters before the first
    NUL of the [std::string]. *)
Fixpoint c_str (s : string) : string :=
  match s with
  | EmptyString => EmptyString
  | String c r => if (N_of_ascii c =? 0)%N then EmptyString else String c (c_str r)
  end.

(* ------------------------------------------------------------------ *)
(** *** [std::stod], through [strtod] in the C locale *)

Definition lower (c : ascii) : ascii :=
  if char_in c 65 90 then ascii_of_N (N_of_ascii c + 32) else c.

(** What follows the prefix [p] (given in lower case) of [s], compared
    without regard to case. *)
Fixpoint strip_prefix_ci (p s : string) : option string :=
  match p with
  | EmptyString => Some s
  | String a p' =>
      match s with
      | String c r => if Ascii.eqb (lower c) a then strip_prefix_ci p' r else None
      | EmptyString => None
      end
  end.

Definition hex_val (c : ascii) : option Z :=
  if isdigit c then Some (digit_val c)
  else if char_in (lower c) 97 102 then Some (Z.of_N (N_of_ascii (lower c)) - 87)
  else None.

Fixpoint read_hex_digits (s : string) (acc : Z) : nat * Z * string :=
  match s with
  | String c r =>
      match hex_val c with
      | Some d =>
          let '(n, v, rest) := read_hex_digits r (16 * acc + d) in (S n, v, rest)
      | None => (O, acc, s)
      end
  | EmptyString => (O, acc, s)
  end.

(** An exponent part introduced by the letter [mark] (lower case): a sign
    and at least one decimal digit, or no exponent at all. *)
Definition read_exponent (mark : ascii) (s : string) : Z :=
  match s with
  | String c r =>
      if Ascii.eqb (lower c) mark then
        let '(neg, r') := read_sign r in
        let '(n, v, _) := read_digits r' 0 in
        match n with O => 0 | S _ => if neg then - v else v end
      else 0
  | EmptyString => 0
  end.

(** Digits with an optional radix point, then an optional exponent: the
    digits read as one integer and the power of [base] scaling it. *)
Definition read_mantissa
    (rd : string -> Z -> nat * Z * string) (mark : ascii) (per_digit : Z)
    (s : string) : option (Z * Z) :=
  let '(n1, v1, r1) := rd s 0 in
  let '(n2, v2, r2) :=
    match r1 with
    | String "." r => rd r v1
    | _ => (O, v1, r1)
    end in
  match (n1 + n2)%nat with
  | O => None
  | S _ => Some (v2, read_exponent mark r2 - per_digit * Z.of_nat n2)
  end.

Definition dec_subject : string -> option (Z * Z) :=
  read_mantissa read_digits "e" 1.

Definition hex_subject (s : string) : option (Z * Z) :=
  match strip_prefix_ci "0x" s with
  | Some r => read_mantissa read_hex_digits "p" 4 r
  | None => None
  end.

(** The quotient of two positive integers, rounded to nearest even. *)
Definition round_ratio (neg : bool) (num den : positive) : double :=
  let '(q, e, l) := SFdiv_core_binary prec emax (Zpos num) 0 (Zpos den) 0 in
  binary_round_aux prec emax neg q e l.

Definition is_ratio (x : double) (num den : positive) : bool :=
  match x with
  | S754_finite _ m e =>
      if 0 <=? e then Zpos m * 2 ^ e * Zpos den =? Zpos num
      else Zpos m * Zpos den =? Zpos num * 2 ^ (- e)
  | _ => false
  end.

(** Whether the quotient is tiny: rounded to 53 bits with no lower bound
    on the exponent it is still below [DBL_MIN] = 2^-1022, that is, the
    quotient is below [2^-1022 - 2^-1076], the least value that such a
    rounding takes up to [DBL_MIN] (tininess after rounding, as glibc
    detects it on x86-64). *)
Definition is_tiny (num den : positive) : bool :=
  Zpos num * 2 ^ 1076 <? Zpos den * (2 ^ 54 - 1).

(** The value of a non-zero subject, with the range errors of [strtod]:
    overflow, and underflow, a tiny value that the result (a subnormal
    number, zero, or [DBL_MIN] reached by rounding up) does not equal. *)
Definition strtod_round (neg : bool) (num den : positive) : result double :=
  let x := round_ratio neg num den in
  match x with
  | S754_infinity _ => Throw out_of_range
  | _ => if is_tiny num den && negb (is_ratio x num den)
         then Throw out_of_range else Ok x
  end.

(** The value [m * base ^ e]. *)
Definition strtod_scaled (neg : bool) (m base e : Z) : result double :=
  match m with
  | Zpos p =>
      if 0 <=? e then strtod_round neg (p * Z.to_pos (base ^ e)) 1
      else strtod_round neg p (Z.to_pos (base ^ (- e)))
  | _ => Ok (S754_zero neg)
  end.

(** [std::stod(str)]: leading white space, an optional sign, then
    [inf]/[infinity] or [nan] in any case, a hexadecimal or a decimal
    floating constant; what follows is ignored. No such subject:
    [invalid_argument]; a range error of [strtod]: [out_of_range]. *)
Definition stod (str : string) : result double :=
  let '(neg, s) := read_sign (skip_space str) in
  match strip_prefix_ci "inf" s, strip_prefix_ci "nan" s with
  | Some _, _ => Ok (S754_infinity neg)
  | _, Some _ => Ok S754_nan
  | None, None =>
      match hex_subject s with
      | Some (m, e) => strtod_scaled neg m 2 e
      | None =>
          match dec_subject s with
          | Some (m, e) => strtod_scaled neg m 10 e
          | None => Throw invalid_argument
          end
      end
  end.

(* ================================================================== *)
(** ** The device: calibration constants and metric fetches *)

(** The files of sysfs at one instant: for a path, [None] when the stream
    cannot be opened, otherwise the bytes the file yields (a file whose
    read fails yields none). *)
Definition filesystem : Type := string -> option string.

(** [device::read_file]: the first line of [m_path + path], or ["0"] when
    the stream is not open. *)
Definition read_file (fs : filesystem) (m_path path : string) : string :=
  let file := m_path ++ path in
  match fs file with
  | None => "0"
  | Some content => getline content
  end.

Record device : Type := {
  m_path : string;
  m_vram_str : string;
  m_gtt_str : string;
  m_vis_vram_str : string;
  m_vram : Z;
  m_gtt : Z;
  m_vis_vram : Z;
  m_power_min : Z;
  m_power_max : Z;
  m_temp_crit : Z;
  m_fan_min : Z;
  m_fan_max : Z
}.

Definition MiB : Z := 1024 * 1024.

(** The constructor [device::device(path)]. *)
Definition device_new (fs : filesystem) (path : string) : result device :=
  let* vram := stoull (read_file fs path "mem_info_vram_total") in
  let vram_str := "/" ++ to_string (vram / MiB) ++ "MiB" in
  let* gtt := stoull (read_file fs path "mem_info_gtt_total") in
  let gtt_str := "/" ++ to_string (gtt / MiB) ++ "MiB" in
  let* vis_vram := stoull (read_file fs path "mem_info_vis_vram_total") in
  let vis_vram_str := "/" ++ to_string (vis_vram / MiB) ++ "MiB" in
  let* power_min := stoull (read_file fs path "hwmon/hwmon1/power1_cap_min") in
  let* power_max := stoull (read_file fs path "hwmon/hwmon1/power1_cap_max") in
  let* temp_crit := stoull (read_file fs path "hwmon/hwmon1/temp1_crit") in
  let* fan_min := stoull (read_file fs path "hwmon/hwmon1/fan1_min") in
  let* fan_max := stoull (read_file fs path "hwmon/hwmon1/fan1_max") in
  Ok {| m_path := path;
        m_vram_str := vram_str; m_gtt_str := gtt_str;
        m_vis_vram_str := vis_vram_str;
        m_vram := vram; m_gtt := gtt; m_vis_vram := vis_vram;
        m_power_min := power_min; m_power_max := power_max;
        m_temp_crit := temp_crit;
        m_fan_min := fan_min; m_fan_max := fan_max |}.

Section Fetch.

Variable fs : filesystem.
Variable dev : device.

Definition busy : result (string * double) :=
  let pc := read_file fs (m_path dev) "gpu_busy_percent" in
  let* d := stod pc in
  Ok (pc ++ "%", Double.mul d Double.c0_01).

(** The three memory regions share one body: [vram], [gtt], [vis_vram]. *)
Definition memory (file : string) (total : Z) (total_str : string)
  : result (string * double) :=
  let used := read_file fs (m_path dev) file in
  let* u := stoull used in
  let pc := Double.div (Double.of_Z u) (Double.of_Z total) in
  let u := u / MiB in
  let used := to_string u ++ total_str in
  Ok (used, pc).

Definition vram : result (string * double) :=
  memory "mem_info_vram_used" (m_vram dev) (m_vram_str dev).

Definition gtt : result (string * double) :=
  memory "mem_info_gtt_used" (m_gtt dev) (m_gtt_str dev).

Definition vis_vram : result (string * double) :=
  memory "mem_info_vis_vram_used" (m_vis_vram dev) (m_vis_vram_str dev).

Definition power : result (string * double) :=
  let pwr := read_file fs (m_path dev) "hwmon/hwmon1/power1_average" in
  let* p := stoull pwr in
  let range := Double.of_Z (ull_sub (m_power_max dev) (m_power_min dev)) in
  let pc := Double.div (Double.of_Z (ull_sub p (m_power_min dev))) range in
  Ok (to_string (p / 1000000) ++ "W", pc).

Definition temperature : result (string * double) :=
  let temp := read_file fs (m_path dev) "hwmon/hwmon1/temp1_input" in
  let* t := stoull temp in
  let pc := Double.div (Double.of_Z t) (Double.of_Z (m_temp_crit dev)) in
  Ok (to_string (t / 1000) ++ "C", pc).

Definition fan : result (string * double) :=
  let f := read_file fs (m_path dev) "hwmon/hwmon1/fan1_input" in
  let range := Double.of_Z (ull_sub (m_fan_max dev) (m_fan_min dev)) in
  let* d := stod f in
  let pc := Double.div (Double.sub d (Double.of_Z (m_fan_min dev))) range in
  Ok (f ++ "RPM", pc).

Definition voltage : string :=
  read_file fs (m_path dev) "hwmon/hwmon1/in0_input" ++ "mV".

(** [gfx_clock] and [mem_clock] share one body. *)
Definition clock (file : string) : result string :=
  let freq := read_file fs (m_path dev) file in
  let* f := stoull freq in
  let f := f / 1000000 in
  Ok (to_string f ++ "MHz").

Definition gfx_clock : result string := clock "hwmon/hwmon1/freq1_input".
Definition mem_clock : result string := clock "hwmon/hwmon1/freq2_input".

Definition link_speed : string :=
  read_file fs (m_path dev) "current_link_speed".

Definition link_width : string :=
  "x" ++ read_file fs (m_path dev) "current_link_width".

End Fetch.

(* ================================================================== *)
(** ** The terminal: the curses calls the program makes, in order *)

Module color.
(** [color::type], numbered from 1. *)
Inductive type : Type := label | value | ok | warn | bad.

Definition code (c : type) : Z :=
  match c with
  | label => 1 | value => 2 | ok => 3 | warn => 4 | bad => 5
  end.
End color.

Inductive attr : Type :=
| A_NONE                      (* the attribute word 0 *)
| A_BOLD
| COLOR_PAIR (n : Z).

Inductive call : Type :=
| move (row col : Z)
| clrtoeol
| attron (a : attr)
| attroff (a : attr)
| addch (c : ascii)
| addstr (s : string)
| mvaddstr (row col : Z) (s : string)
| clear
| refresh
| getch
| initscr
| endwin
| timeout (ms : Z)
| noecho
| curs_set (v : Z)
| keypad (on : bool)
| start_color
| use_default_colors
| init_pair (pair fg bg : Z)
| ioctl_TIOCGWINSZ
| resizeterm (rows cols : Z)
| signal (sig : Z)
| cout (s : string).            (* text written to standard output *)

Section Render.

(** [color::use_color], fixed once the loop runs. *)
Variable use_color : bool.

Definition set_color (c : color.type) : list call :=
  if use_color then [attron (COLOR_PAIR (color.code c))] else [].

Definition remove_color (c : color.type) : list call :=
  if use_color then [attroff (COLOR_PAIR (color.code c))] else [].

(** [print_string]: [addstr] is given [str.c_str()], so it writes the
    characters before the first NUL. *)
Definition print_string (c : color.type) (str : string) (a : attr)
  : list call :=
  ([attron a] ++ set_color c ++ [addstr (c_str str)] ++ remove_color c
     ++ [attroff a])%list.

(** The band of a clamped fraction (lines 222-225). *)
Definition bar_color (pc : double) : color.type :=
  if Double.ltb pc Double.c0_33 then color.ok
  else if Double.ltb pc Double.c0_67 then color.warn
  else color.bad.

(** What [draw_bar] draws once the bar length is known not to be
    negative (lines 218-235). *)
Definition draw_bar_body (row col width bars : Z) (pc : double)
    (str : string) : result (list call) :=
  let bar := string_of_char (Z.to_nat bars) "|" in
  let* c := int_add col width in
  let* c := int_add c 1 in
  Ok ([attron A_BOLD; addch "["; attroff A_BOLD]
        ++ print_string (bar_color pc) bar A_NONE
        ++ [move row c; attron A_BOLD]
        ++ print_string color.value str A_NONE
        ++ [addch "]"; attroff A_BOLD])%list.

Definition draw_bar (row col width : Z) (pc : double) (str : string)
  : result (list call) :=
  let pc := Double.clamp pc Double.zero Double.one in
  let* reserved := int_add 2 (int_of_size (size str)) in
  let* width := int_sub width reserved in
  let* bars := Double.to_int (Double.mul (Double.of_Z width) pc) in
  if bars <? 0 then Ok [move row col; clrtoeol]
  else
    let* drawn := draw_bar_body row col width bars pc str in
    Ok ([move row col; clrtoeol] ++ drawn)%list.

End Render.

(** The columns left for the bar once the brackets and the label are
    reserved (line 211). *)
Definition track_of (width : Z) (str : string) : Z :=
  width - (2 + int_of_size (size str)).

(** The characters a trace writes to the screen, in order. *)
Fixpoint written (t : list call) : string :=
  match t with
  | [] => ""
  | addch c :: r => String c (written r)
  | addstr s :: r => s ++ written r
  | mvaddstr _ _ s :: r => s ++ written r
  | _ :: r => written r
  end.

(* ================================================================== *)
(** ** The rows and their registry *)

Definition vpad : Z := 1.
Definition hpad : Z := 2.

Module info.
Definition busy : nat := 0.
Definition vram : nat := 1.
Definition gtt : nat := 2.
Definition cpu_vis : nat := 3.
Definition power : nat := 4.
Definition temperature : nat := 5.
Definition fan : nat := 6.
Definition voltage : nat := 7.
Definition gfx_clock : nat := 8.
Definition mem_clock : nat := 9.
Definition link_speed : nat := 10.
Definition link_width : nat := 11.
Definition row_count : nat := 12.

(** [info_map]: each enumerator under its own name. *)
Definition info_map : list (string * nat) :=
  [ ("busy", busy); ("vram", vram); ("gtt", gtt); ("cpu_vis", cpu_vis);
    ("power", power); ("temperature", temperature); ("fan", fan);
    ("voltage", voltage); ("gfx_clock", gfx_clock);
    ("mem_clock", mem_clock); ("link_speed", link_speed);
    ("link_width", link_width) ].

(** [info_map.find(name)]. *)
Definition find (name : string) : option nat :=
  match List.find (fun kv => String.eqb (fst kv) name) info_map with
  | Some kv => Some (snd kv)
  | None => None
  end.
End info.

(** [v[i] = b] on a vector: undefined outside its size. *)
Fixpoint assign (v : list bool) (i : nat) (b : bool) : result (list bool) :=
  match v, i with
  | [], _ => Undef
  | _ :: r, O => Ok (b :: r)
  | x :: r, S k => let* r' := assign r k b in Ok (x :: r')
  end.

(** [v[i]] on a vector: undefined outside its size. *)
Definition at_ (v : list bool) (i : nat) : result bool :=
  match nth_error v i with
  | Some b => Ok b
  | None => Undef
  end.

Definition disable_option (enabled_rows : list bool) (name : string)
  : result (list bool) :=
  match info.find name with
  | Some i => assign enabled_rows i false
  | None => Ok enabled_rows
  end.

(** [s.find(c, pos)]: the first index at or after [pos] holding [c]
    ([None] is [npos]). *)
Fixpoint find (s : string) (c : ascii) (pos : nat) : option nat :=
  match s with
  | EmptyString => None
  | String a r =>
      match pos with
      | O => if Ascii.eqb a c then Some O
             else option_map S (find r c O)
      | S p => option_map S (find r c p)
      end
  end.

(** [s.substr(pos, n)], for [pos <= s.size()]. *)
Definition substr (s : string) (pos n : nat) : string :=
  String.substring pos n s.

(** [s.substr(pos)], for [pos <= s.size()]. *)
Definition substr_from (s : string) (pos : nat) : string :=
  String.substring pos (String.length s - pos) s.

(** The loop of [disable_options] (lines 289-296), run for at most
    [fuel] iterations; [None] when they do not suffice. *)
Fixpoint disable_options_loop (fuel : nat) (enabled_rows : list bool)
    (options : string) (prev_idx : nat) : option (result (list bool)) :=
  match find options "," prev_idx with
  | Some idx =>
      match fuel with
      | O => None
      | S fuel' =>
          let opt := substr options prev_idx (idx - prev_idx) in
          match disable_option enabled_rows opt with
          | Ok enabled_rows' =>
              disable_options_loop fuel' enabled_rows' options (idx + 1)
          | Throw e => Some (Throw e)
          | Undef => Some Undef
          end
      end
  | None =>
      let opt := substr_from options prev_idx in
      Some (disable_option enabled_rows opt)
  end.

(** [disable_options]: one iteration per comma is enough. *)
Definition disable_options (enabled_rows : list bool) (options : string)
  : result (list bool) :=
  match disable_options_loop (String.length options) enabled_rows options 0
  with
  | Some r => r
  | None => Undef
  end.

(** [std::all_of(enabled_rows.cbegin(), enabled_rows.cend(), !b)]. *)
Definition all_disabled (enabled_rows : list bool) : bool :=
  forallb negb enabled_rows.

(* ================================================================== *)
(** ** Programs: the calls made so far and how the computation ended *)

Definition prog (A : Type) : Type := (list call * result A)%type.

Definition pret {A : Type} (a : A) : prog A := ([], Ok a).

Definition pbind {A B : Type} (m : prog A) (k : A -> prog B) : prog B :=
  match m with
  | (t, Ok a) => let '(t', r) := k a in ((t ++ t')%list, r)
  | (t, Throw e) => (t, Throw e)
  | (t, Undef) => (t, Undef)
  end.

Definition emit (t : list call) : prog unit := (t, Ok tt).
Definition lift {A : Type} (r : result A) : prog A := ([], r).

Notation "'do' x <- c1 ; c2" := (pbind c1 (fun x => c2))
  (at level 61, x pattern, c1 at next level, right associativity) : cxx_scope.

Definition nl : string := String (ascii_of_nat 10) "".

Definition EXIT_SUCCESS : Z := 0.
Definition EXIT_FAILURE : Z := 1.

Definition end_of_transmission : Z := 4.
Definition escape : Z := 27.

(** The constants of <signal.h> and <ncurses.h> the source names. *)
Definition SIGINT : Z := 2.
Definition SIGTERM : Z := 15.
Definition SIGWINCH : Z := 28.
Definition COLOR_BLACK : Z := 0.
Definition COLOR_RED : Z := 1.
Definition COLOR_GREEN : Z := 2.
Definition COLOR_YELLOW : Z := 3.
Definition COLOR_CYAN : Z := 6.

Definition text_len : Z := 13 + hpad.

Section Rows.

Variable use_color : bool.
Variable enabled_rows : list bool.

(** One line of [draw_labels]: [if (enabled_rows[i]) mvaddstr(++row, ...)]. *)
Definition label_row (i : nat) (text : string) (row : Z) : prog Z :=
  do b <- lift (at_ enabled_rows i);
  if b : bool then
    do _ <- emit [mvaddstr (row + 1) hpad text]; pret (row + 1)
  else pret row.

Definition draw_labels : prog unit :=
  let row := vpad - 1 in
  do _ <- emit (set_color use_color color.label);
  do row <- label_row info.busy "GPU busy:" row;
  do row <- label_row info.vram "GPU vram:" row;
  do row <- label_row info.gtt "GTT:" row;
  do row <- label_row info.cpu_vis "CPU Vis:" row;
  do row <- label_row info.power "Power draw:" row;
  do row <- label_row info.temperature "Temperature:" row;
  do row <- label_row info.fan "Fan speed:" row;
  do row <- label_row info.voltage "Voltage:" row;
  do row <- label_row info.gfx_clock "GFX clock:" row;
  do row <- label_row info.mem_clock "Mem clock:" row;
  do row <- label_row info.link_speed "Link speed:" row;
  do row <- label_row info.link_width "Link width:" row;
  emit (remove_color use_color color.label).

(** [handle_winch], with the window size [ioctl] reports. *)
Definition handle_winch (ws_row ws_col : Z) : prog unit :=
  do _ <- emit [ioctl_TIOCGWINSZ; resizeterm ws_row ws_col; clear];
  draw_labels.

(** A bar row of the loop: fetch the sample, then [draw_bar] on the
    next row. *)
Definition bar_row (i : nat) (sample : result (string * double))
    (bar_width row : Z) : prog Z :=
  do b <- lift (at_ enabled_rows i);
  if b : bool then
    do s <- lift sample;
    let '(text, pc) := s in
    do calls <- lift (draw_bar use_color (row + 1) text_len bar_width pc text);
    do _ <- emit calls;
    pret (row + 1)
  else pret row.

(** A text row of the loop: move, clear, fetch, print in bold. *)
Definition text_row (i : nat) (sample : result string) (row : Z) : prog Z :=
  do b <- lift (at_ enabled_rows i);
  if b : bool then
    do _ <- emit [move (row + 1) text_len; clrtoeol];
    do text <- lift sample;
    do _ <- emit (print_string use_color color.label text A_BOLD);
    pret (row + 1)
  else pret row.

(** The drawing pass of one iteration (lines 433-499). *)
Definition draw_rows (fs : filesystem) (dev : device) (COLS : Z)
  : prog unit :=
  do w <- lift (int_sub COLS text_len);
  do bar_width <- lift (int_sub w hpad);
  let row := vpad - 1 in
  do row <- bar_row info.busy (busy fs dev) bar_width row;
  do row <- bar_row info.vram (vram fs dev) bar_width row;
  do row <- bar_row info.gtt (gtt fs dev) bar_width row;
  do row <- bar_row info.cpu_vis (vis_vram fs dev) bar_width row;
  do row <- bar_row info.power (power fs dev) bar_width row;
  do row <- bar_row info.temperature (temperature fs dev) bar_width row;
  do row <- bar_row info.fan (fan fs dev) bar_width row;
  do row <- text_row info.voltage (Ok (voltage fs dev)) row;
  do row <- text_row info.gfx_clock (gfx_clock fs dev) row;
  do row <- text_row info.mem_clock (mem_clock fs dev) row;
  do row <- text_row info.link_speed (Ok (link_speed fs dev)) row;
  do row <- text_row info.link_width (Ok (link_width fs dev)) row;
  pret tt.

End Rows.

(* ================================================================== *)
(** ** [main] *)

Definition print_help (progName : string) : list call :=
  [cout ("Usage: " ++ progName ++ " [options]" ++ nl
    ++ "Released under the GNU GPLv3" ++ nl ++ nl
    ++ "  -n, --no-color      disable colors" ++ nl
    ++ "  -u, --update=N      set automatic updates to N seconds (default 2)" ++ nl
    ++ "  -h, --help          display this message" ++ nl
    ++ "  -d, --disable=ROWS  disable each row corresponding to the comma" ++ nl
    ++ "                      separated list ROWS. Valid options are busy," ++ nl
    ++ "                      vram, gtt, cpu_vis, power, temperature, fan," ++ nl
    ++ "                      voltage, gfx_clock, mem_clock, link_speed and" ++ nl
    ++ "                      link_width. Other values are silently ignored." ++ nl)].

(** What [getopt_long] returns for one argument, with [optarg];
    [opt_other] is its ['?'], for an option it does not know or one
    without its argument (the diagnostic it then writes to standard
    error is its own and not among the calls below). *)
Inductive getopt : Type :=
| opt_h
| opt_n
| opt_u (optarg : string)
| opt_d (optarg : string)
| opt_other.

Record settings : Type := {
  sleep_time : Z;
  use_color : bool;
  enabled_rows : list bool
}.

Inductive parsed : Type :=
| Configured (s : settings)
| Return (status : Z).

(** The option loop of [main] (lines 373-390). *)
Fixpoint parse_options (argv0 : string) (opts : list getopt) (s : settings)
  : prog parsed :=
  match opts with
  | [] => pret (Configured s)
  | opt_h :: _ =>
      do _ <- emit (print_help argv0); pret (Return EXIT_SUCCESS)
  | opt_n :: rest =>
      parse_options argv0 rest
        {| sleep_time := sleep_time s; use_color := false;
           enabled_rows := enabled_rows s |}
  | opt_u optarg :: rest =>
      do n <- lift (stoi optarg);
      parse_options argv0 rest
        {| sleep_time := n; use_color := use_color s;
           enabled_rows := enabled_rows s |}
  | opt_d optarg :: rest =>
      do rows <- lift (disable_options (enabled_rows s) optarg);
      parse_options argv0 rest
        {| sleep_time := sleep_time s; use_color := use_color s;
           enabled_rows := rows |}
  | opt_other :: _ => pret (Return EXIT_FAILURE)
  end.

(** What one iteration of the loop finds: the two signal flags, the
    window size, [COLS], the files, and the key [getch] returns. *)
Record tick : Type := {
  should_close : bool;
  should_resize : bool;
  ws_row : Z;
  ws_col : Z;
  COLS : Z;
  files : filesystem;
  key : Z
}.

(** How a run ends: [main] returns, an exception nobody catches
    terminates the process, the behaviour is undefined, or the loop is
    still running when the observation stops. *)
Inductive outcome : Type :=
| Exit (status : Z)
| Terminated (e : exn)
| Undefined
| Running.

Definition is_quit (key : Z) : bool :=
  (key =? 113) (* 'q' *) || (key =? end_of_transmission) || (key =? escape).

(** The loop of [main] (lines 427-507) over the iterations observed. *)
Fixpoint loop (use_color : bool) (enabled_rows : list bool) (dev : device)
    (ticks : list tick) : prog outcome :=
  match ticks with
  | [] => pret Running
  | t :: rest =>
      if should_close t then
        do _ <- emit [endwin]; pret (Exit EXIT_SUCCESS)
      else
        do _ <- (if should_resize t
                 then handle_winch use_color enabled_rows (ws_row t) (ws_col t)
                 else pret tt);
        do _ <- draw_rows use_color enabled_rows (files t) dev (COLS t);
        do _ <- emit [refresh; getch];
        if is_quit (key t) then
          do _ <- emit [endwin]; pret (Exit EXIT_SUCCESS)
        else loop use_color enabled_rows dev rest
  end.

(** A file system given by the list of its files. *)
Definition fs_of (l : list (string * string)) : filesystem :=
  fun path =>
    match List.find (fun kv => String.eqb (fst kv) path) l with
    | Some kv => Some (snd kv)
    | None => None
    end.

Definition card0 : string := "/sys/class/drm/card0/device/".

(** The settings [main] starts from. *)
Definition initial_settings : settings :=
  {| sleep_time := 2; use_color := true;
     enabled_rows := repeat true info.row_count |}.

Definition init_colors : list call :=
  [ start_color; use_default_colors;
    init_pair (color.code color.label) COLOR_CYAN (-1);
    init_pair (color.code color.value) COLOR_BLACK (-1);
    init_pair (color.code color.ok) COLOR_GREEN (-1);
    init_pair (color.code color.warn) COLOR_YELLOW (-1);
    init_pair (color.code color.bad) COLOR_RED (-1) ].

Definition main_prog (argv0 : string) (opts : list getopt)
    (has_colors : bool) (boot : filesystem) (ticks : list tick)
  : prog outcome :=
  do p <- parse_options argv0 opts initial_settings;
  match p with
  | Return status => pret (Exit status)
  | Configured s =>
      if all_disabled (enabled_rows s) then
        do _ <- emit [cout ("All rows disabled. Exiting." ++ nl)];
        pret (Exit EXIT_SUCCESS)
      else
        do _ <- emit [signal SIGINT; signal SIGTERM; signal SIGWINCH; initscr];
        do ms <- lift (int_of (sleep_time s * 1000));
        do _ <- emit [timeout ms; noecho; curs_set 0; keypad true; clear];
        let use_color := use_color s && has_colors in
        do _ <- emit (if use_color then init_colors else []);
        do _ <- draw_labels use_color (enabled_rows s);
        do dev <- lift (device_new boot card0);
        loop use_color (enabled_rows s) dev ticks
  end.

(** [main]: the calls made and how the process ends. *)
Definition main (argv0 : string) (opts : list getopt)
    (has_colors : bool) (boot : filesystem) (ticks : list tick)
  : list call * outcome :=
  match main_prog argv0 opts has_colors boot ticks with
  | (t, Ok o) => (t, o)
  | (t, Throw e) => (t, Terminated e)
  | (t, Undef) => (t, Undefined)
  end.
(* ================================================================== *)
(** ** Vocabulary of the properties *)

(** The band as the specification words it: ok below 0.33, warn from 0.33
    up to 0.67 excluded, bad otherwise. *)
Definition band_spec (f : double) : color.type :=
  if Double.ltb f Double.c0_33 then color.ok
  else if Double.leb Double.c0_33 f && Double.ltb f Double.c0_67
       then color.warn
  else color.bad.

(** The [int] computations of [draw_bar] stay within the type: the label
    is shorter than [INT_MAX - 2], and the track and the column of the
    label are [int]s. *)
Definition no_overflow (col width : Z) (str : string) : Prop :=
  size str <= INT_MAX - 2 /\
  in_int (track_of width str) = true /\
  in_int (col + track_of width str) = true /\
  in_int (col + track_of width str + 1) = true.

(** A line that is a number as sysfs prints one: decimal digits only. *)
Fixpoint all_digits (s : string) : bool :=
  match s with
  | EmptyString => true
  | String c r => isdigit c && all_digits r
  end.

Definition is_number (s : string) : bool :=
  match s with
  | EmptyString => false
  | String _ _ => all_digits s
  end.

(** A line with no integer at its start: after white space and an
    optional sign comes no digit. *)
Definition no_integer (s : string) : bool :=
  match snd (read_sign (skip_space s)) with
  | String c _ => negb (isdigit c)
  | EmptyString => true
  end.

(** A line with no floating-point number at its start: after white space
    and an optional sign comes no digit, no point followed by a digit,
    and neither [inf] nor [nan]. *)
Definition no_float (s : string) : bool :=
  let r := snd (read_sign (skip_space s)) in
  match strip_prefix_ci "inf" r, strip_prefix_ci "nan" r with
  | None, None =>
      match r with
      | String c r' =>
          negb (isdigit c)
          && negb (Ascii.eqb c "."
                   && match r' with
                      | String d _ => isdigit d
                      | EmptyString => false
                      end)
      | EmptyString => true
      end
  | _, _ => false
  end.

(** Whether a text begins with a decimal digit. *)
Definition digit_first (s : string) : bool :=
  match s with
  | String c _ => isdigit c
  | EmptyString => false
  end.

(** The metrics whose fetch converts the line to a number. *)
Inductive metric : Type :=
| Busy | Vram | Gtt | Vis_vram | Power | Temperature | Fan
| Gfx_clock | Mem_clock.

Definition metric_file (m : metric) : string :=
  match m with
  | Busy => "gpu_busy_percent"
  | Vram => "mem_info_vram_used"
  | Gtt => "mem_info_gtt_used"
  | Vis_vram => "mem_info_vis_vram_used"
  | Power => "hwmon/hwmon1/power1_average"
  | Temperature => "hwmon/hwmon1/temp1_input"
  | Fan => "hwmon/hwmon1/fan1_input"
  | Gfx_clock => "hwmon/hwmon1/freq1_input"
  | Mem_clock => "hwmon/hwmon1/freq2_input"
  end.

Definition metric_row (m : metric) : nat :=
  match m with
  | Busy => info.busy
  | Vram => info.vram
  | Gtt => info.gtt
  | Vis_vram => info.cpu_vis
  | Power => info.power
  | Temperature => info.temperature
  | Fan => info.fan
  | Gfx_clock => info.gfx_clock
  | Mem_clock => info.mem_clock
  end.

(** Whether the fetch of a metric returns, with its value dropped. *)
Definition returns {A : Type} (r : result A) : result unit :=
  let* _ := r in Ok tt.

Definition fetch (m : metric) (fs : filesystem) (dev : device) : result unit :=
  match m with
  | Busy => returns (busy fs dev)
  | Vram => returns (vram fs dev)
  | Gtt => returns (gtt fs dev)
  | Vis_vram => returns (vis_vram fs dev)
  | Power => returns (power fs dev)
  | Temperature => returns (temperature fs dev)
  | Fan => returns (fan fs dev)
  | Gfx_clock => returns (gfx_clock fs dev)
  | Mem_clock => returns (mem_clock fs dev)
  end.

(** What the conversion of a metric rejects. *)
Definition malformed (m : metric) (line : string) : bool :=
  match m with
  | Busy | Fan => no_float line
  | _ => no_integer line
  end.

(** A value that is not below zero: its sign bit is clear, or it is
    NaN. *)
Definition not_negative (x : double) : Prop :=
  match x with
  | S754_zero s | S754_infinity s | S754_finite s _ _ => s = false
  | S754_nan => True
  end.

(** A file with nothing on its first line. *)
Definition first_line_empty (content : string) : bool :=
  match content with
  | EmptyString => true
  | String c _ => (N_of_ascii c =? 10)%N
  end.

(** The calls of a bar of [bars] glyphs on a track of [track] columns. *)
Definition bar_calls (use_color : bool) (row col track bars : Z)
    (c : double) (str : string) : list call :=
  ([move row col; clrtoeol; attron A_BOLD; addch "["; attroff A_BOLD]
     ++ print_string use_color (bar_color c)
          (string_of_char (Z.to_nat bars) "|") A_NONE
     ++ [move row (col + track + 1); attron A_BOLD]
     ++ print_string use_color color.value str A_NONE
     ++ [addch "]"; attroff A_BOLD])%list.

(* ================================================================== *)
(** ** Sample inputs *)

(** No file of the device can be opened. *)
Definition fs_absent : filesystem := fs_of [].

(** The power scenario: caps 0 and 100 W, 33 W drawn. *)
Definition fs_power_33 : filesystem :=
  fs_of [ (card0 ++ "hwmon/hwmon1/power1_cap_min", "0" ++ nl);
          (card0 ++ "hwmon/hwmon1/power1_cap_max", "100000000" ++ nl);
          (card0 ++ "hwmon/hwmon1/power1_average", "33000000" ++ nl) ].

(** A card drawing 5 W whose lowest cap is 10 W. *)
Definition fs_power_low : filesystem :=
  fs_of [ (card0 ++ "hwmon/hwmon1/power1_cap_min", "10000000" ++ nl);
          (card0 ++ "hwmon/hwmon1/power1_cap_max", "100000000" ++ nl);
          (card0 ++ "hwmon/hwmon1/power1_average", "5000000" ++ nl) ].


(** A reading followed by other characters on its line. *)
Definition fs_vram_suffix : filesystem :=
  fs_of [ (card0 ++ "mem_info_vram_total", "1073741824" ++ nl);
          (card0 ++ "mem_info_vram_used", "536870912abc" ++ nl) ].

(** A reading that is no number, and one that is empty. *)
Definition fs_busy_text : filesystem :=
  fs_of [ (card0 ++ "gpu_busy_percent", "n/a" ++ nl) ].

Definition fs_busy_empty : filesystem :=
  fs_of [ (card0 ++ "gpu_busy_percent", "") ].


(** The device [main] builds from a file system. *)
Definition sample_device (fs : filesystem) : device :=
  match device_new fs card0 with
  | Ok dev => dev
  | _ => {| m_path := card0; m_vram_str := ""; m_gtt_str := "";
            m_vis_vram_str := ""; m_vram := 0; m_gtt := 0; m_vis_vram := 0;
            m_power_min := 0; m_power_max := 0; m_temp_crit := 0;
            m_fan_min := 0; m_fan_max := 0 |}
  end.

(** An iteration on an 80-column terminal, with no signal pending. *)
Definition sample_tick (fs : filesystem) (key : Z) : tick :=
  {| should_close := false; should_resize := false;
     ws_row := 24; ws_col := 80; COLS := 80; files := fs; key := key |}.

(** Every row but [vram] named to [--disable]. *)
Definition only_vram : list getopt :=
  [ opt_d "busy,gtt,cpu_vis,power,temperature,fan,voltage,gfx_clock,mem_clock,link_speed,link_width" ].

(** Every row but [busy] named to [--disable]. *)
Definition only_busy : list getopt :=
  [ opt_d "vram,gtt,cpu_vis,power,temperature,fan,voltage,gfx_clock,mem_clock,link_speed,link_width" ].


(** Every row named to [--disable]. *)
Definition no_rows : list getopt :=
  [ opt_d "busy,vram,gtt,cpu_vis,power,temperature,fan,voltage,gfx_clock,mem_clock,link_speed,link_width" ].

(* ================================================================== *)
(** ** Vocabulary of the further properties *)

(** The names of a comma-separated list: what stands between the commas,
    the empty names included. *)
Fixpoint tokens (s : string) : list string :=
  match s with
  | EmptyString => [EmptyString]
  | String c r =>
      if Ascii.eqb c "," then EmptyString :: tokens r
      else match tokens r with
           | t :: ts => String c t :: ts
           | [] => [String c EmptyString]
           end
  end.

(** [disable_option] on each name in turn. *)
Fixpoint disable_each (enabled_rows : list bool) (names : list string)
  : result (list bool) :=
  match names with
  | [] => Ok enabled_rows
  | name :: rest =>
      let* enabled_rows' := disable_option enabled_rows name in
      disable_each enabled_rows' rest
  end.

(** Whether one of the names is the key of row [i]. *)
Definition names_row (i : nat) (names : list string) : bool :=
  existsb (fun name =>
             match info.find name with
             | Some j => Nat.eqb j i
             | None => false
             end) names.

(** The calls that select a colour. *)
Definition is_color_call (c : call) : bool :=
  match c with
  | attron (COLOR_PAIR _) | attroff (COLOR_PAIR _)
  | start_color | use_default_colors | init_pair _ _ _ => true
  | _ => false
  end.

(** The calls made while the terminal is in curses mode: the set-up, the
    cursor, the characters, the attributes, the resize and the wait for a
    key; those that select a colour only when colours are in use. *)
Definition paints (use_color : bool) (c : call) : bool :=
  match c with
  | timeout _ | noecho | curs_set _ | keypad _
  | move _ _ | clrtoeol | addch _ | addstr _ | mvaddstr _ _ _
  | clear | refresh | getch | ioctl_TIOCGWINSZ | resizeterm _ _ => true
  | attron (COLOR_PAIR _) | attroff (COLOR_PAIR _)
  | start_color | use_default_colors | init_pair _ _ _ => use_color
  | attron _ | attroff _ => true
  | _ => false
  end.

Definition is_initscr (c : call) : bool :=
  match c with initscr => true | _ => false end.

Definition is_endwin (c : call) : bool :=
  match c with endwin => true | _ => false end.

(** The calibration files the constructor converts (lines 56-71). *)
Definition calibration_files : list string :=
  [ "mem_info_vram_total"; "mem_info_gtt_total"; "mem_info_vis_vram_total";
    "hwmon/hwmon1/power1_cap_min"; "hwmon/hwmon1/power1_cap_max";
    "hwmon/hwmon1/temp1_crit";
    "hwmon/hwmon1/fan1_min"; "hwmon/hwmon1/fan1_max" ].

(** What [main] does before the first curses call of the terminal. *)
Definition startup : list call :=
  [signal SIGINT; signal SIGTERM; signal SIGWINCH; initscr].

(** An iteration ends the loop: [should_close] is set when the loop tests
    it, or the key read at its end is one of the three quit keys. *)
Definition quits (t : tick) : bool :=
  should_close t || is_quit (key t).

(** The same iteration with another key pressed. *)
Definition with_key (k : Z) (t : tick) : tick :=
  {| should_close := should_close t; should_resize := should_resize t;
     ws_row := ws_row t; ws_col := ws_col t; COLS := COLS t;
     files := files t; key := k |}.

(** The labels of [draw_labels], in the order of the rows (lines 304-315). *)
Definition label_texts : list string :=
  [ "GPU busy:"; "GPU vram:"; "GTT:"; "CPU Vis:"; "Power draw:";
    "Temperature:"; "Fan speed:"; "Voltage:"; "GFX clock:"; "Mem clock:";
    "Link speed:"; "Link width:" ].

(** The elements whose flag is set. *)
Fixpoint shown {A : Type} (flags : list bool) (xs : list A) : list A :=
  match flags, xs with
  | b :: flags', x :: xs' =>
      if b then x :: shown flags' xs' else shown flags' xs'
  | _, _ => []
  end.

(** Texts put at column [hpad] of consecutive rows, from [row] down. *)
Fixpoint stack (row : Z) (texts : list string) : list call :=
  match texts with
  | [] => []
  | text :: rest => mvaddstr row hpad text :: stack (row + 1) rest
  end.

(** The cells of a string written from column [x] of row [y]. *)
Fixpoint put (y x : Z) (s : string) : list (Z * Z * ascii) :=
  match s with
  | EmptyString => []
  | String c r => (y, x, c) :: put y (x + 1) r
  end.

(** The cells a trace writes, starting with the cursor at row [y],
    column [x]: a character goes where the cursor is and moves it one
    column to the right; [move] and [mvaddstr] place the cursor, [clear]
    sends it to the origin. The positions are on the screen, lines do
    not wrap and the characters are printable ones. *)
Fixpoint cells (y x : Z) (t : list call) : list (Z * Z * ascii) :=
  match t with
  | [] => []
  | move r c :: rest => cells r c rest
  | addch ch :: rest => (y, x, ch) :: cells y (x + 1) rest
  | addstr s :: rest => (put y x s ++ cells y (x + size s) rest)%list
  | mvaddstr r c s :: rest => (put r c s ++ cells r (c + size s) rest)%list
  | clear :: rest => cells 0 0 rest
  | _ :: rest => cells y x rest
  end.

(** The rows on which a trace clears to the end of the line. *)
Fixpoint cleared (y : Z) (t : list call) : list Z :=
  match t with
  | [] => []
  | move r _ :: rest => cleared r rest
  | mvaddstr r _ _ :: rest => cleared r rest
  | clear :: rest => cleared 0 rest
  | clrtoeol :: rest => y :: cleared y rest
  | _ :: rest => cleared y rest
  end.

(** The rows of the texts a trace places with [mvaddstr]. *)
Fixpoint label_rows (t : list call) : list Z :=
  match t with
  | [] => []
  | mvaddstr r _ _ :: rest => r :: label_rows rest
  | _ :: rest => label_rows rest
  end.

(** Rows numbered from [row + 1] down, one for each flag that is set. *)
Fixpoint rows_from (row : Z) (flags : list bool) : list Z :=
  match flags with
  | [] => []
  | b :: rest =>
      if b then (row + 1) :: rows_from (row + 1) rest else rows_from row rest
  end.

(** Characters that take one cell: the printable ASCII ones. *)
Definition printable (s : string) : bool :=
  forallb (fun c => char_in c 32 126) (list_ascii_of_string s).

(** The rows of a drawing pass, one after the other: each takes the row
    counter and returns it, and [last] ends the pass. *)
Fixpoint chain (steps : list (Z -> prog Z)) (last : prog unit) (row : Z)
  : prog unit :=
  match steps with
  | [] => last
  | step :: rest => pbind (step row) (chain rest last)
  end.

(** How many flags are set. *)
Definition enabled_count (flags : list bool) : nat :=
  List.length (filter (fun b : bool => b) flags).

(** A row of a pass under the flag [b]: when it returns, it has cleared
    the next row and moved the counter to it if [b] is set, and has done
    nothing otherwise. *)
Definition row_step (b : bool) (step : Z -> prog Z) : Prop :=
  forall (row : Z) (t : list call) (row' : Z),
    step row = (t, Ok row') ->
    row' = (if b then row + 1 else row) /\
    (forall (y : Z) (tail : list call), exists y',
       cleared y (t ++ tail) =
         ((if b then [row + 1] else []) ++ cleared y' tail)%list).

(** [n] consecutive rows from [row] down. *)
Definition count_up (row : Z) (n : nat) : list Z :=
  map (fun k => row + Z.of_nat k) (seq 0 n).

(** The attributes in force: whether bold is on, and the colour pair
    (0 when none is selected). *)
Definition style : Type := (bool * Z)%type.

Definition plain : style := (false, 0).

Definition turn_on (a : attr) (s : style) : style :=
  match a with
  | A_NONE => s
  | A_BOLD => (true, snd s)
  | COLOR_PAIR n => (fst s, n)
  end.

Definition turn_off (a : attr) (s : style) : style :=
  match a with
  | A_NONE => s
  | A_BOLD => (false, snd s)
  | COLOR_PAIR _ => (fst s, 0)
  end.

(** The attributes in force after a trace. *)
Fixpoint style_after (s : style) (t : list call) : style :=
  match t with
  | [] => s
  | attron a :: rest => style_after (turn_on a s) rest
  | attroff a :: rest => style_after (turn_off a s) rest
  | _ :: rest => style_after s rest
  end.

(** The texts a trace writes, each with the attributes in force when it
    is written. *)
Fixpoint styled (s : style) (t : list call) : list (string * style) :=
  match t with
  | [] => []
  | attron a :: rest => styled (turn_on a s) rest
  | attroff a :: rest => styled (turn_off a s) rest
  | addch c :: rest => (String c "", s) :: styled s rest
  | addstr str :: rest => (str, s) :: styled s rest
  | mvaddstr _ _ str :: rest => (str, s) :: styled s rest
  | _ :: rest => styled s rest
  end.

(** The colour a text is given: the pair of [c] when colours are in use. *)
Definition pair_of (use_color : bool) (c : color.type) : Z :=
  if use_color then color.code c else 0.

(** The two ends of the scale a reading is measured on, for the metrics
    that divide an integer by a range read at start-up. *)
Definition scale_of (m : metric) (dev : device) : option (Z * Z) :=
  match m with
  | Vram => Some (0, m_vram dev)
  | Gtt => Some (0, m_gtt dev)
  | Vis_vram => Some (0, m_vis_vram dev)
  | Power => Some (m_power_min dev, m_power_max dev)
  | Temperature => Some (0, m_temp_crit dev)
  | _ => None
  end.

(** What the fetch of a metric shown as a bar returns. *)
Definition bar_sample (m : metric) (fs : filesystem) (dev : device)
  : option (result (string * double)) :=
  match m with
  | Busy => Some (busy fs dev)
  | Vram => Some (vram fs dev)
  | Gtt => Some (gtt fs dev)
  | Vis_vram => Some (vis_vram fs dev)
  | Power => Some (power fs dev)
  | Temperature => Some (temperature fs dev)
  | Fan => Some (fan fs dev)
  | Gfx_clock | Mem_clock => None
  end.

(** The band the busy bar has at [n] percent. *)
Definition percent_band (n : Z) : color.type :=
  if n <? 33 then color.ok else if n <? 67 then color.warn else color.bad.

(** The file a memory total is read from at start-up. *)
Definition total_file (m : metric) : option string :=
  match m with
  | Vram => Some "mem_info_vram_total"
  | Gtt => Some "mem_info_gtt_total"
  | Vis_vram => Some "mem_info_vis_vram_total"
  | _ => None
  end.

(** Whether two doubles are the same value of the type, bit for bit. *)
Definition same_double (a b : double) : bool :=
  match a, b with
  | S754_zero s, S754_zero s' => Bool.eqb s s'
  | S754_infinity s, S754_infinity s' => Bool.eqb s s'
  | S754_nan, S754_nan => true
  | S754_finite s m e, S754_finite s' m' e' =>
      Bool.eqb s s' && Pos.eqb m m' && Z.eqb e e'
  | _, _ => false
  end.


(** A critical temperature that is no number. *)
Definition fs_crit_text : filesystem :=
  fs_of [ (card0 ++ "hwmon/hwmon1/temp1_crit", "n/a" ++ nl) ].

(** A GPU that is 50 percent busy. *)
Definition fs_busy_50 : filesystem :=
  fs_of [ (card0 ++ "gpu_busy_percent", "50" ++ nl) ].

(** The busy row and the voltage row enabled, the others disabled. *)
Definition busy_and_voltage : list bool :=
  [ true; false; false; false; false; false; false;
    true; false; false; false; false ].


(** A temperature of -5 degrees, critical at 100 degrees. *)
Definition fs_temp_negative : filesystem :=
  fs_of [ (card0 ++ "hwmon/hwmon1/temp1_crit", "100000" ++ nl);
          (card0 ++ "hwmon/hwmon1/temp1_input", "-5000" ++ nl) ].

(** A fan at 1500 RPM between the limits 0 and 3000. *)
Definition fs_fan_1500 : filesystem :=
  fs_of [ (card0 ++ "hwmon/hwmon1/fan1_min", "0" ++ nl);
          (card0 ++ "hwmon/hwmon1/fan1_max", "3000" ++ nl);
          (card0 ++ "hwmon/hwmon1/fan1_input", "1500" ++ nl) ].

(** A graphics clock of 1.5 GHz. *)
Definition fs_gfx_1500 : filesystem :=
  fs_of [ (card0 ++ "hwmon/hwmon1/freq1_input", "1500000000" ++ nl) ].

(* ================================================================== *)
(** ** Facts about binary64 rounding *)

Section FloatFacts.

Lemma digits2_pos_size (p : positive) : digits2_pos p = Pos.size p.
Proof. induction p; simpl; congruence. Qed.

Lemma digits2_log2 (p : positive) :
  Zpos (digits2_pos p) = Z.log2 (Zpos p) + 1.
Proof.
  rewrite digits2_pos_size. destruct p; simpl; try reflexivity;
  rewrite Pos.add_1_r; reflexivity.
Qed.

Lemma digits2_bounds (p : positive) :
  2 ^ (Zpos (digits2_pos p) - 1) <= Zpos p < 2 ^ Zpos (digits2_pos p).
Proof.
  rewrite digits2_log2.
  replace (Z.log2 (Zpos p) + 1 - 1) with (Z.log2 (Zpos p)) by lia.
  apply Z.log2_spec. lia.
Qed.

Lemma pow2_le_inv (x y : Z) : 0 <= y -> 2 ^ x <= 2 ^ y -> x <= y.
Proof. intros Hy H. apply (Z.pow_le_mono_r_iff 2); lia. Qed.

Lemma pow2_lt_inv (x y : Z) : 0 <= y -> 2 ^ x < 2 ^ y -> x < y.
Proof. intros Hy H. apply (Z.pow_lt_mono_r_iff 2); lia. Qed.

Lemma Zdigits2_le (m k : Z) : 0 <= m < 2 ^ k -> 0 <= k -> Zdigits2 m <= k.
Proof.
  intros [Hm Hlt] Hk. destruct m as [ | q | q]; simpl; try lia.
  pose proof (digits2_bounds q) as [Hlo _].
  assert (Zpos (digits2_pos q) - 1 < k); [ | lia].
  apply pow2_lt_inv; lia.
Qed.

Lemma fexp_large (k : Z) :
  53 - 1074 <= k -> fexp prec emax k = k - 53.
Proof. unfold fexp, SpecFloat.emin, prec, emax. lia. Qed.

Lemma fexp_le_m21 (k : Z) : k <= 32 -> fexp prec emax k <= -21.
Proof. unfold fexp, SpecFloat.emin, prec, emax. lia. Qed.

(** *** Shifting a mantissa right *)

Lemma iter_pos_nat {A : Type} (f : A -> A) (p : positive) (x : A) :
  iter_pos f p x = Nat.iter (Pos.to_nat p) f x.
Proof.
  revert x. induction p as [p IH | p IH | ]; intros x; cbn [iter_pos].
  - rewrite !IH, Pos2Nat.inj_xI, <- Nat.iter_add, <- Nat.iter_succ_r.
    f_equal. lia.
  - rewrite !IH, Pos2Nat.inj_xO, <- Nat.iter_add. f_equal. lia.
  - reflexivity.
Qed.

Lemma shr_1_m (mrs : shr_record) :
  0 <= shr_m mrs -> shr_m (shr_1 mrs) = shr_m mrs / 2.
Proof.
  destruct mrs as [m r s]. simpl. intros Hm.
  destruct m as [ | [p | p | ] | p ]; simpl; try reflexivity; try lia.
  - rewrite Pos2Z.inj_xI. apply Z.div_unique with 1; lia.
  - rewrite Pos2Z.inj_xO. apply Z.div_unique with 0; lia.
Qed.

Lemma shr_iter_m (k : nat) (mrs : shr_record) :
  0 <= shr_m mrs ->
  shr_m (Nat.iter k shr_1 mrs) = shr_m mrs / 2 ^ Z.of_nat k.
Proof.
  intros Hm. induction k as [ | k IH].
  - simpl. now rewrite Z.div_1_r.
  - rewrite Nat.iter_succ, shr_1_m.
    + rewrite IH, Z.div_div by lia.
      rewrite Nat2Z.inj_succ, Z.pow_succ_r by lia. f_equal. lia.
    + rewrite IH. apply Z.div_pos; lia.
Qed.

Lemma shr_1_double (n : Z) :
  0 <= n ->
  shr_1 {| shr_m := 2 * n; shr_r := false; shr_s := false |} =
    {| shr_m := n; shr_r := false; shr_s := false |}.
Proof. destruct n as [ | p | p]; intros H; try lia; reflexivity. Qed.

(** Shifting out zero bits loses nothing. *)
Lemma shr_iter_exact (k : nat) (n : Z) :
  0 <= n ->
  Nat.iter k shr_1
    {| shr_m := n * 2 ^ Z.of_nat k; shr_r := false; shr_s := false |} =
    {| shr_m := n; shr_r := false; shr_s := false |}.
Proof.
  intros Hn. induction k as [ | k IH].
  - simpl. now rewrite Z.mul_1_r.
  - rewrite Nat.iter_succ_r, Nat2Z.inj_succ, Z.pow_succ_r by lia.
    replace (n * (2 * 2 ^ Z.of_nat k)) with (2 * (n * 2 ^ Z.of_nat k)) by lia.
    rewrite shr_1_double; [exact IH | ].
    apply Z.mul_nonneg_nonneg; [lia | ]. apply Z.pow_nonneg; lia.
Qed.

Lemma shr_fexp_spec (m e : Z) (l : location) :
  0 <= m ->
  let e' := Z.max e (fexp prec emax (Zdigits2 m + e)) in
  snd (shr_fexp prec emax m e l) = e' /\
  shr_m (fst (shr_fexp prec emax m e l)) = m / 2 ^ (e' - e) /\
  (e' = e -> fst (shr_fexp prec emax m e l) = shr_record_of_loc m l) /\
  (l = loc_Exact -> m mod 2 ^ (e' - e) = 0 ->
   fst (shr_fexp prec emax m e l) =
     {| shr_m := m / 2 ^ (e' - e); shr_r := false; shr_s := false |}).
Proof.
  intros Hm e'. unfold shr_fexp, shr. subst e'.
  assert (Hrec : shr_m (shr_record_of_loc m l) = m)
    by (destruct l as [ | [ | | ]]; reflexivity).
  destruct (fexp prec emax (Zdigits2 m + e) - e) as [ | p | p] eqn:Hd; simpl.
  - replace (Z.max e (fexp prec emax (Zdigits2 m + e))) with e by lia.
    rewrite Z.sub_diag, Z.div_1_r. repeat split; auto.
    intros -> _. reflexivity.
  - replace (Z.max e (fexp prec emax (Zdigits2 m + e)))
      with (e + Zpos p) by lia.
    rewrite iter_pos_nat, shr_iter_m, positive_nat_Z, Hrec by lia.
    replace (e + Zpos p - e) with (Zpos p) by lia.
    repeat split; auto; [lia | ].
    intros -> Hmod.
    rewrite <- (positive_nat_Z p) in Hmod |- *.
    rewrite <- (shr_iter_exact (Pos.to_nat p) (m / 2 ^ Z.of_nat (Pos.to_nat p)))
      by (apply Z.div_pos; lia).
    f_equal. simpl. f_equal.
    rewrite (Z.div_mod m (2 ^ Z.of_nat (Pos.to_nat p))) at 1
      by (apply Z.pow_nonzero; lia).
    rewrite Hmod. lia.
  - replace (Z.max e (fexp prec emax (Zdigits2 m + e))) with e by lia.
    rewrite Z.sub_diag, Z.div_1_r. repeat split; auto.
    intros -> _. reflexivity.
Qed.

Lemma round_nearest_even_cases (mx : Z) (lx : location) :
  round_nearest_even mx lx = mx \/ round_nearest_even mx lx = mx + 1.
Proof.
  destruct lx as [ | [ | | ]]; simpl; auto.
  destruct (Z.even mx); auto.
Qed.

(** The shape of a rounded exact product: the mantissa is shifted right
    to the canonical exponent, rounded by at most one unit (by none when
    only zero bits are shifted out), and shifted once more if the
    rounding carried. *)
Lemma binary_round_aux_spec (s : bool) (m e : Z) (l : location) :
  0 <= m ->
  exists m2 e' e'' m'',
    e' = Z.max e (fexp prec emax (Zdigits2 m + e)) /\
    (m2 = m / 2 ^ (e' - e) \/ m2 = m / 2 ^ (e' - e) + 1) /\
    (l = loc_Exact -> e' = e -> m2 = m) /\
    (l = loc_Exact -> m mod 2 ^ (e' - e) = 0 -> m2 = m / 2 ^ (e' - e)) /\
    e'' = Z.max e' (fexp prec emax (Zdigits2 m2 + e')) /\
    m'' = m2 / 2 ^ (e'' - e') /\
    binary_round_aux prec emax s m e l =
      match m'' with
      | Z0 => S754_zero s
      | Zpos q => if e'' <=? emax - prec then S754_finite s q e''
                  else S754_infinity s
      | Zneg _ => S754_nan
      end.
Proof.
  intros Hm. unfold binary_round_aux.
  destruct (shr_fexp_spec m e l Hm) as (He' & Hm1 & Hsame & Hex).
  destruct (shr_fexp prec emax m e l) as [mrs' e'] eqn:H1.
  cbn [fst snd] in He', Hm1, Hsame, Hex.
  rewrite <- He' in Hm1, Hsame, Hex.
  set (m2 := round_nearest_even (shr_m mrs') (loc_of_shr_record mrs')).
  assert (Hm1pos : 0 <= shr_m mrs').
  { rewrite Hm1. apply Z.div_pos; [lia | ]. apply Z.pow_pos_nonneg; lia. }
  assert (Hm2 : 0 <= m2).
  { subst m2.
    destruct (round_nearest_even_cases (shr_m mrs') (loc_of_shr_record mrs'))
      as [-> | ->]; lia. }
  destruct (shr_fexp_spec m2 e' loc_Exact Hm2) as (He'' & Hm'' & _).
  destruct (shr_fexp prec emax m2 e' loc_Exact) as [mrs'' e''] eqn:H2.
  cbn [fst snd] in He'', Hm''. rewrite <- He'' in Hm''.
  exists m2, e', e'', (shr_m mrs'').
  repeat split; auto.
  - subst m2. rewrite <- Hm1. apply round_nearest_even_cases.
  - intros -> Heq. subst m2. rewrite Hsame by congruence. reflexivity.
  - intros Hl Hmod. subst m2. rewrite (Hex Hl Hmod). reflexivity.
Qed.

(** *** Integers as doubles *)

Lemma pos_iter_xO (p k : positive) :
  Zpos (Pos.iter xO p k) = Zpos p * 2 ^ Zpos k.
Proof.
  induction k as [ | k IH] using Pos.peano_ind.
  - simpl. lia.
  - rewrite Pos.iter_succ, Pos2Z.inj_xO, IH, Pos2Z.inj_succ, Z.pow_succ_r
      by lia.
    lia.
Qed.

(** An integer of at most 53 bits converts exactly: the mantissa is the
    integer shifted to 53 bits. *)
Lemma binary_round_int (s : bool) (p : positive) :
  Zpos p < 2 ^ 53 ->
  let a := 53 - Zpos (digits2_pos p) in
  0 <= a /\
  Zpos (digits2_pos (Z.to_pos (Zpos p * 2 ^ a))) = 53 /\
  binary_round prec emax s p 0 =
    S754_finite s (Z.to_pos (Zpos p * 2 ^ a)) (- a).
Proof.
  intros Hp a.
  pose proof (digits2_bounds p) as [Hlo Hhi].
  assert (Hd : Zpos (digits2_pos p) <= 53).
  { destruct (Z_le_gt_dec (Zpos (digits2_pos p)) 53) as [ | Hgt];
      [assumption | ].
    exfalso.
    assert (2 ^ 53 <= 2 ^ (Zpos (digits2_pos p) - 1))
      by (apply Z.pow_le_mono_r; lia).
    lia. }
  assert (Ha : 0 <= a) by (subst a; lia).
  assert (Hpow : 0 < 2 ^ a) by (apply Z.pow_pos_nonneg; lia).
  set (mz := Z.to_pos (Zpos p * 2 ^ a)).
  assert (Hmz : Zpos mz = Zpos p * 2 ^ a)
    by (subst mz; rewrite Z2Pos.id; lia).
  assert (Hdz : Zpos (digits2_pos mz) = 53).
  { rewrite digits2_log2, Hmz, Z.log2_mul_pow2 by lia.
    unfold a. rewrite (digits2_log2 p). lia. }
  split; [assumption | ]. split; [assumption | ].
  unfold binary_round.
  rewrite Z.add_0_r, fexp_large by lia.
  assert (Hal : shl_align p 0 (Zpos (digits2_pos p) - 53) = (mz, - a)).
  { unfold shl_align. rewrite Z.sub_0_r.
    destruct (Zpos (digits2_pos p) - 53) as [ | k | k] eqn:Hk; try lia.
    - f_equal; [ | subst a; lia].
      subst mz. replace a with 0 by (subst a; lia).
      rewrite Z.pow_0_r, Z.mul_1_r. reflexivity.
    - f_equal; [ | subst a; lia].
      apply Pos2Z.inj. rewrite Hmz, pos_iter_xO. f_equal. f_equal.
      subst a. lia. }
  rewrite Hal.
  destruct (binary_round_aux_spec s (Zpos mz) (- a) loc_Exact)
    as (m2 & e' & e'' & m'' & He' & _ & Hsame & _ & He'' & Hm'' & ->);
    [lia | ].
  cbn [Zdigits2] in He'.
  rewrite Hdz in He'. rewrite fexp_large in He' by lia.
  assert (Ee' : e' = - a) by lia. clear He'. subst e'.
  rewrite (Hsame eq_refl eq_refl) in *. cbn [Zdigits2] in He''.
  rewrite Hdz, fexp_large in He'' by lia.
  assert (Ee'' : e'' = - a) by lia. clear He''. subst e''.
  rewrite Z.sub_diag, Z.pow_0_r, Z.div_1_r in Hm''. subst m''.
  replace (- a <=? emax - prec) with true; [reflexivity | ].
  symmetry. apply Z.leb_le. unfold emax, prec. lia.
Qed.

Lemma of_Z_repr (w : Z) :
  0 < Z.abs w < 2 ^ 53 ->
  exists a mw,
    0 <= a /\ Zpos mw = Z.abs w * 2 ^ a /\
    Zpos (digits2_pos mw) = 53 /\
    Double.of_Z w = S754_finite (w <? 0) mw (- a).
Proof.
  intros Hw. unfold Double.of_Z, binary_normalize.
  destruct w as [ | p | p]; simpl in Hw; try lia.
  - destruct (binary_round_int false p) as (Ha & Hd & ->); [lia | ].
    eexists _, _. repeat split; eauto.
    rewrite Z2Pos.id; [reflexivity | ].
    apply Z.mul_pos_pos; [lia | apply Z.pow_pos_nonneg; lia].
  - destruct (binary_round_int true p) as (Ha & Hd & ->); [lia | ].
    eexists _, _. repeat split; eauto.
    rewrite Z2Pos.id; [reflexivity | ].
    apply Z.mul_pos_pos; [lia | apply Z.pow_pos_nonneg; lia].
Qed.

(** *** The bar length *)

(** The product of an integer [W <= 2^31] held in a mantissa and of a
    fraction at most one, rounded: its integer part is at most [W]. *)
Lemma round_product_trunc (s : bool) (mw mc : positive) (a b W : Z) :
  0 < W <= 2 ^ 31 -> 0 <= a -> 0 <= b -> 1 <= a + b ->
  Zpos mw = W * 2 ^ a -> Zpos mc <= 2 ^ b ->
  exists z,
    Double.trunc
      (binary_round_aux prec emax s (Zpos (mw * mc)) (- a + - b) loc_Exact)
      = Some (if s then - z else z) /\ 0 <= z <= W.
Proof.
  intros HW Ha Hb Hab Hmw Hmc.
  set (t := a + b). set (e := - a + - b).
  assert (Ht : e = - t) by (subst e t; lia).
  assert (Hm : Zpos (mw * mc) <= W * 2 ^ t).
  { rewrite Pos2Z.inj_mul, Hmw. unfold t. rewrite Z.pow_add_r by lia.
    assert (0 < 2 ^ a) by (apply Z.pow_pos_nonneg; lia). nia. }
  assert (H31 : W * 2 ^ t <= 2 ^ (31 + t)).
  { rewrite Z.pow_add_r by lia.
    assert (0 < 2 ^ t) by (apply Z.pow_pos_nonneg; lia). nia. }
  destruct (binary_round_aux_spec s (Zpos (mw * mc)) e loc_Exact)
    as (m2 & e' & e'' & m'' & He' & Hm2 & Hsame & _ & He'' & Hm'' & ->);
    [lia | ].
  cbn [Zdigits2] in He'.
  pose proof (digits2_bounds (mw * mc)) as [Hlo _].
  assert (Hd : Zpos (digits2_pos (mw * mc)) - 1 <= 31 + t)
    by (apply pow2_le_inv; lia).
  pose proof (fexp_le_m21 (Zpos (digits2_pos (mw * mc)) + e) ltac:(lia))
    as Hf.
  set (j := - e').
  assert (Hj : 1 <= j <= t) by (subst j; lia).
  assert (Hpj : 0 < 2 ^ j) by (apply Z.pow_pos_nonneg; lia).
  assert (Hptj : 0 < 2 ^ (t - j)) by (apply Z.pow_pos_nonneg; lia).
  assert (Hm1 : 0 <= Zpos (mw * mc) / 2 ^ (e' - e) <= W * 2 ^ j).
  { replace (e' - e) with (t - j) by (subst j; lia). split.
    - apply Z.div_pos; lia.
    - replace (W * 2 ^ j) with ((W * 2 ^ j * 2 ^ (t - j)) / 2 ^ (t - j))
        by (apply Z.div_mul; lia).
      apply Z.div_le_mono; [lia | ].
      rewrite <- Z.mul_assoc, <- Z.pow_add_r by lia.
      replace (j + (t - j)) with t by lia. assumption. }
  assert (Hm2' : 0 <= m2 <= W * 2 ^ j + 1) by (destruct Hm2; lia).
  assert (Hm2lt : m2 < 2 ^ (32 + j)).
  { replace (32 + j) with (1 + (31 + j)) by lia.
    rewrite Z.pow_add_r, Z.pow_1_r by lia.
    assert (W * 2 ^ j <= 2 ^ (31 + j)).
    { rewrite Z.pow_add_r by lia. nia. }
    assert (1 < 2 ^ (31 + j)) by (apply Z.pow_gt_1; lia). lia. }
  pose proof (Zdigits2_le m2 (32 + j) ltac:(lia) ltac:(lia)) as Hd2.
  pose proof (fexp_le_m21 (Zdigits2 m2 + e') ltac:(subst j; lia)) as Hf2.
  set (j2 := - e'').
  assert (Hj2 : 1 <= j2 <= j) by (subst j2 j; lia).
  assert (Hpj2 : 0 < 2 ^ j2) by (apply Z.pow_pos_nonneg; lia).
  assert (Hpd : 0 < 2 ^ (j - j2)) by (apply Z.pow_pos_nonneg; lia).
  replace (e'' - e') with (j - j2) in Hm'' by (subst j j2; lia).
  assert (Hm''pos : 0 <= m'') by (subst m''; apply Z.div_pos; lia).
  destruct m'' as [ | q | q]; try lia.
  - exists 0. split; [ | lia]. simpl. destruct s; reflexivity.
  - replace (e'' <=? emax - prec) with true
      by (symmetry; apply Z.leb_le; unfold emax, prec; lia).
    exists (Zpos q / 2 ^ j2). split.
    + unfold Double.trunc.
      replace (0 <=? e'') with false by (symmetry; apply Z.leb_gt; lia).
      reflexivity.
    + split; [apply Z.div_pos; lia | ].
      rewrite Hm'', Z.div_div, <- Z.pow_add_r by lia.
      replace (j - j2 + j2) with j by lia.
      apply Z.le_trans with ((W * 2 ^ j + 1) / 2 ^ j);
        [apply Z.div_le_mono; lia | ].
      apply Z.eq_le_incl.
      symmetry. apply Z.div_unique with 1; [ | lia].
      left. split; [lia | ].
      replace j with (1 + (j - 1)) by lia.
      rewrite Z.pow_add_r, Z.pow_1_r by lia.
      assert (0 < 2 ^ (j - 1)) by (apply Z.pow_pos_nonneg; lia). lia.
Qed.

(** A value at most one: its mantissa is at most the power of two its
    exponent scales down by. *)
Lemma leb_one_mantissa (mc : positive) (ec : Z) :
  Double.valid (S754_finite false mc ec) ->
  Double.leb (S754_finite false mc ec) Double.one = true ->
  0 <= - ec /\ Zpos mc <= 2 ^ (- ec).
Proof.
  unfold Double.valid, Double.leb, SFleb, Double.one.
  cbn [valid_binary SFcompare].
  unfold bounded, canonical_mantissa. intros Hv Hle.
  apply andb_prop in Hv. destruct Hv as [Hc _]. apply Z.eqb_eq in Hc.
  assert (Hd : Zpos (digits2_pos mc) <= 53).
  { revert Hc. unfold fexp, SpecFloat.emin, prec, emax. lia. }
  pose proof (digits2_bounds mc) as [_ Hhi].
  destruct (Z.compare_spec ec (-52)) as [Heq | Hlt | Hgt].
  - subst ec. split; [lia | ].
    rewrite Pos.compare_cont_spec in Hle. cbn [Pos.switch_Eq] in Hle.
    change (2 ^ (- -52)) with (Zpos 4503599627370496).
    destruct (Pos.compare_spec mc 4503599627370496) as [Hc' | Hc' | Hc'].
    + subst mc. apply Z.le_refl.
    + apply Z.lt_le_incl. exact Hc'.
    + discriminate.
  - split; [lia | ].
    apply Z.le_trans with (2 ^ 53).
    + assert (2 ^ Zpos (digits2_pos mc) <= 2 ^ 53)
        by (apply Z.pow_le_mono_r; lia). lia.
    + apply Z.pow_le_mono_r; lia.
  - discriminate.
Qed.

(** The integer part of [w * c], for an [int] [w] and a fraction [c] in
    [0, 1], lies between zero and [w]. *)
Lemma trunc_mul_bounds (w : Z) (c : double) :
  Z.abs w <= 2 ^ 31 ->
  Double.valid c ->
  Double.leb Double.zero c = true -> Double.leb c Double.one = true ->
  exists z,
    Double.trunc (Double.mul (Double.of_Z w) c) = Some z /\
    (0 <= w -> 0 <= z <= w) /\ (w <= 0 -> w <= z <= 0).
Proof.
  intros Hw Hv H0 H1.
  destruct (Z.eq_dec w 0) as [-> | Hnz].
  - exists 0. split; [ | lia].
    destruct c as [ [ | ] | [ | ] | | [ | ] mc ec]; try discriminate;
      reflexivity.
  - destruct (of_Z_repr w) as (a & mw & Ha & Hmw & Hdw & ->).
    { split; [lia | ]. apply Z.le_lt_trans with (2 ^ 31); [lia | reflexivity]. }
    destruct c as [ sc | [ | ] | | [ | ] mc ec]; try discriminate.
    + exists 0. split; [reflexivity | lia].
    + destruct (leb_one_mantissa mc ec Hv H1) as [Hb Hmc].
      assert (Ha1 : 1 <= a).
      { pose proof (digits2_bounds mw) as [Hlo _]. rewrite Hdw, Hmw in Hlo.
        destruct (Z.eq_dec a 0) as [-> | ]; [ | lia].
        rewrite Z.pow_0_r in Hlo.
        assert (2 ^ 31 < 2 ^ (53 - 1)) by reflexivity. lia. }
      destruct (round_product_trunc (xorb (w <? 0) false) mw mc a (- ec)
                  (Z.abs w)) as (z & Hz & Hzb); try lia.
      exists (if w <? 0 then - z else z). split.
      * unfold Double.mul, SF64mul, SFmul.
        replace ec with (- - ec) at 1 by lia.
        rewrite Hz. destruct (w <? 0); reflexivity.
      * destruct (Z.ltb_spec w 0); lia.
Qed.

End FloatFacts.

(* ================================================================== *)
(** ** Facts about comparison and [std::clamp] *)

Section CompareFacts.

Lemma SFcompare_antisym (x y : double) :
  SFcompare y x = option_map CompOpp (SFcompare x y).
Proof.
  destruct x as [sx | sx | | sx mx ex], y as [sy | sy | | sy my ey];
    try reflexivity;
    try (destruct sx; reflexivity); try (destruct sy; reflexivity);
    try (destruct sx, sy; reflexivity).
  destruct sx, sy; try reflexivity; cbn [SFcompare option_map];
    rewrite (Z.compare_antisym ex ey); destruct (ex ?= ey); cbn [CompOpp];
    try reflexivity;
    rewrite ?CompOpp_involutive, Pos.compare_cont_antisym; reflexivity.
Qed.

(** [a <= f] excludes [f < a]. *)
Lemma leb_not_ltb (a f : double) :
  Double.leb a f = true -> Double.ltb f a = false.
Proof.
  unfold Double.leb, Double.ltb, SFleb, SFltb.
  rewrite (SFcompare_antisym a f).
  destruct (SFcompare a f) as [[ | | ] | ]; simpl; congruence.
Qed.

(** For a number [f], not [f < a] is [a <= f]. *)
Lemma not_ltb_leb (a f : double) :
  Double.is_nan a = false -> Double.is_nan f = false ->
  Double.ltb f a = false -> Double.leb a f = true.
Proof.
  unfold Double.leb, Double.ltb, SFleb, SFltb.
  rewrite (SFcompare_antisym f a). intros Ha Hf.
  assert (Hsome : SFcompare f a <> None).
  { destruct f as [ [ | ] | [ | ] | | [ | ] ? ?],
             a as [ [ | ] | [ | ] | | [ | ] ? ?]; simpl in *; congruence. }
  destruct (SFcompare f a) as [[ | | ] | ]; simpl; congruence.
Qed.

Lemma ltb_not_nan (a f : double) :
  Double.ltb f a = true -> Double.is_nan f = false.
Proof.
  unfold Double.ltb, SFltb. destruct f, a; simpl; congruence.
Qed.

(** What [std::clamp(pc, 0.0, 1.0)] returns for a number lies in [0, 1]. *)
Lemma clamp_range (pc : double) :
  Double.valid pc -> Double.is_nan pc = false ->
  let c := Double.clamp pc Double.zero Double.one in
  Double.valid c /\
  Double.leb Double.zero c = true /\ Double.leb c Double.one = true.
Proof.
  intros Hv Hn. unfold Double.clamp.
  destruct (Double.ltb pc Double.zero) eqn:H0.
  - repeat split; reflexivity.
  - destruct (Double.ltb Double.one pc) eqn:H1.
    + repeat split; reflexivity.
    + repeat split; [assumption | | ];
        apply not_ltb_leb; auto.
Qed.

End CompareFacts.

(* ================================================================== *)
(** ** Facts about a full and an empty bar *)

Section FullBar.

(** Multiplying a normal number by 1.0 is exact. *)
Lemma mul_one (s : bool) (m : positive) (e : Z) :
  Zpos (digits2_pos m) = 53 -> -1074 <= e <= 971 ->
  Double.mul (S754_finite s m e) Double.one = S754_finite s m e.
Proof.
  intros Hd He. unfold Double.mul, SF64mul, Double.one. cbn [SFmul].
  assert (Hm : Zpos (m * 4503599627370496) = Zpos m * 2 ^ 52)
    by (rewrite Pos2Z.inj_mul; reflexivity).
  assert (Hdm : Zpos (digits2_pos (m * 4503599627370496)) = 105).
  { rewrite digits2_log2, Hm, Z.log2_mul_pow2 by lia.
    rewrite digits2_log2 in Hd. lia. }
  destruct (binary_round_aux_spec (xorb s false)
              (Zpos (m * 4503599627370496)) (e + -52) loc_Exact)
    as (m2 & e' & e'' & m'' & He' & _ & _ & Hex & He'' & Hm'' & ->);
    [lia | ].
  cbn [Zdigits2] in He'.
  rewrite Hdm, fexp_large in He' by lia.
  assert (Ee' : e' = e) by lia. clear He'. subst e'.
  replace (e - (e + -52)) with 52 in Hex by lia.
  rewrite Hm, Z.mod_mul, Z.div_mul in Hex by lia.
  rewrite (Hex eq_refl eq_refl) in *. cbn [Zdigits2] in He''.
  rewrite Hd, fexp_large in He'' by lia.
  assert (Ee'' : e'' = e) by lia. clear He''. subst e''.
  rewrite Z.sub_diag, Z.pow_0_r, Z.div_1_r in Hm''. subst m''.
  replace (e <=? emax - prec) with true
    by (symmetry; apply Z.leb_le; unfold emax, prec; lia).
  destruct s; reflexivity.
Qed.

(** An [int] survives the round trip through [double]. *)
Lemma trunc_of_Z (w : Z) :
  Z.abs w <= 2 ^ 31 -> Double.trunc (Double.of_Z w) = Some w.
Proof.
  intros Hw. destruct (Z.eq_dec w 0) as [-> | Hnz]; [reflexivity | ].
  destruct (of_Z_repr w) as (a & mw & Ha & Hmw & _ & ->).
  { split; [lia | ]. apply Z.le_lt_trans with (2 ^ 31); [lia | reflexivity]. }
  unfold Double.trunc. rewrite Hmw. f_equal.
  assert (Hp : 0 < 2 ^ a) by (apply Z.pow_pos_nonneg; lia).
  destruct (Z.leb_spec 0 (- a)).
  - replace a with 0 by lia. simpl.
    destruct (Z.ltb_spec w 0); lia.
  - replace (- - a) with a by lia. rewrite Z.div_mul by lia.
    destruct (Z.ltb_spec w 0); lia.
Qed.

Lemma trunc_mul_one (w : Z) :
  Z.abs w <= 2 ^ 31 ->
  Double.trunc (Double.mul (Double.of_Z w) Double.one) = Some w.
Proof.
  intros Hw. destruct (Z.eq_dec w 0) as [-> | Hnz]; [reflexivity | ].
  rewrite <- (trunc_of_Z w Hw).
  destruct (of_Z_repr w) as (a & mw & Ha & Hmw & Hd & ->).
  { split; [lia | ]. apply Z.le_lt_trans with (2 ^ 31); [lia | reflexivity]. }
  rewrite mul_one; [reflexivity | assumption | ].
  assert (a < 53); [ | lia].
  pose proof (digits2_bounds mw) as [_ Hhi]. rewrite Hd, Hmw in Hhi.
  apply pow2_lt_inv; [lia | ].
  assert (2 ^ a <= Z.abs w * 2 ^ a); [ | lia].
  assert (0 < 2 ^ a) by (apply Z.pow_pos_nonneg; lia). nia.
Qed.

Lemma trunc_mul_zero (w : Z) :
  Z.abs w <= 2 ^ 31 ->
  Double.trunc (Double.mul (Double.of_Z w) Double.zero) = Some 0.
Proof.
  intros Hw. destruct (Z.eq_dec w 0) as [-> | Hnz]; [reflexivity | ].
  destruct (of_Z_repr w) as (a & mw & _ & _ & _ & ->).
  { split; [lia | ]. apply Z.le_lt_trans with (2 ^ 31); [lia | reflexivity]. }
  reflexivity.
Qed.

End FullBar.

(* ================================================================== *)
(** ** The operations stay within the type *)

Section Validity.

Lemma fexp_mono (x y : Z) : x <= y -> fexp prec emax x <= fexp prec emax y.
Proof. unfold fexp, SpecFloat.emin, prec, emax. lia. Qed.

Lemma fexp_succ (x : Z) :
  fexp prec emax (x + 1) = fexp prec emax x \/
  fexp prec emax (x + 1) = fexp prec emax x + 1.
Proof. unfold fexp, SpecFloat.emin, prec, emax. lia. Qed.

Lemma fexp_below (x : Z) :
  x <= fexp prec emax x -> fexp prec emax x = -1074.
Proof. unfold fexp, SpecFloat.emin, prec, emax. lia. Qed.

Lemma Zdigits2_log2 (m : Z) : 0 < m -> Zdigits2 m = Z.log2 m + 1.
Proof. destruct m as [ | p | p]; try lia. intros _. apply digits2_log2. Qed.

Lemma Zdigits2_div (m k : Z) :
  0 <= k -> 0 < m / 2 ^ k -> Zdigits2 (m / 2 ^ k) = Zdigits2 m - k.
Proof.
  intros Hk Hq.
  assert (Hp : 0 < 2 ^ k) by (apply Z.pow_pos_nonneg; lia).
  assert (Hm : 0 < m).
  { destruct (Z.lt_ge_cases 0 m) as [ | Hle]; [assumption | ].
    assert (m / 2 ^ k <= 0) by (apply Z.div_le_upper_bound; lia). lia. }
  rewrite !Zdigits2_log2 by assumption.
  rewrite <- Z.shiftr_div_pow2, Z.log2_shiftr by lia.
  assert (2 ^ k <= m).
  { destruct (Z.lt_ge_cases m (2 ^ k)) as [Hlt | ]; [ | assumption].
    rewrite Z.div_small in Hq by lia. lia. }
  assert (k <= Z.log2 m) by (apply Z.log2_le_pow2; lia).
  lia.
Qed.

Lemma Zdigits2_succ (m : Z) :
  0 < m ->
  Zdigits2 (m + 1) = Zdigits2 m \/
  (Zdigits2 (m + 1) = Zdigits2 m + 1 /\ m + 1 = 2 ^ Zdigits2 m).
Proof.
  intros Hm. rewrite !Zdigits2_log2 by lia.
  pose proof (Z.log2_spec m Hm) as [Hlo Hhi].
  pose proof (Z.log2_nonneg m) as Hnn.
  replace (Z.succ (Z.log2 m)) with (Z.log2 m + 1) in Hhi by lia.
  destruct (Z.eq_dec (m + 1) (2 ^ (Z.log2 m + 1))) as [Heq | Hne].
  - right. split; [ | assumption]. rewrite Heq, Z.log2_pow2 by lia. lia.
  - left. f_equal. apply Z.log2_unique; [assumption | ].
    replace (Z.succ (Z.log2 m)) with (Z.log2 m + 1) by lia. lia.
Qed.

(** A rounded value is in canonical form, provided the mantissa given to
    the rounding is not too short for its exponent. *)
Lemma binary_round_aux_valid (s : bool) (m e : Z) (l : location) :
  0 <= m ->
  e <= fexp prec emax (Zdigits2 m + e) ->
  Double.valid (binary_round_aux prec emax s m e l).
Proof.
  intros Hm Hpre. unfold Double.valid.
  destruct (binary_round_aux_spec s m e l Hm)
    as (m2 & e' & e'' & m'' & He' & Hm2 & _ & _ & He'' & Hm'' & ->).
  set (F := fexp prec emax (Zdigits2 m + e)) in *.
  assert (Ee' : e' = F) by lia. clear He'.
  set (k := e' - e) in *.
  assert (Hk : 0 <= k) by (subst k; lia).
  assert (Hp : 0 < 2 ^ k) by (apply Z.pow_pos_nonneg; lia).
  assert (Hm1 : 0 <= m / 2 ^ k) by (apply Z.div_pos; lia).
  assert (Hm2pos : 0 <= m2) by (destruct Hm2; lia).
  assert (Hcanon : forall q, m'' = Zpos q ->
             fexp prec emax (Zpos (digits2_pos q) + e'') = e'').
  { intros q Hq.
    change (Zpos (digits2_pos q)) with (Zdigits2 (Zpos q)). rewrite <- Hq.
    destruct (Z.eq_dec (m / 2 ^ k) 0) as [Hz | Hnz].
    - (* everything was shifted out: the exponent is the smallest one *)
      assert (HD : Zdigits2 m <= k).
      { apply Zdigits2_le; [ | assumption]. split; [assumption | ].
        destruct (Z.lt_ge_cases m (2 ^ k)) as [ | Hge]; [assumption | ].
        assert (1 <= m / 2 ^ k); [ | lia].
        apply Z.div_le_lower_bound; lia. }
      assert (HF : F = -1074).
      { apply fexp_below. subst k. fold F. lia. }
      assert (Hm21 : m2 = 0 \/ m2 = 1) by lia.
      destruct Hm21 as [-> | ->].
      + rewrite Z.div_0_l in Hm'' by (apply Z.pow_nonzero; lia). lia.
      + cbn [Zdigits2 digits2_pos] in He''.
        assert (Hf1 : fexp prec emax (1 + e') = -1074).
        { rewrite Ee', HF. reflexivity. }
        rewrite Hf1 in He''.
        assert (Ee'' : e'' = e') by lia.
        rewrite Ee'', Z.sub_diag, Z.pow_0_r, Z.div_1_r in Hm''.
        rewrite Hm'', Ee''. cbn [Zdigits2 digits2_pos]. lia.
    - assert (HD1 : Zdigits2 (m / 2 ^ k) + e' = Zdigits2 m + e).
      { rewrite Zdigits2_div by lia. subst k. lia. }
      assert (Hsame : Zdigits2 m2 + e' = Zdigits2 m + e ->
                      fexp prec emax (Zdigits2 m'' + e'') = e'').
      { intros HD. rewrite HD in He''. fold F in He''.
        assert (Ee'' : e'' = e') by lia.
        rewrite Ee'', Z.sub_diag, Z.pow_0_r, Z.div_1_r in Hm''.
        rewrite Hm'', Ee'', HD. fold F. lia. }
      destruct Hm2 as [-> | ->]; [apply Hsame; assumption | ].
      destruct (Zdigits2_succ (m / 2 ^ k) ltac:(lia)) as [HS | [HS Hpow]];
        [apply Hsame; lia | ].
      assert (HD2 : Zdigits2 (m / 2 ^ k + 1) + e' = Zdigits2 m + e + 1) by lia.
      rewrite HD2 in He''.
      destruct (fexp_succ (Zdigits2 m + e)) as [Hf | Hf]; fold F in Hf.
      + rewrite Hf in He''.
        assert (Ee'' : e'' = e') by lia.
        rewrite Ee'', Z.sub_diag, Z.pow_0_r, Z.div_1_r in Hm''.
        rewrite Hm'', Ee'', HD2, Hf. lia.
      + rewrite Hf in He''.
        assert (Ee'' : e'' = e' + 1) by lia.
        assert (HDpos : 1 <= Zdigits2 (m / 2 ^ k)).
        { rewrite Zdigits2_log2 by lia.
          pose proof (Z.log2_nonneg (m / 2 ^ k)). lia. }
        replace (e'' - e') with 1 in Hm'' by lia.
        rewrite Hpow, Z.pow_1_r in Hm''.
        replace (Zdigits2 (m / 2 ^ k)) with (1 + (Zdigits2 (m / 2 ^ k) - 1))
          in Hm'' by lia.
        rewrite Z.pow_add_r, Z.pow_1_r, Z.mul_comm, Z.div_mul in Hm'' by lia.
        rewrite Hm'', Zdigits2_log2, Z.log2_pow2
          by (try apply Z.pow_pos_nonneg; lia).
        replace (Zdigits2 (m / 2 ^ k) - 1 + 1 + e'')
          with (Zdigits2 m + e + 1) by lia.
        rewrite Hf. lia. }
  destruct m'' as [ | q | q]; try reflexivity.
  destruct (e'' <=? emax - prec) eqn:Hle; [ | reflexivity].
  cbn [valid_binary]. unfold bounded, canonical_mantissa.
  rewrite (Hcanon q eq_refl), Z.eqb_refl, Hle. reflexivity.
Qed.

(** Rounding a mantissa after aligning it keeps it in the type. *)
Lemma binary_round_valid (s : bool) (p : positive) (e : Z) :
  Double.valid (binary_round prec emax s p e).
Proof.
  unfold binary_round, shl_align.
  set (d := Zpos (digits2_pos p)).
  destruct (fexp prec emax (d + e) - e) as [ | f | f] eqn:Hf.
  - apply binary_round_aux_valid; [lia | ]. cbn [Zdigits2]. fold d. lia.
  - apply binary_round_aux_valid; [lia | ]. cbn [Zdigits2]. fold d. lia.
  - apply binary_round_aux_valid; [lia | ]. cbn [Zdigits2].
    assert (Hd : Zpos (digits2_pos (Pos.iter xO p f)) = d + Zpos f).
    { rewrite digits2_log2, pos_iter_xO, Z.log2_mul_pow2 by lia.
      subst d. rewrite (digits2_log2 p). lia. }
    rewrite Hd.
    replace (d + Zpos f + fexp prec emax (d + e)) with
      (d + e + (fexp prec emax (d + e) - e + Zpos f)) by lia.
    rewrite Hf. replace (Zneg f + Zpos f) with 0 by lia.
    rewrite Z.add_0_r. lia.
Qed.

Lemma binary_normalize_valid (z e : Z) :
  Double.valid (binary_normalize prec emax z e false).
Proof.
  destruct z; [reflexivity | apply binary_round_valid ..].
Qed.

(** Every integer converts to a value of the type. *)
Lemma of_Z_valid (z : Z) : Double.valid (Double.of_Z z).
Proof. apply binary_normalize_valid. Qed.

(** The quotient of two positive mantissas, as [SFdiv] and [strtod]
    round it. *)
Lemma div_core_valid (s : bool) (m1 m2 : positive) (e1 e2 : Z) :
  Double.valid
    (let '(q, e, l) := SFdiv_core_binary prec emax (Zpos m1) e1 (Zpos m2) e2 in
     binary_round_aux prec emax s q e l).
Proof.
  unfold SFdiv_core_binary. cbn [Zdigits2].
  set (d1 := Zpos (digits2_pos m1)). set (d2 := Zpos (digits2_pos m2)).
  set (e' := Z.min (fexp prec emax (d1 + e1 - (d2 + e2))) (e1 - e2)).
  set (sh := e1 - e2 - e').
  assert (Hsh : 0 <= sh) by (subst sh e'; lia).
  set (m' := match sh with
             | 0 => Zpos m1
             | Zpos _ => Z.shiftl (Zpos m1) sh
             | Zneg _ => 0
             end).
  assert (Hm' : m' = Zpos m1 * 2 ^ sh).
  { subst m'. destruct sh as [ | p | p] eqn:Hs; try lia.
    apply Z.shiftl_mul_pow2. lia. }
  pose proof (Z_div_mod m' (Zpos m2) ltac:(lia)) as Hdm.
  destruct (Z.div_eucl m' (Zpos m2)) as [q r] eqn:Hqr.
  destruct Hdm as [Hdiv Hr].
  assert (Hp : 0 < 2 ^ sh) by (apply Z.pow_pos_nonneg; lia).
  assert (Hq : q = m' / Zpos m2).
  { apply Z.div_unique with r; [lia | assumption]. }
  assert (Hq0 : 0 <= q) by (rewrite Hq; apply Z.div_pos; lia).
  apply binary_round_aux_valid; [assumption | ].
  apply Z.le_trans with (fexp prec emax (d1 + e1 - (d2 + e2)));
    [subst e'; lia | ].
  apply fexp_mono.
  assert (HD : d1 + sh - d2 <= Zdigits2 q); [ | subst sh; lia].
  destruct (Z.le_gt_cases (d1 + sh - d2) 0) as [Hle | Hgt].
  - destruct q; cbn [Zdigits2]; lia.
  - pose proof (digits2_bounds m1) as [Hlo1 _].
    pose proof (digits2_bounds m2) as [_ Hhi2].
    fold d1 in Hlo1. fold d2 in Hhi2.
    assert (Hd2 : 0 < d2) by (subst d2; lia).
    assert (Hpd2 : 0 < 2 ^ d2) by (apply Z.pow_pos_nonneg; lia).
    assert (Hlow : 2 ^ (d1 + sh - d2 - 1) <= q).
    { rewrite Hq. apply Z.div_le_lower_bound; [lia | ].
      apply Z.le_trans with (2 ^ d2 * 2 ^ (d1 + sh - d2 - 1)).
      - apply Z.mul_le_mono_nonneg_r; [apply Z.pow_nonneg; lia | lia].
      - rewrite <- Z.pow_add_r by lia.
        replace (d2 + (d1 + sh - d2 - 1)) with (d1 - 1 + sh) by lia.
        rewrite Z.pow_add_r, Hm' by (subst d1; lia).
        apply Z.mul_le_mono_nonneg_r; lia. }
    assert (Hqpos : 0 < q).
    { assert (0 < 2 ^ (d1 + sh - d2 - 1)) by (apply Z.pow_pos_nonneg; lia).
      lia. }
    rewrite Zdigits2_log2 by assumption.
    assert (d1 + sh - d2 - 1 <= Z.log2 q) by (apply Z.log2_le_pow2; lia).
    lia.
Qed.

(** A quotient is in the type whatever its operands. *)
Lemma div_valid (x y : double) : Double.valid (Double.div x y).
Proof.
  unfold Double.div, SF64div.
  destruct x as [sx | sx | | sx mx ex], y as [sy | sy | | sy my ey];
    try reflexivity.
  apply (div_core_valid (xorb sx sy) mx my ex ey).
Qed.

Lemma canonical_cases (m : positive) (e : Z) :
  Double.valid (S754_finite false m e) ->
  Zpos (digits2_pos m) = 53 \/ (e = -1074 /\ Zpos (digits2_pos m) <= 53).
Proof.
  unfold Double.valid. cbn [valid_binary]. unfold bounded, canonical_mantissa.
  intros H. apply andb_prop in H. destruct H as [H _]. apply Z.eqb_eq in H.
  revert H. unfold fexp, SpecFloat.emin, prec, emax. lia.
Qed.

Lemma mul_valid (x y : double) :
  Double.valid x -> Double.valid y -> Double.valid (Double.mul x y).
Proof.
  intros Hx Hy. unfold Double.mul, SF64mul.
  destruct x as [sx | sx | | sx mx ex], y as [sy | sy | | sy my ey];
    try reflexivity.
  cbn [SFmul]. apply binary_round_aux_valid; [lia | ]. cbn [Zdigits2].
  assert (Hx' : Double.valid (S754_finite false mx ex)) by exact Hx.
  assert (Hy' : Double.valid (S754_finite false my ey)) by exact Hy.
  apply canonical_cases in Hx', Hy'.
  pose proof (digits2_bounds mx) as [Hlx _].
  pose proof (digits2_bounds my) as [Hly _].
  pose proof (digits2_bounds (mx * my)) as [_ Hh].
  set (dx := Zpos (digits2_pos mx)) in *.
  set (dy := Zpos (digits2_pos my)) in *.
  set (d := Zpos (digits2_pos (mx * my))) in *.
  assert (Hdx : 1 <= dx) by (subst dx; lia).
  assert (Hdy : 1 <= dy) by (subst dy; lia).
  assert (Hd : dx + dy - 1 <= d).
  { assert (dx - 1 + (dy - 1) < d); [ | lia].
    apply pow2_lt_inv; [subst d; lia | ].
    rewrite Z.pow_add_r by lia. rewrite Pos2Z.inj_mul in Hh.
    assert (2 ^ (dx - 1) * 2 ^ (dy - 1) <= Zpos mx * Zpos my); [ | lia].
    apply Z.mul_le_mono_nonneg; try assumption; apply Z.pow_nonneg; lia. }
  revert Hx' Hy'. unfold fexp, SpecFloat.emin, prec, emax. lia.
Qed.

Lemma sub_valid (x y : double) :
  Double.valid x -> Double.valid y -> Double.valid (Double.sub x y).
Proof.
  intros Hx Hy. unfold Double.sub, SF64sub.
  destruct x as [sx | sx | | sx mx ex], y as [sy | sy | | sy my ey];
    try reflexivity; try (destruct sx, sy; reflexivity);
    cbn [SFsub]; first [exact Hx | exact Hy | apply binary_normalize_valid].
Qed.

End Validity.

(* ================================================================== *)
(** ** Signs *)

Section Signs.

Lemma binary_round_aux_not_negative (m e : Z) (l : location) :
  0 <= m -> not_negative (binary_round_aux prec emax false m e l).
Proof.
  intros Hm.
  destruct (binary_round_aux_spec false m e l Hm)
    as (m2 & e' & e'' & m'' & _ & _ & _ & _ & _ & _ & ->).
  destruct m''; cbn; auto. destruct (_ <=? _); reflexivity.
Qed.

Lemma of_Z_not_negative (z : Z) : 0 <= z -> not_negative (Double.of_Z z).
Proof.
  intros Hz. unfold Double.of_Z, binary_normalize.
  destruct z as [ | p | p]; try lia; [reflexivity | ].
  unfold binary_round.
  destruct (shl_align p 0 _) as [mz ez].
  apply binary_round_aux_not_negative. lia.
Qed.

Lemma div_not_negative (x y : double) :
  not_negative x -> not_negative y -> not_negative (Double.div x y).
Proof.
  unfold Double.div, SF64div. intros Hx Hy.
  destruct x as [sx | sx | | sx mx ex], y as [sy | sy | | sy my ey];
    cbn [not_negative] in Hx, Hy; subst; cbn [not_negative SFdiv xorb];
    try reflexivity; try exact I.
  unfold SFdiv_core_binary.
  destruct (Z.div_eucl _ (Zpos my)) as [q r] eqn:Hqr.
  apply binary_round_aux_not_negative.
  match type of Hqr with
  | Z.div_eucl ?a ?b = _ =>
      pose proof (Z_div_mod a b ltac:(lia)) as Hdm; rewrite Hqr in Hdm;
      assert (Ha : 0 <= a)
  end.
  { destruct (_ - _) as [ | p | p]; try lia.
    apply Z.shiftl_nonneg. lia. }
  destruct Hdm as [Hd Hr]. nia.
Qed.

Lemma not_negative_ltb (x : double) :
  not_negative x -> Double.ltb x Double.zero = false.
Proof. destruct x as [s | s | | s m e]; cbn; intros; subst; reflexivity. Qed.

End Signs.

(* ================================================================== *)
(** ** The bar renderer *)

Section DrawBar.

Variable use_color : bool.

Lemma append_assoc (a b c : string) :
  ((a ++ b) ++ c = a ++ (b ++ c))%string.
Proof. induction a as [ | x a IH]; simpl; [reflexivity | now rewrite IH]. Qed.

Lemma append_nil_r (a : string) : (a ++ "" = a)%string.
Proof. induction a as [ | x a IH]; simpl; [reflexivity | now rewrite IH]. Qed.

Lemma written_app (a b : list call) :
  written (a ++ b) = (written a ++ written b)%string.
Proof.
  induction a as [ | c a IH]; [reflexivity | ].
  destruct c; simpl; rewrite IH; try reflexivity;
    now rewrite append_assoc.
Qed.

Lemma c_str_string_of_char (n : nat) :
  c_str (string_of_char n "|") = string_of_char n "|".
Proof. induction n as [ | n IH]; cbn; [reflexivity | now rewrite IH]. Qed.

Lemma written_print_string (c : color.type) (str : string) (a : attr) :
  written (print_string use_color c str a) = c_str str.
Proof.
  unfold print_string, set_color, remove_color.
  destruct use_color; simpl; apply append_nil_r.
Qed.

Lemma int_of_in (z : Z) : in_int z = true -> int_of z = Ok z.
Proof. unfold int_of. now intros ->. Qed.

Lemma in_int_bounds (z : Z) : in_int z = true <-> - 2 ^ 31 <= z <= 2 ^ 31 - 1.
Proof.
  unfold in_int, INT_MIN, INT_MAX.
  rewrite andb_true_iff, !Z.leb_le. reflexivity.
Qed.

Lemma int_of_size_small (n : Z) :
  0 <= n <= INT_MAX -> int_of_size n = n.
Proof.
  unfold int_of_size, INT_MAX. intros Hn.
  rewrite Z.mod_small by lia.
  destruct (Z.leb_spec n (2 ^ 31 - 1)); lia.
Qed.

Lemma size_nonneg (s : string) : 0 <= size s.
Proof. unfold size. lia. Qed.

Lemma written_bar_calls (row col track bars : Z) (c : double) (str : string) :
  written (bar_calls use_color row col track bars c str)
  = ("[" ++ string_of_char (Z.to_nat bars) "|" ++ c_str str ++ "]")%string.
Proof.
  unfold bar_calls.
  change ([move row col; clrtoeol; attron A_BOLD; addch "["; attroff A_BOLD]
            ++ ?x)%list
    with (move row col :: clrtoeol :: attron A_BOLD :: addch "["
            :: attroff A_BOLD :: x).
  cbn [written]. f_equal.
  rewrite written_app, written_print_string, c_str_string_of_char. f_equal.
  cbn [app written]. rewrite written_app, written_print_string.
  reflexivity.
Qed.

(** [draw_bar], once its bar length is known. *)
Lemma draw_bar_run (row col width bars : Z) (pc : double) (str : string) :
  no_overflow col width str ->
  Double.trunc
    (Double.mul (Double.of_Z (track_of width str))
       (Double.clamp pc Double.zero Double.one)) = Some bars ->
  in_int bars = true ->
  draw_bar use_color row col width pc str =
    Ok (if bars <? 0 then [move row col; clrtoeol]
        else bar_calls use_color row col (track_of width str) bars
               (Double.clamp pc Double.zero Double.one) str).
Proof.
  intros (Hsz & Htr & Hc1 & Hc2) Hbars Hin.
  unfold draw_bar, int_add, int_sub.
  pose proof (size_nonneg str) as Hs0.
  rewrite int_of_size_small in * by (unfold INT_MAX in *; lia).
  rewrite int_of_in
    by (apply in_int_bounds; unfold INT_MAX in *; lia).
  cbn [bind].
  unfold track_of in *.
  rewrite int_of_size_small in * by (unfold INT_MAX in *; lia).
  rewrite (int_of_in _ Htr). cbn [bind].
  unfold Double.to_int. rewrite Hbars, (int_of_in _ Hin). cbn [bind].
  destruct (bars <? 0); [reflexivity | ].
  unfold draw_bar_body, int_add.
  rewrite (int_of_in _ Hc1). cbn [bind].
  rewrite (int_of_in _ Hc2). cbn [bind].
  reflexivity.
Qed.

Lemma length_string_of_char (n : nat) (c : ascii) :
  String.length (string_of_char n c) = n.
Proof. induction n as [ | n IH]; simpl; [reflexivity | now rewrite IH]. Qed.

Lemma in_int_abs (z : Z) : in_int z = true -> Z.abs z <= 2 ^ 31.
Proof. rewrite in_int_bounds. lia. Qed.

Lemma track_of_small (width : Z) (str : string) :
  size str <= INT_MAX - 2 -> track_of width str = width - (2 + size str).
Proof.
  intros H. unfold track_of. pose proof (size_nonneg str).
  rewrite int_of_size_small by (unfold INT_MAX in *; lia). reflexivity.
Qed.

(** The bar length of a fraction that is a number: defined, an [int],
    and between zero and the track. *)
Lemma bar_length_defined (col width : Z) (pc : double) (str : string) :
  Double.valid pc -> Double.is_nan pc = false ->
  no_overflow col width str ->
  let c := Double.clamp pc Double.zero Double.one in
  let track := track_of width str in
  Double.leb Double.zero c = true /\ Double.leb c Double.one = true /\
  exists bars,
    Double.trunc (Double.mul (Double.of_Z track) c) = Some bars /\
    in_int bars = true /\
    (0 <= track -> 0 <= bars <= track) /\
    (track <= 0 -> track <= bars <= 0).
Proof.
  intros Hv Hn Hno c track.
  destruct (clamp_range pc Hv Hn) as (Hvc & H0 & H1). fold c in Hvc, H0, H1.
  destruct Hno as (Hsz & Htr & _).
  destruct (trunc_mul_bounds track c (in_int_abs _ Htr) Hvc H0 H1)
    as (bars & Hb & Hpos & Hneg).
  repeat split; auto. exists bars. repeat split; auto;
    try (apply Hpos; assumption); try (apply Hneg; assumption).
  apply in_int_bounds. apply in_int_bounds in Htr. fold track in Htr.
  destruct (Z.le_ge_cases 0 track);
    [specialize (Hpos ltac:(lia)) | specialize (Hneg ltac:(lia))]; lia.
Qed.

(** C1 (amended). For every fraction that is a number (any [double] but
    NaN) and [int] arguments whose arithmetic does not overflow,
    [draw_bar] uses the fraction clamped to [0, 1], reserves
    [2 + len(str)] columns of [width], and computes the bar length as the
    integer part of [track * clamped]; it writes exactly that many bar
    glyphs between the brackets when the length is not negative (nothing
    otherwise), followed by the label as [addstr] takes it, and the
    length lies between 0 and the track when the track is not negative. *)
Theorem draw_bar_clamped_length
    (row col width : Z) (pc : double) (str : string) :
  Double.valid pc -> Double.is_nan pc = false ->
  no_overflow col width str ->
  let c := Double.clamp pc Double.zero Double.one in
  let track := track_of width str in
  Double.leb Double.zero c = true /\ Double.leb c Double.one = true /\
  track = width - (2 + size str) /\
  exists bars t,
    Double.to_int (Double.mul (Double.of_Z track) c) = Ok bars /\
    (0 <= track -> 0 <= bars <= track) /\
    (track <= 0 -> track <= bars <= 0) /\
    draw_bar use_color row col width pc str = Ok t /\
    written t =
      if bars <? 0 then ""
      else ("[" ++ string_of_char (Z.to_nat bars) "|"
                ++ c_str str ++ "]")%string.
Proof.
  intros Hv Hn Hno c track.
  destruct (bar_length_defined col width pc str Hv Hn Hno)
    as (H0 & H1 & bars & Hb & Hin & Hpos & Hneg).
  fold c in H0, H1, Hb. fold track in Hb, Hpos, Hneg.
  repeat split; auto.
  - apply track_of_small, Hno.
  - exists bars. eexists. repeat split; auto;
      try (apply Hpos; assumption); try (apply Hneg; assumption).
    + unfold Double.to_int. rewrite Hb. apply int_of_in; assumption.
    + apply (draw_bar_run row col width bars pc str Hno Hb Hin).
    + destruct (bars <? 0); [reflexivity | apply written_bar_calls].
Qed.


End DrawBar.

(* ================================================================== *)
(** ** Every fraction the device computes is a value of the type *)

Section Fractions.

Lemma strtod_round_valid (neg : bool) (num den : positive) (x : double) :
  strtod_round neg num den = Ok x -> Double.valid x.
Proof.
  unfold strtod_round.
  pose proof (div_core_valid neg num den 0 0) as Hv.
  fold (round_ratio neg num den) in Hv.
  destruct (round_ratio neg num den) as [s | s | | s m e]; try discriminate;
    (destruct (_ && _); [discriminate | ]);
    intros H; injection H as <-; first [reflexivity | exact Hv].
Qed.

Lemma strtod_scaled_valid (neg : bool) (m base e : Z) (x : double) :
  strtod_scaled neg m base e = Ok x -> Double.valid x.
Proof.
  unfold strtod_scaled. destruct m as [ | p | p].
  - intros H. injection H as <-. reflexivity.
  - destruct (0 <=? e); apply strtod_round_valid.
  - intros H. injection H as <-. reflexivity.
Qed.

Lemma stod_valid (str : string) (x : double) :
  stod str = Ok x -> Double.valid x.
Proof.
  unfold stod. destruct (read_sign (skip_space str)) as [neg s].
  destruct (strip_prefix_ci "inf" s).
  - intros H. injection H as <-. reflexivity.
  - destruct (strip_prefix_ci "nan" s).
    + intros H. injection H as <-. reflexivity.
    + destruct (hex_subject s) as [[m e] | ].
      * apply strtod_scaled_valid.
      * destruct (dec_subject s) as [[m e] | ]; [ | discriminate].
        apply strtod_scaled_valid.
Qed.

(** The seven bar metrics. *)
Lemma fraction_valid (fs : filesystem) (dev : device)
    (text : string) (pc : double) :
  In (Ok (text, pc))
     [busy fs dev; vram fs dev; gtt fs dev; vis_vram fs dev;
      power fs dev; temperature fs dev; fan fs dev] ->
  Double.valid pc.
Proof.
  cbn [In]. unfold busy, vram, gtt, vis_vram, memory, power, temperature, fan.
  intros [H | [H | [H | [H | [H | [H | [H | []]]]]]]];
    repeat match type of H with
           | bind ?r _ = Ok _ =>
               let E := fresh "E" in
               destruct r eqn:E; cbn [bind] in H; try discriminate
           end;
    injection H as _ <-;
    first [ apply div_valid
          | apply mul_valid; [eapply stod_valid; eassumption | reflexivity] ].
Qed.

(** What the loop hands to [draw_bar] is clamped into [0, 1] and drawn
    as a bar no longer than its track, unless it is NaN. *)
Lemma drawn_fraction_bounded (use_color : bool) (fs : filesystem)
    (dev : device) (row width : Z) (text : string) (pc : double) :
  In (Ok (text, pc))
     [busy fs dev; vram fs dev; gtt fs dev; vis_vram fs dev;
      power fs dev; temperature fs dev; fan fs dev] ->
  Double.is_nan pc = false ->
  no_overflow text_len width text ->
  0 <= track_of width text ->
  exists bars,
    0 <= bars <= track_of width text /\
    draw_bar use_color row text_len width pc text
      = Ok (bar_calls use_color row text_len (track_of width text) bars
              (Double.clamp pc Double.zero Double.one) text).
Proof.
  intros Hin Hn Hno Ht.
  destruct (bar_length_defined text_len width pc text
              (fraction_valid fs dev text pc Hin) Hn Hno)
    as (_ & _ & bars & Hb & Hi & Hpos & _).
  exists bars. split; [apply Hpos; assumption | ].
  rewrite (draw_bar_run use_color row text_len width bars pc text Hno Hb Hi).
  destruct (Z.ltb_spec bars 0); [specialize (Hpos Ht); lia | reflexivity].
Qed.

End Fractions.

(* ================================================================== *)
(** ** The colour band *)

(** C3. The band [draw_bar] selects is the one the specification words:
    ok below 0.33, warn from 0.33 up to 0.67 excluded, bad otherwise; at
    exactly 0.33 the test [pc < 0.33] is false and the band is warn. With
    colours on, the bar glyphs are written under the colour pair of that
    band. *)
Theorem bar_color_bands :
  (forall pc : double, bar_color pc = band_spec pc) /\
  Double.ltb Double.c0_33 Double.c0_33 = false /\
  bar_color Double.c0_33 = color.warn /\
  (forall (row col width bars : Z) (pc : double) (str : string)
          (drawn : list call),
      draw_bar_body true row col width bars pc str = Ok drawn ->
      exists before after,
        drawn =
          (before
             ++ [attron (COLOR_PAIR (color.code (band_spec pc)));
                 addstr (string_of_char (Z.to_nat bars) "|");
                 attroff (COLOR_PAIR (color.code (band_spec pc)))]
             ++ after)%list).
Proof.
  assert (Hband : forall pc : double, bar_color pc = band_spec pc).
  { intros pc. unfold bar_color, band_spec.
    destruct (Double.ltb pc Double.c0_33) eqn:H33; [reflexivity | ].
    destruct (Double.ltb pc Double.c0_67) eqn:H67.
    - rewrite not_ltb_leb; [reflexivity | reflexivity | | assumption].
      apply (ltb_not_nan Double.c0_67). assumption.
    - now rewrite andb_false_r. }
  split; [exact Hband | ]. repeat split.
  intros row col width bars pc str drawn. unfold draw_bar_body.
  destruct (int_add col width) as [c | | ]; cbn [bind]; try discriminate.
  destruct (int_add c 1) as [c' | | ]; cbn [bind]; try discriminate.
  intros H. injection H as <-. rewrite <- Hband.
  unfold print_string. rewrite c_str_string_of_char.
  exists [attron A_BOLD; addch "["; attroff A_BOLD; attron A_NONE].
  eexists. reflexivity.
Qed.

(* ================================================================== *)
(** ** Reading files *)

Section ReadFile.

Variable fs : filesystem.
Variable dev : device.

Lemma stoull_zero : stoull "0" = Ok 0.
Proof. reflexivity. Qed.

Lemma stod_zero : stod "0" = Ok Double.zero.
Proof. reflexivity. Qed.


Lemma stoull_no_integer (line : string) :
  no_integer line = true -> stoull line = Throw invalid_argument.
Proof.
  unfold no_integer, stoull.
  destruct (read_sign (skip_space line)) as [neg s]. cbn [snd].
  destruct s as [ | c r]; [reflexivity | ].
  intros Hc. cbn [read_digits].
  apply negb_true_iff in Hc. rewrite Hc. reflexivity.
Qed.

Lemma strip_0x_no_digit (c : ascii) (r : string) :
  isdigit c = false -> strip_prefix_ci "0x" (String c r) = None.
Proof.
  intros Hc. cbn [strip_prefix_ci].
  destruct (Ascii.eqb_spec (lower c) "0") as [Heq | ]; [ | reflexivity].
  exfalso. revert Hc Heq.
  destruct c as [[] [] [] [] [] [] [] []]; vm_compute; congruence.
Qed.

Lemma dec_subject_none (c : ascii) (r : string) :
  isdigit c = false ->
  (Ascii.eqb c "." && match r with
                      | String d _ => isdigit d
                      | EmptyString => false
                      end) = false ->
  dec_subject (String c r) = None.
Proof.
  intros Hc Hdot. unfold dec_subject, read_mantissa.
  cbn [read_digits]. rewrite Hc.
  destruct (Ascii.eqb_spec c ".") as [-> | Hne].
  - cbn [andb] in Hdot. destruct r as [ | d r']; [reflexivity | ].
    cbn [read_digits]. rewrite Hdot. reflexivity.
  - assert (Hm : match String c r with
                 | String "." r0 => read_digits r0 0
                 | _ => (O, 0, String c r)
                 end = (O, 0, String c r)).
    { destruct c as [[] [] [] [] [] [] [] []]; try reflexivity.
      now elim Hne. }
    rewrite Hm. reflexivity.
Qed.

Lemma stod_no_float (line : string) :
  no_float line = true -> stod line = Throw invalid_argument.
Proof.
  unfold no_float, stod.
  destruct (read_sign (skip_space line)) as [neg s]. cbn [snd].
  destruct (strip_prefix_ci "inf" s); [discriminate | ].
  destruct (strip_prefix_ci "nan" s); [discriminate | ].
  destruct s as [ | c r]; [reflexivity | ].
  intros H. apply andb_true_iff in H. destruct H as [Hc Hdot].
  apply negb_true_iff in Hc, Hdot.
  unfold hex_subject. rewrite (strip_0x_no_digit c r Hc).
  rewrite (dec_subject_none c r Hc Hdot). reflexivity.
Qed.

(** A malformed line makes the fetch throw. *)
Lemma fetch_malformed (m : metric) :
  malformed m (read_file fs (m_path dev) (metric_file m)) = true ->
  fetch m fs dev = Throw invalid_argument.
Proof.
  destruct m; cbn [fetch metric_file malformed]; intros H;
    unfold busy, vram, gtt, vis_vram, memory, power, temperature, fan,
      gfx_clock, mem_clock, clock, returns;
    rewrite ?(stoull_no_integer _ H), ?(stod_no_float _ H); reflexivity.
Qed.

(** [getline] stops at the first newline. *)
Lemma getline_first_line (line rest : string) :
  getline line = line ->
  getline (line ++ String (ascii_of_nat 10) rest) = line.
Proof.
  induction line as [ | c line IH]; [reflexivity | ].
  cbn [getline append].
  destruct (N_of_ascii c =? 10)%N; [discriminate | ].
  intros H. injection H as H. now rewrite (IH H).
Qed.

(** C10. A telemetry file that opens but is empty, or starts with an
    empty line, reads as the empty string and not as ["0"]; the
    conversion of the metric then throws [invalid_argument]. *)
Theorem empty_file_is_malformed (m : metric) (content : string) :
  fs (m_path dev ++ metric_file m)%string = Some content ->
  first_line_empty content = true ->
  read_file fs (m_path dev) (metric_file m) = ""%string /\
  read_file fs (m_path dev) (metric_file m) <> "0"%string /\
  fetch m fs dev = Throw invalid_argument.
Proof.
  intros Hfile Hempty.
  assert (Hr : read_file fs (m_path dev) (metric_file m) = ""%string).
  { unfold read_file. rewrite Hfile.
    destruct content as [ | c r]; [reflexivity | ].
    cbn [first_line_empty] in Hempty. cbn [getline]. now rewrite Hempty. }
  repeat split; [assumption | rewrite Hr; discriminate | ].
  apply fetch_malformed. rewrite Hr. destruct m; reflexivity.
Qed.

End ReadFile.

(* ================================================================== *)
(** ** The registry *)

Section Registry.

Lemma assign_length (v : list bool) (i : nat) (b : bool) (v' : list bool) :
  assign v i b = Ok v' -> List.length v' = List.length v.
Proof.
  revert i v'. induction v as [ | x v IH]; intros [ | i] v'; cbn;
    try discriminate.
  - intros H. injection H as <-. reflexivity.
  - destruct (assign v i b) as [r | | ] eqn:Ha; cbn; try discriminate.
    intros H. injection H as <-. cbn. now rewrite (IH i r Ha).
Qed.

Lemma assign_defined (v : list bool) (i : nat) (b : bool) :
  (i < List.length v)%nat -> exists v', assign v i b = Ok v'.
Proof.
  revert i. induction v as [ | x v IH]; intros [ | i] Hi; cbn in *;
    try lia.
  - eexists. reflexivity.
  - destruct (IH i ltac:(lia)) as [v' ->]. eexists. reflexivity.
Qed.

Lemma info_find_bound (name : string) (i : nat) :
  info.find name = Some i -> (i < info.row_count)%nat.
Proof.
  unfold info.find.
  destruct (List.find _ info.info_map) as [kv | ] eqn:Hf; [ | discriminate].
  intros H. injection H as <-.
  apply find_some in Hf. destruct Hf as [Hin _].
  unfold info.info_map in Hin. cbn [In] in Hin.
  repeat (destruct Hin as [<- | Hin]; [vm_compute; lia | ]).
  contradiction.
Qed.

(** [disable_option] is defined on a registry of twelve rows and keeps
    its size. *)
Lemma disable_option_defined (rows : list bool) (name : string) :
  List.length rows = info.row_count ->
  exists rows', disable_option rows name = Ok rows' /\
                List.length rows' = info.row_count.
Proof.
  intros Hlen. unfold disable_option.
  destruct (info.find name) as [i | ] eqn:Hf.
  - destruct (assign_defined rows i false) as [rows' Ha].
    { rewrite Hlen. apply (info_find_bound name). assumption. }
    exists rows'. split; [assumption | ].
    now rewrite (assign_length _ _ _ _ Ha).
  - exists rows. split; [reflexivity | assumption].
Qed.

Lemma find_bounds (s : string) (c : ascii) (pos idx : nat) :
  find s c pos = Some idx -> (pos <= idx < String.length s)%nat.
Proof.
  revert pos idx. induction s as [ | a r IH]; intros pos idx; cbn [find];
    [discriminate | ].
  destruct pos as [ | p].
  - destruct (Ascii.eqb a c).
    + intros H. injection H as <-. cbn. lia.
    + destruct (find r c 0) as [j | ] eqn:Hj; cbn; [ | discriminate].
      intros H. injection H as <-. specialize (IH _ _ Hj). cbn. lia.
  - destruct (find r c p) as [j | ] eqn:Hj; cbn; [ | discriminate].
    intros H. injection H as <-. specialize (IH _ _ Hj). cbn. lia.
Qed.

(** The fuel [disable_options] gives its loop, one unit per character,
    is enough: the loop ends, with a registry of the same size. *)
Lemma disable_options_loop_defined (options : string) :
  forall (fuel : nat) (rows : list bool) (prev_idx : nat),
    List.length rows = info.row_count ->
    (String.length options <= fuel + prev_idx)%nat ->
    exists rows',
      disable_options_loop fuel rows options prev_idx = Some (Ok rows') /\
      List.length rows' = info.row_count.
Proof.
  induction fuel as [ | fuel IH]; intros rows prev_idx Hlen Hfuel;
    cbn [disable_options_loop];
    destruct (find options "," prev_idx) as [idx | ] eqn:Hfind;
    try (destruct (disable_option_defined rows (substr_from options prev_idx)
                     Hlen) as (rows' & -> & Hl);
         exists rows'; split; [reflexivity | assumption]).
  - apply find_bounds in Hfind. lia.
  - apply find_bounds in Hfind.
    destruct (disable_option_defined rows
                (substr options prev_idx (idx - prev_idx)) Hlen)
      as (rows1 & -> & Hl1).
    apply IH; [assumption | lia].
Qed.

Lemma disable_options_defined (rows : list bool) (options : string) :
  List.length rows = info.row_count ->
  exists rows', disable_options rows options = Ok rows' /\
                List.length rows' = info.row_count.
Proof.
  intros Hlen. unfold disable_options.
  destruct (disable_options_loop_defined options (String.length options)
              rows 0 Hlen ltac:(lia)) as (rows' & -> & Hl).
  exists rows'. split; [reflexivity | assumption].
Qed.

(** C8. On a fresh registry, [disable_options] with ["busy,fan"] turns
    off exactly [busy] and [fan]: ten of the twelve rows stay enabled;
    and [disable_option] leaves the registry as it is for a name that is
    no key of [info_map]. *)
Theorem disable_busy_fan :
  (exists rows,
      disable_options (repeat true info.row_count) "busy,fan" = Ok rows /\
      rows = [false; true; true; true; true; true;
              false; true; true; true; true; true] /\
      List.length (filter (fun b => b) rows) = 10%nat /\
      nth_error rows info.busy = Some false /\
      nth_error rows info.fan = Some false) /\
  (forall (rows : list bool) (name : string),
      ~ In name (map fst info.info_map) ->
      disable_option rows name = Ok rows).
Proof.
  split.
  - eexists. split; [reflexivity | ]. repeat split; reflexivity.
  - intros rows name Hin. unfold disable_option, info.find.
    destruct (List.find _ info.info_map) as [kv | ] eqn:Hf; [ | reflexivity].
    exfalso. apply find_some in Hf. destruct Hf as [Hkv Heq].
    apply String.eqb_eq in Heq. apply Hin. rewrite <- Heq.
    apply in_map. assumption.
Qed.

End Registry.

(* ================================================================== *)
(** ** Startup *)

Lemma device_new_path (fs : filesystem) (path : string) (dev : device) :
  device_new fs path = Ok dev -> m_path dev = path.
Proof.
  unfold device_new.
  repeat match goal with
         | |- bind ?r _ = Ok _ -> _ => destruct r; cbn [bind]; try discriminate
         end.
  intros H. injection H as <-. reflexivity.
Qed.

Lemma parse_options_trace (argv0 : string) (opts : list getopt)
    (s0 s : settings) (tr : list call) :
  parse_options argv0 opts s0 = (tr, Ok (Configured s)) -> tr = [].
Proof.
  revert s0. induction opts as [ | o opts IH]; intros s0; cbn [parse_options].
  - unfold pret. congruence.
  - destruct o as [ | | optarg | optarg | ].
    + cbn. congruence.
    + apply IH.
    + unfold lift. destruct (stoi optarg) as [n | e | ]; cbn [pbind];
        try congruence.
      destruct (parse_options argv0 opts _) as [t' r] eqn:Hp.
      cbn [app]. intros H. injection H as <- ->. exact (IH _ Hp).
    + unfold lift. destruct (disable_options _ optarg) as [n | e | ];
        cbn [pbind]; try congruence.
      destruct (parse_options argv0 opts _) as [t' r] eqn:Hp.
      cbn [app]. intros H. injection H as <- ->. exact (IH _ Hp).
    + unfold pret. congruence.
Qed.

Lemma all_disabled_at (rows : list bool) (i : nat) :
  at_ rows i = Ok true -> all_disabled rows = false.
Proof.
  unfold at_, all_disabled. revert i.
  induction rows as [ | b rows IH]; intros [ | i]; cbn; try discriminate.
  - destruct b; [reflexivity | discriminate].
  - intros H. rewrite (IH i H). apply andb_false_r.
Qed.


Lemma all_disabled_spec (rows : list bool) :
  all_disabled rows = true <-> Forall (fun b => b = false) rows.
Proof.
  unfold all_disabled. rewrite forallb_forall, Forall_forall.
  split; intros H b Hb; specialize (H b Hb); destruct b; cbn in *; congruence.
Qed.

(** C9. When every flag of the registry is false once the options are
    read, [main] writes one line to standard output and returns
    [EXIT_SUCCESS]; it makes no curses call at all, so the terminal is
    never initialised and the loop never entered. [all_disabled] holds
    exactly when every flag is false. *)
Theorem all_disabled_exits
    (argv0 : string) (opts : list getopt) (has_colors : bool)
    (boot : filesystem) (ticks : list tick) (tr : list call) (s : settings) :
  parse_options argv0 opts initial_settings = (tr, Ok (Configured s)) ->
  Forall (fun b => b = false) (enabled_rows s) ->
  all_disabled (enabled_rows s) = true /\
  main argv0 opts has_colors boot ticks
    = ([cout ("All rows disabled. Exiting." ++ nl)], Exit EXIT_SUCCESS) /\
  (forall rows, all_disabled rows = true -> Forall (fun b => b = false) rows).
Proof.
  intros Hp Hall.
  assert (Hd : all_disabled (enabled_rows s) = true)
    by (apply all_disabled_spec; assumption).
  split; [assumption | split; [ | intros rows; apply all_disabled_spec]].
  unfold main, main_prog.
  rewrite (parse_options_trace _ _ _ _ _ Hp) in Hp. rewrite Hp.
  cbn [pbind]. rewrite Hd. reflexivity.
Qed.

(* ================================================================== *)
(** ** Exceptions reach [main] *)

Section Propagation.

Lemma pbind_ok {A B : Type} (m : prog A) (k : A -> prog B) (b : B) :
  snd (pbind m k) = Ok b ->
  exists a, snd m = Ok a /\ snd (k a) = Ok b.
Proof.
  destruct m as [t [a | e | ]]; cbn [pbind snd]; try discriminate.
  destruct (k a) as [t' r] eqn:Hk. cbn [snd]. intros ->.
  exists a. rewrite Hk. split; reflexivity.
Qed.

Lemma returns_throw {A : Type} (r : result A) (e : exn) :
  returns r = Throw e -> r = Throw e.
Proof. destruct r; cbn; congruence. Qed.

Variable use_color : bool.
Variable enabled : list bool.

Lemma bar_row_throw (i : nat) (sample : result (string * double))
    (bar_width row : Z) (e : exn) (r : Z) :
  at_ enabled i = Ok true -> sample = Throw e ->
  snd (bar_row use_color enabled i sample bar_width row) <> Ok r.
Proof.
  intros Hi ->. unfold bar_row, lift. rewrite Hi. cbn. discriminate.
Qed.

Lemma text_row_throw (i : nat) (sample : result string)
    (row : Z) (e : exn) (r : Z) :
  at_ enabled i = Ok true -> sample = Throw e ->
  snd (text_row use_color enabled i sample row) <> Ok r.
Proof.
  intros Hi ->. unfold text_row, lift. rewrite Hi. cbn. discriminate.
Qed.

(** A drawing pass with an enabled row whose fetch throws does not
    complete. *)
Lemma draw_rows_fatal (m : metric) (fs : filesystem) (dev : device)
    (COLS : Z) (e : exn) (u : unit) :
  at_ enabled (metric_row m) = Ok true ->
  fetch m fs dev = Throw e ->
  snd (draw_rows use_color enabled fs dev COLS) <> Ok u.
Proof.
  intros Hi Hf Hok. unfold draw_rows in Hok.
  repeat match type of Hok with
         | snd (pbind _ _) = Ok _ =>
             let a := fresh "a" in
             let Ha := fresh "Ha" in
             apply pbind_ok in Hok; destruct Hok as (a & Ha & Hok)
         end.
  destruct m; cbn [fetch metric_row] in Hi, Hf; apply returns_throw in Hf;
    match goal with
    | H : snd (bar_row _ _ ?i ?s _ _) = Ok _, Hs : ?s = Throw _,
      Hi : at_ _ ?i = _ |- _ =>
        exact (bar_row_throw i s _ _ _ _ Hi Hs H)
    | H : snd (text_row _ _ ?i ?s _) = Ok _, Hs : ?s = Throw _,
      Hi : at_ _ ?i = _ |- _ =>
        exact (text_row_throw i s _ _ _ Hi Hs H)
    end.
Qed.

Lemma loop_fatal (m : metric) (dev : device) (t : tick) (rest : list tick)
    (e : exn) (o : outcome) :
  should_close t = false ->
  at_ enabled (metric_row m) = Ok true ->
  fetch m (files t) dev = Throw e ->
  snd (loop use_color enabled dev (t :: rest)) <> Ok o.
Proof.
  intros Hc Hi Hf Hok. cbn [loop] in Hok. rewrite Hc in Hok.
  apply pbind_ok in Hok. destruct Hok as (u & _ & Hok).
  apply pbind_ok in Hok. destruct Hok as (u' & Hd & _).
  exact (draw_rows_fatal m (files t) dev (COLS t) e u' Hi Hf Hd).
Qed.

End Propagation.


Section FirstRow.

Lemma snd_pbind {A B : Type} (m : prog A) (k : A -> prog B) :
  snd (pbind m k) =
    match snd m with
    | Ok a => snd (k a)
    | Throw e => Throw e
    | Undef => Undef
    end.
Proof.
  destruct m as [t [a | e | ]]; cbn [pbind snd]; try reflexivity.
  destruct (k a); reflexivity.
Qed.

Lemma snd_main (argv0 : string) (opts : list getopt) (has_colors : bool)
    (boot : filesystem) (ticks : list tick) :
  snd (main argv0 opts has_colors boot ticks) =
    match snd (main_prog argv0 opts has_colors boot ticks) with
    | Ok o => o
    | Throw e => Terminated e
    | Undef => Undefined
    end.
Proof.
  unfold main. destruct (main_prog _ _ _ _ _) as [t [o | e | ]]; reflexivity.
Qed.

Lemma at_defined (rows : list bool) (i : nat) :
  (i < List.length rows)%nat -> exists b, at_ rows i = Ok b.
Proof.
  intros Hi. unfold at_.
  destruct (nth_error rows i) as [b | ] eqn:Hn; [eexists; reflexivity | ].
  apply nth_error_None in Hn. lia.
Qed.

Variable use_color : bool.
Variable rows : list bool.

Lemma label_row_ok (i : nat) (text : string) (row : Z) (b : bool) :
  at_ rows i = Ok b ->
  snd (label_row rows i text row) = Ok (if b then row + 1 else row).
Proof. intros Hb. unfold label_row, lift. rewrite Hb. destruct b; reflexivity. Qed.

(** [draw_labels] completes on a registry of twelve rows. *)
Lemma draw_labels_ok :
  List.length rows = info.row_count ->
  snd (draw_labels use_color rows) = Ok tt.
Proof.
  intros Hlen. unfold draw_labels.
  rewrite snd_pbind. cbn [emit snd].
  repeat (rewrite snd_pbind;
          match goal with
          | |- context [label_row rows ?i ?text ?row] =>
              let b := fresh "b" in
              let Hb := fresh "Hb" in
              destruct (at_defined rows i) as [b Hb];
              [rewrite Hlen; vm_compute; lia | ];
              rewrite (label_row_ok i text row b Hb)
          end).
  reflexivity.
Qed.

Lemma bar_row_off (i : nat) (sample : result (string * double))
    (bar_width row : Z) :
  at_ rows i = Ok false ->
  snd (bar_row use_color rows i sample bar_width row) = Ok row.
Proof. intros Hb. unfold bar_row, lift. rewrite Hb. reflexivity. Qed.

Lemma text_row_off (i : nat) (sample : result string) (row : Z) :
  at_ rows i = Ok false ->
  snd (text_row use_color rows i sample row) = Ok row.
Proof. intros Hb. unfold text_row, lift. rewrite Hb. reflexivity. Qed.

Lemma bar_row_thrown (i : nat) (bar_width row : Z) (e : exn) :
  at_ rows i = Ok true ->
  snd (bar_row use_color rows i (Throw e) bar_width row) = Throw e.
Proof. intros Hb. unfold bar_row, lift. rewrite Hb. reflexivity. Qed.

Lemma text_row_thrown (i : nat) (row : Z) (e : exn) :
  at_ rows i = Ok true ->
  snd (text_row use_color rows i (Throw e) row) = Throw e.
Proof. intros Hb. unfold text_row, lift. rewrite Hb. reflexivity. Qed.

(** The drawing pass ends with the exception of the first enabled row. *)
Lemma draw_rows_thrown (m : metric) (fs : filesystem) (dev : device)
    (COLS : Z) (e : exn) :
  in_int (COLS - text_len) = true ->
  in_int (COLS - text_len - hpad) = true ->
  at_ rows (metric_row m) = Ok true ->
  (forall i, (i < metric_row m)%nat -> at_ rows i = Ok false) ->
  fetch m fs dev = Throw e ->
  snd (draw_rows use_color rows fs dev COLS) = Throw e.
Proof.
  intros Hw1 Hw2 Hon Hoff Hf. unfold draw_rows, int_sub, lift.
  rewrite snd_pbind. cbn [snd]. rewrite (int_of_in _ Hw1).
  rewrite snd_pbind. cbn [snd]. rewrite (int_of_in _ Hw2).
  destruct m; cbn [fetch metric_row] in Hon, Hoff, Hf;
    apply returns_throw in Hf; rewrite Hf;
    repeat (rewrite snd_pbind;
            first [ rewrite bar_row_thrown by exact Hon
                  | rewrite text_row_thrown by exact Hon
                  | rewrite bar_row_off by (apply Hoff; vm_compute; lia)
                  | rewrite text_row_off by (apply Hoff; vm_compute; lia) ]);
    reflexivity.
Qed.

End FirstRow.

Lemma parse_options_length (argv0 : string) (opts : list getopt)
    (s0 s : settings) (tr : list call) :
  parse_options argv0 opts s0 = (tr, Ok (Configured s)) ->
  List.length (enabled_rows s0) = info.row_count ->
  List.length (enabled_rows s) = info.row_count.
Proof.
  revert s0 tr. induction opts as [ | o opts IH]; intros s0 tr;
    cbn [parse_options].
  - unfold pret. intros H. injection H as _ <-. auto.
  - destruct o as [ | | optarg | optarg | ].
    + cbn. congruence.
    + intros H Hl. exact (IH _ _ H Hl).
    + unfold lift. destruct (stoi optarg) as [n | e | ]; cbn [pbind];
        try congruence.
      destruct (parse_options argv0 opts _) as [t' r] eqn:Hp.
      intros H Hl. injection H as _ ->. exact (IH _ _ Hp Hl).
    + intros H Hl.
      destruct (disable_options_defined (enabled_rows s0) optarg Hl)
        as (rows' & Hd & Hl').
      unfold lift in H. rewrite Hd in H. cbn [pbind] in H.
      destruct (parse_options argv0 opts _) as [t' r] eqn:Hp.
      injection H as _ ->. exact (IH _ _ Hp Hl').
    + unfold pret. congruence.
Qed.

(* ================================================================== *)
(** ** The power fetch *)

(** The scenario of the specification: caps 0 and 100 W and 33 W drawn
    give the text ["33W"] and a fraction equal to the literal [0.33], in
    the warn band. *)
Lemma power_scenario :
  power fs_power_33 (sample_device fs_power_33) = Ok ("33W", Double.c0_33) /\
  bar_color Double.c0_33 = color.warn.
Proof. split; reflexivity. Qed.

(** At or above the lower cap nothing wraps: the fraction is the quotient
    of the two differences, each converted to [double]. *)
Lemma power_in_range (fs : filesystem) (dev : device) (p : Z) :
  stoull (read_file fs (m_path dev) "hwmon/hwmon1/power1_average") = Ok p ->
  m_power_min dev <= p < 2 ^ 64 ->
  0 <= m_power_min dev <= m_power_max dev -> m_power_max dev < 2 ^ 64 ->
  power fs dev =
    Ok (to_string (p / 1000000) ++ "W",
        Double.div (Double.of_Z (p - m_power_min dev))
          (Double.of_Z (m_power_max dev - m_power_min dev)))%string.
Proof.
  intros Hp Hr Hmin Hmax. unfold power. rewrite Hp. cbn [bind].
  unfold ull_sub, ull. rewrite !Z.mod_small by lia. reflexivity.
Qed.

(** C4 (the code departs from the claim). A reading below the lower cap:
    with caps of 10 W and 100 W and 5 W drawn, the unsigned subtraction
    [p - m_power_min] wraps to [2^64 - 5000000] and the fraction is that
    over [90000000], about [2.05e11]: above one, not negative, and drawn
    as a full bar in the bad band. *)
Theorem power_below_min_wraps :
  exists pc t,
    power fs_power_low (sample_device fs_power_low) = Ok ("5W", pc) /\
    pc = Double.div (Double.of_Z (2 ^ 64 - 5000000)) (Double.of_Z 90000000) /\
    Double.ltb pc Double.zero = false /\
    Double.ltb Double.one pc = true /\
    draw_bar true 5 text_len 63 pc "5W" = Ok t /\
    written t = ("[" ++ string_of_char 59 "|" ++ "5W]")%string.
Proof.
  eexists. eexists. repeat split; vm_compute; reflexivity.
Qed.

(** Whatever the reading, the fraction of [power] is not below zero: both
    differences are taken in [unsigned long long]. *)
Lemma power_never_negative (fs : filesystem) (dev : device)
    (text : string) (pc : double) :
  power fs dev = Ok (text, pc) -> Double.ltb pc Double.zero = false.
Proof.
  unfold power.
  destruct (stoull _) as [p | e | ]; cbn [bind]; try discriminate.
  intros H. injection H as _ <-.
  apply not_negative_ltb, div_not_negative; apply of_Z_not_negative;
    unfold ull_sub, ull; apply Z.mod_pos_bound; reflexivity.
Qed.

(* ================================================================== *)
(** ** Readings over a total of zero *)

(** A reading over a total of zero: +Inf when something is in use, NaN
    when nothing is. *)
Lemma div_by_zero_total (u : Z) :
  0 <= u < 2 ^ 53 ->
  Double.div (Double.of_Z u) (Double.of_Z 0)
    = if u =? 0 then Double.nan else Double.pinf.
Proof.
  intros Hu. destruct (Z.eqb_spec u 0) as [-> | Hnz]; [reflexivity | ].
  destruct (of_Z_repr u) as (a & mw & _ & _ & _ & ->); [lia | ].
  destruct (Z.ltb_spec u 0); [lia | reflexivity].
Qed.

Lemma memory_over_zero_total (fs : filesystem) (dev : device)
    (file total_str : string) (u : Z) :
  stoull (read_file fs (m_path dev) file) = Ok u ->
  0 <= u < 2 ^ 53 ->
  memory fs dev file 0 total_str
    = Ok ((to_string (u / MiB) ++ total_str)%string,
          if u =? 0 then Double.nan else Double.pinf).
Proof.
  intros Hs Hu. unfold memory. rewrite Hs. cbn [bind].
  rewrite (div_by_zero_total u Hu). reflexivity.
Qed.

(* ================================================================== *)
(** ** NaN *)

(** A NaN fraction is not clamped, and its conversion to [int] is
    undefined. *)
Lemma draw_bar_nan (use_color : bool) (row col width : Z) (str : string) :
  no_overflow col width str ->
  Double.clamp Double.nan Double.zero Double.one = Double.nan /\
  draw_bar use_color row col width Double.nan str = Undef.
Proof.
  intros (Hsz & Htr & _). split; [reflexivity | ].
  unfold draw_bar, int_add, int_sub.
  pose proof (size_nonneg str) as Hs0.
  rewrite int_of_size_small by (unfold INT_MAX in *; lia).
  rewrite int_of_in by (apply in_int_bounds; unfold INT_MAX in *; lia).
  cbn [bind]. unfold track_of in Htr.
  rewrite int_of_size_small in Htr by (unfold INT_MAX in *; lia).
  rewrite (int_of_in _ Htr). cbn [bind].
  change (Double.clamp Double.nan Double.zero Double.one) with S754_nan.
  destruct (Double.of_Z (width - (2 + size str))); reflexivity.
Qed.

(* ================================================================== *)
(** ** Where the specification and the code part *)

(** C1: with no file to read, the VRAM fraction is 0/0, a NaN; the clamp
    returns it as it is, outside [0, 1], and the bar length is undefined. *)
Lemma draw_bar_nan_counterexample :
  vram fs_absent (sample_device fs_absent) = Ok ("0/0MiB", Double.nan) /\
  Double.leb Double.zero (Double.clamp Double.nan Double.zero Double.one)
    = false /\
  Double.leb (Double.clamp Double.nan Double.zero Double.one) Double.one
    = false /\
  draw_bar true 2 text_len 63 Double.nan "0/0MiB" = Undef.
Proof. repeat split; reflexivity. Qed.




(** C7: the line ["536870912abc"] is no number, yet [stoull] converts its
    digits: the fetch returns, and the run draws the row and ends by the
    quit key. *)
Lemma numeric_prefix_counterexample :
  read_file fs_vram_suffix card0 "mem_info_vram_used" = "536870912abc"%string /\
  is_number "536870912abc" = false /\
  (exists pc, vram fs_vram_suffix (sample_device fs_vram_suffix)
              = Ok ("512/1024MiB", pc)) /\
  snd (main "gpumon" only_vram true fs_vram_suffix
         [sample_tick fs_vram_suffix 113]) = Exit EXIT_SUCCESS.
Proof.
  repeat split; try reflexivity. eexists. reflexivity.
Qed.

(* ================================================================== *)
(** ** The theorems at sample inputs *)

Ltac closed_no_overflow :=
  unfold no_overflow; repeat split;
  first [reflexivity | vm_compute; discriminate].

Lemma draw_bar_clamped_length_witness :
  exists bars t,
    Double.to_int
      (Double.mul (Double.of_Z (track_of 63 "33W"))
         (Double.clamp Double.c0_33 Double.zero Double.one)) = Ok bars /\
    0 <= bars <= track_of 63 "33W" /\
    draw_bar true 5 text_len 63 Double.c0_33 "33W" = Ok t.
Proof.
  destruct (draw_bar_clamped_length true 5 text_len 63 Double.c0_33 "33W")
    as (_ & _ & _ & bars & t & Hb & Hpos & _ & Hd & _).
  - reflexivity.
  - reflexivity.
  - closed_no_overflow.
  - exists bars, t. repeat split; try assumption; apply Hpos; vm_compute;
      discriminate.
Defined.



Lemma all_disabled_exits_witness :
  main "gpumon" no_rows true fs_absent [sample_tick fs_absent 0]
    = ([cout ("All rows disabled. Exiting." ++ nl)], Exit EXIT_SUCCESS).
Proof.
  apply (all_disabled_exits "gpumon" no_rows true fs_absent
           [sample_tick fs_absent 0] []
           {| sleep_time := 2; use_color := true;
              enabled_rows := repeat false info.row_count |}).
  - reflexivity.
  - repeat constructor.
Defined.

Lemma empty_file_is_malformed_witness :
  read_file fs_busy_empty (m_path (sample_device fs_busy_empty))
    (metric_file Busy) = ""%string /\
  read_file fs_busy_empty (m_path (sample_device fs_busy_empty))
    (metric_file Busy) <> "0"%string /\
  fetch Busy fs_busy_empty (sample_device fs_busy_empty)
    = Throw invalid_argument.
Proof.
  apply (empty_file_is_malformed fs_busy_empty (sample_device fs_busy_empty)
           Busy "").
  - reflexivity.
  - reflexivity.
Defined.

(* ================================================================== *)
(** ** The list of [--disable]: the names between the commas *)

Section Tokens.

Lemma substring_all (s : string) : String.substring 0 (String.length s) s = s.
Proof. induction s; simpl; congruence. Qed.

Lemma substr_from_0 (s : string) : substr_from s 0 = s.
Proof. unfold substr_from. rewrite Nat.sub_0_r. apply substring_all. Qed.

Lemma tokens_cons (s : string) : exists t ts, tokens s = t :: ts.
Proof.
  induction s as [ | c r (t & ts & IH)]; simpl.
  - eauto.
  - destruct (Ascii.eqb c ","); [eauto | rewrite IH; eauto].
Qed.

(** The first comma at or after [pos] cuts the rest of the list into its
    first name and the names after the comma. *)
Lemma find_tokens (s : string) (pos : nat) :
  (pos <= String.length s)%nat ->
  match find s "," pos with
  | Some idx =>
      tokens (substr_from s pos) =
        substr s pos (idx - pos) :: tokens (substr_from s (idx + 1))
  | None => tokens (substr_from s pos) = [substr_from s pos]
  end.
Proof.
  revert pos. induction s as [ | a r IH]; intros pos Hpos.
  - destruct pos; reflexivity.
  - destruct pos as [ | p].
    + rewrite substr_from_0. cbn [find tokens].
      destruct (Ascii.eqb a ",") eqn:Ha.
      * change (substr_from (String a r) (0 + 1)) with (substr_from r 0).
        rewrite substr_from_0. reflexivity.
      * specialize (IH O (Nat.le_0_l _)). rewrite substr_from_0 in IH.
        destruct (find r "," 0) as [i | ]; cbn [option_map].
        -- rewrite IH.
           change (substr_from (String a r) (S i + 1))
             with (substr_from r (i + 1)).
           rewrite Nat.sub_0_r. unfold substr. rewrite Nat.sub_0_r.
           reflexivity.
        -- rewrite IH. reflexivity.
    + cbn [find]. cbn in Hpos.
      specialize (IH p (proj2 (Nat.succ_le_mono _ _) Hpos)).
      assert (Hs : substr_from (String a r) (S p) = substr_from r p)
        by reflexivity.
      rewrite Hs.
      destruct (find r "," p) as [i | ]; cbn [option_map].
      * rewrite IH. reflexivity.
      * exact IH.
Qed.

Lemma bind_ok_r {A : Type} (r : result A) : (let* a := r in Ok a) = r.
Proof. destruct r; reflexivity. Qed.

Lemma disable_options_loop_tokens (options : string) (fuel : nat) :
  forall (rows : list bool) (pos : nat),
    (pos <= String.length options)%nat ->
    (String.length options - pos <= fuel)%nat ->
    disable_options_loop fuel rows options pos =
      Some (disable_each rows (tokens (substr_from options pos))).
Proof.
  induction fuel as [ | fuel IH]; intros rows pos Hpos Hfuel;
    pose proof (find_tokens options pos Hpos) as Ht;
    pose proof (find_bounds options "," pos) as Hb;
    cbn [disable_options_loop];
    destruct (find options "," pos) as [idx | ].
  - specialize (Hb idx eq_refl). lia.
  - rewrite Ht. cbn [disable_each]. rewrite bind_ok_r. reflexivity.
  - specialize (Hb idx eq_refl). rewrite Ht. cbn [disable_each].
    destruct (disable_option rows _) as [rows' | e | ]; cbn [bind];
      try reflexivity.
    apply IH; lia.
  - rewrite Ht. cbn [disable_each]. rewrite bind_ok_r. reflexivity.
Qed.

Lemma disable_options_each (rows : list bool) (options : string) :
  disable_options rows options = disable_each rows (tokens options).
Proof.
  unfold disable_options.
  rewrite disable_options_loop_tokens by lia.
  rewrite substr_from_0. reflexivity.
Qed.

End Tokens.

Section RegistrySpec.

Lemma tokens_app (a b : string) :
  tokens (a ++ "," ++ b) = (tokens a ++ tokens b)%list.
Proof.
  induction a as [ | c r IH]; cbn [append tokens].
  - reflexivity.
  - cbn [append] in IH. rewrite IH.
    destruct (Ascii.eqb c ","); [reflexivity | ].
    destruct (tokens_cons r) as (t & ts & ->). reflexivity.
Qed.

Lemma concat_cons (sep x y : string) (l : list string) :
  String.concat sep (x :: y :: l) = x ++ sep ++ String.concat sep (y :: l).
Proof. reflexivity. Qed.

Lemma concat_tokens (s : string) : String.concat "," (tokens s) = s.
Proof.
  induction s as [ | c r IH]; [reflexivity | ].
  cbn [tokens]. destruct (tokens_cons r) as (t & ts & Ht). rewrite Ht in *.
  destruct (Ascii.eqb_spec c ",") as [-> | Hc].
  - rewrite concat_cons, IH. reflexivity.
  - destruct ts as [ | t' ts].
    + cbn in IH. subst t. reflexivity.
    + rewrite concat_cons in IH. rewrite concat_cons, <- IH. reflexivity.
Qed.

Lemma tokens_no_comma (s : string) :
  Forall (fun t => find t "," 0 = None) (tokens s).
Proof.
  induction s as [ | c r IH]; cbn [tokens].
  - repeat constructor.
  - destruct (Ascii.eqb c ",") eqn:Hc.
    + constructor; [reflexivity | exact IH].
    + destruct (tokens_cons r) as (t & ts & Ht). rewrite Ht in *.
      inversion IH as [ | ? ? H1 H2]; subst. constructor; [ | exact H2].
      cbn [find]. rewrite Hc, H1. reflexivity.
Qed.

Lemma disable_each_app (rows : list bool) (a b : list string) :
  disable_each rows (a ++ b) =
    let* rows' := disable_each rows a in disable_each rows' b.
Proof.
  revert rows. induction a as [ | n a IH]; intros rows; cbn [app disable_each bind].
  - reflexivity.
  - destruct (disable_option rows n); cbn [bind]; auto.
Qed.

Lemma assign_nth (v : list bool) (i : nat) (b : bool) (v' : list bool) :
  assign v i b = Ok v' ->
  forall j, nth_error v' j =
            if Nat.eqb j i then Some b else nth_error v j.
Proof.
  revert i v'. induction v as [ | x r IH]; intros i v' H j.
  - destruct i; discriminate.
  - destruct i as [ | k]; cbn [assign] in H.
    + injection H as <-. destruct j; reflexivity.
    + destruct (assign r k b) as [r' | | ] eqn:Hr; cbn [bind] in H;
        try discriminate.
      injection H as <-. destruct j as [ | j]; [reflexivity | ].
      cbn [nth_error Nat.eqb]. apply (IH k r' Hr).
Qed.

Lemma disable_option_nth (rows : list bool) (name : string) (rows' : list bool) :
  disable_option rows name = Ok rows' ->
  List.length rows' = List.length rows /\
  forall i, nth_error rows' i =
            option_map (fun b => b && negb (names_row i [name]))
              (nth_error rows i).
Proof.
  unfold disable_option, names_row. cbn [existsb].
  destruct (info.find name) as [k | ]; intros H.
  - split; [apply (assign_length _ _ _ _ H) | ].
    intros i. rewrite (assign_nth _ _ _ _ H i), Nat.eqb_sym, orb_false_r.
    destruct (Nat.eqb_spec k i) as [-> | Hne].
    + destruct (nth_error rows i) as [b | ] eqn:Hi; cbn [option_map negb].
      * rewrite andb_false_r. reflexivity.
      * apply nth_error_None in Hi.
        pose proof (assign_length _ _ _ _ H) as Hl.
        assert (Hn : nth_error rows' i = None)
          by (apply nth_error_None; lia).
        rewrite (assign_nth _ _ _ _ H i), Nat.eqb_refl in Hn. discriminate.
    + destruct (nth_error rows i); cbn [option_map negb];
        rewrite ?andb_true_r; reflexivity.
  - injection H as <-. split; [reflexivity | ]. intros i.
    destruct (nth_error rows i); cbn [option_map negb orb];
      rewrite ?andb_true_r; reflexivity.
Qed.

Lemma disable_each_nth (names : list string) :
  forall rows rows',
    disable_each rows names = Ok rows' ->
    List.length rows' = List.length rows /\
    forall i, nth_error rows' i =
              option_map (fun b => b && negb (names_row i names))
                (nth_error rows i).
Proof.
  induction names as [ | n names IH]; intros rows rows' H; cbn [disable_each] in H.
  - injection H as <-. split; [reflexivity | ]. intros i.
    destruct (nth_error rows i); cbn; rewrite ?andb_true_r; reflexivity.
  - destruct (disable_option rows n) as [r1 | | ] eqn:H1; cbn [bind] in H;
      try discriminate.
    destruct (disable_option_nth _ _ _ H1) as (L1 & N1).
    destruct (IH _ _ H) as (L2 & N2).
    split; [congruence | ]. intros i. rewrite N2, N1.
    unfold names_row. cbn [existsb].
    destruct (nth_error rows i); cbn [option_map]; [ | reflexivity].
    rewrite orb_false_r, negb_orb, andb_assoc. reflexivity.
Qed.

Lemma disable_each_defined (names : list string) (rows : list bool) :
  List.length rows = info.row_count ->
  exists rows', disable_each rows names = Ok rows'.
Proof.
  revert rows. induction names as [ | n names IH]; intros rows Hl;
    cbn [disable_each].
  - eauto.
  - destruct (disable_option_defined rows n Hl) as (r1 & -> & L1).
    cbn [bind]. apply IH, L1.
Qed.

Lemma nth_error_ext_bool (a b : list bool) :
  (forall i, nth_error a i = nth_error b i) -> a = b.
Proof.
  revert b. induction a as [ | x a IH]; intros [ | y b] H.
  - reflexivity.
  - specialize (H O). discriminate.
  - specialize (H O). discriminate.
  - f_equal.
    + specialize (H O). cbn in H. congruence.
    + apply IH. intros i. apply (H (S i)).
Qed.

Lemma info_find_key (name : string) (i : nat) :
  info.find name = Some i -> In (name, i) info.info_map.
Proof.
  unfold info.find.
  destruct (List.find _ info.info_map) as [[k v] | ] eqn:Hf; [ | discriminate].
  intros H. injection H as <-.
  apply find_some in Hf. destruct Hf as (Hin & Heq).
  cbn [fst] in Heq. apply String.eqb_eq in Heq. subst k. exact Hin.
Qed.

(** X1. [disable_options] is [disable_option] on each name between the
    commas, from left to right, the empty names included: joining the
    names with commas gives the list back, and no name holds a comma. *)
Theorem disable_options_splits (rows : list bool) (options : string) :
  disable_options rows options = disable_each rows (tokens options) /\
  String.concat "," (tokens options) = options /\
  Forall (fun t => find t "," 0 = None) (tokens options).
Proof.
  split; [ | split].
  - unfold disable_options.
    rewrite disable_options_loop_tokens by lia.
    rewrite substr_from_0. reflexivity.
  - apply concat_tokens.
  - apply tokens_no_comma.
Qed.

(** X2. On a registry of twelve flags [disable_options] returns twelve
    flags, and row [i] is enabled afterwards exactly when it was enabled
    before and none of the names is its key: the call never enables a
    row. *)
Theorem disable_options_rows (rows : list bool) (options : string) :
  List.length rows = info.row_count ->
  exists rows',
    disable_options rows options = Ok rows' /\
    List.length rows' = info.row_count /\
    (forall i, nth_error rows' i =
               option_map (fun b => b && negb (names_row i (tokens options)))
                 (nth_error rows i)) /\
    (forall i, nth_error rows' i = Some true -> nth_error rows i = Some true).
Proof.
  intros Hl. rewrite disable_options_each.
  destruct (disable_each_defined (tokens options) rows Hl) as (rows' & H).
  destruct (disable_each_nth _ _ _ H) as (L & N).
  exists rows'. repeat split; auto; try congruence.
  intros i Hi. rewrite N in Hi.
  destruct (nth_error rows i) as [[ | ] | ]; cbn in Hi; congruence.
Qed.

(** X3. Two [--disable] options in a row do what one option with the two
    lists joined by a comma does; and on twelve flags the order of the
    two lists does not matter, nor does giving a list twice. *)
Theorem disable_accumulates (argv0 : string) (a b : string)
    (rest : list getopt) (s : settings) :
  parse_options argv0 (opt_d a :: opt_d b :: rest) s =
    parse_options argv0 (opt_d (a ++ "," ++ b) :: rest) s /\
  (List.length (enabled_rows s) = info.row_count ->
   disable_options (enabled_rows s) (a ++ "," ++ b) =
     disable_options (enabled_rows s) (b ++ "," ++ a) /\
   disable_options (enabled_rows s) (a ++ "," ++ a) =
     disable_options (enabled_rows s) a).
Proof.
  split.
  - cbn [parse_options].
    rewrite (disable_options_each (enabled_rows s) (a ++ "," ++ b)).
    rewrite tokens_app, disable_each_app, <- disable_options_each.
    unfold lift.
    destruct (disable_options (enabled_rows s) a) as [r1 | e | ];
      cbn [pbind bind]; try reflexivity.
    cbn [enabled_rows sleep_time use_color].
    rewrite <- disable_options_each. cbn [pbind].
    destruct (disable_options r1 b) as [r2 | e | ]; cbn [pbind];
      try reflexivity.
    destruct (parse_options argv0 rest _) as (t, r). reflexivity.
  - intros Hl.
    assert (Hspec : forall o,
      exists rows', disable_options (enabled_rows s) o = Ok rows' /\
        forall i, nth_error rows' i =
          option_map (fun x => x && negb (names_row i (tokens o)))
            (nth_error (enabled_rows s) i)).
    { intros o. rewrite disable_options_each.
      destruct (disable_each_defined (tokens o) _ Hl) as (rows' & H).
      exists rows'. split; [exact H | apply (disable_each_nth _ _ _ H)]. }
    destruct (Hspec (a ++ "," ++ b)) as (r1 & -> & N1).
    destruct (Hspec (b ++ "," ++ a)) as (r2 & -> & N2).
    destruct (Hspec (a ++ "," ++ a)) as (r3 & -> & N3).
    destruct (Hspec a) as (r4 & -> & N4).
    split; f_equal; apply nth_error_ext_bool; intros i.
    + rewrite N1, N2, !tokens_app. unfold names_row.
      rewrite !existsb_app, orb_comm. reflexivity.
    + rewrite N3, N4, !tokens_app. unfold names_row.
      rewrite !existsb_app, orb_diag. reflexivity.
Qed.

(** X4. The registry names every row once: each of the twelve rows has
    one key in [info_map] and no other string finds it, so
    [disable_option] with that key switches that row off and no other. *)
Theorem every_row_has_one_name (i : nat) :
  (i < info.row_count)%nat ->
  exists name,
    info.find name = Some i /\
    (forall other, info.find other = Some i -> other = name) /\
    forall rows, List.length rows = info.row_count ->
      exists rows',
        disable_option rows name = Ok rows' /\
        nth_error rows' i = Some false /\
        forall j, j <> i -> nth_error rows' j = nth_error rows j.
Proof.
  intros Hi.
  assert (Hname : exists name, info.find name = Some i /\
            forall other, info.find other = Some i -> other = name).
  { exists (fst (nth i info.info_map (EmptyString, O))).
    unfold info.row_count in Hi.
    do 12 (destruct i as [ | i];
           [split; [reflexivity | ];
            intros other Ho; apply info_find_key in Ho;
            cbn in Ho; repeat destruct Ho as [Ho | Ho];
            try discriminate; try contradiction;
            injection Ho as <-; reflexivity
           | ]).
    lia. }
  destruct Hname as (name & Hf & Hu). exists name. repeat split; auto.
  intros rows Hl.
  destruct (disable_option_defined rows name Hl) as (rows' & H & L).
  exists rows'. split; [exact H | ].
  unfold disable_option in H. rewrite Hf in H.
  split.
  - rewrite (assign_nth _ _ _ _ H i), Nat.eqb_refl. reflexivity.
  - intros j Hj. rewrite (assign_nth _ _ _ _ H j).
    destruct (Nat.eqb_spec j i); [contradiction | reflexivity].
Qed.

End RegistrySpec.

(* ================================================================== *)
(** ** A run of [main]: the terminal from [initscr] to [endwin] *)

Section Traces.

Variable p : call -> bool.

Lemma fst_pbind {A B : Type} (m : prog A) (k : A -> prog B) :
  fst (pbind m k) =
    match snd m with
    | Ok a => (fst m ++ fst (k a))%list
    | _ => fst m
    end.
Proof.
  destruct m as (t, [a | e | ]); cbn [pbind fst snd]; try reflexivity.
  destruct (k a); reflexivity.
Qed.

Lemma forallb_pbind {A B : Type} (m : prog A) (k : A -> prog B) :
  forallb p (fst m) = true ->
  (forall a, forallb p (fst (k a)) = true) ->
  forallb p (fst (pbind m k)) = true.
Proof.
  intros Hm Hk. rewrite fst_pbind.
  destruct (snd m); [ | assumption | assumption].
  rewrite forallb_app, Hm, Hk. reflexivity.
Qed.

Lemma forallb_lift {A : Type} (r : result A) : forallb p (fst (lift r)) = true.
Proof. reflexivity. Qed.

Lemma forallb_pret {A : Type} (a : A) : forallb p (fst (pret a)) = true.
Proof. reflexivity. Qed.

End Traces.

Section Painting.

Variable use_color : bool.

Lemma print_string_paints (c : color.type) (s : string) (a : attr) :
  a = A_NONE \/ a = A_BOLD ->
  forallb (paints use_color) (print_string use_color c s a) = true.
Proof.
  intros [-> | ->]; unfold print_string, set_color, remove_color;
    destruct use_color; reflexivity.
Qed.

Lemma draw_bar_paints (row col width : Z) (pc : double) (str : string)
    (t : list call) :
  draw_bar use_color row col width pc str = Ok t ->
  forallb (paints use_color) t = true.
Proof.
  unfold draw_bar, draw_bar_body.
  destruct (int_add 2 _) as [reserved | | ]; cbn [bind]; try discriminate.
  destruct (int_sub width reserved) as [w | | ]; cbn [bind]; try discriminate.
  destruct (Double.to_int _) as [bars | | ]; cbn [bind]; try discriminate.
  destruct (bars <? 0); [intros H; injection H as <-; reflexivity | ].
  destruct (int_add col w) as [c | | ]; cbn [bind]; try discriminate.
  destruct (int_add c 1) as [c' | | ]; cbn [bind]; try discriminate.
  intros H; injection H as <-.
  unfold set_color, remove_color. destruct use_color; reflexivity.
Qed.

Variable rows : list bool.

Lemma label_row_paints (i : nat) (text : string) (row : Z) :
  forallb (paints use_color) (fst (label_row rows i text row)) = true.
Proof.
  unfold label_row. apply forallb_pbind; [reflexivity | ].
  intros [ | ]; reflexivity.
Qed.

Lemma draw_labels_paints :
  forallb (paints use_color) (fst (draw_labels use_color rows)) = true.
Proof.
  unfold draw_labels.
  repeat first [apply label_row_paints | apply forallb_pbind; [ | intros ?]];
    unfold emit, set_color, remove_color; destruct use_color; reflexivity.
Qed.

Lemma handle_winch_paints (r c : Z) :
  forallb (paints use_color) (fst (handle_winch use_color rows r c)) = true.
Proof.
  unfold handle_winch. apply forallb_pbind; [reflexivity | intros _].
  apply draw_labels_paints.
Qed.

Lemma bar_row_paints (i : nat) (sample : result (string * double))
    (bar_width row : Z) :
  forallb (paints use_color)
    (fst (bar_row use_color rows i sample bar_width row)) = true.
Proof.
  unfold bar_row. apply forallb_pbind; [reflexivity | ].
  intros [ | ]; [ | reflexivity].
  apply forallb_pbind; [reflexivity | intros (text, pc)].
  destruct (draw_bar use_color (row + 1) text_len bar_width pc text)
    as [t | e | ] eqn:Hd; try reflexivity.
  unfold lift, emit, pret. cbn [pbind fst app]. rewrite app_nil_r.
  apply (draw_bar_paints _ _ _ _ _ _ Hd).
Qed.

Lemma text_row_paints (i : nat) (sample : result string) (row : Z) :
  forallb (paints use_color)
    (fst (text_row use_color rows i sample row)) = true.
Proof.
  unfold text_row. apply forallb_pbind; [reflexivity | ].
  intros [ | ]; [ | reflexivity].
  apply forallb_pbind; [reflexivity | intros _].
  apply forallb_pbind; [reflexivity | intros text].
  apply forallb_pbind; [ | reflexivity].
  apply print_string_paints; auto.
Qed.

Lemma draw_rows_paints (fs : filesystem) (dev : device) (COLS : Z) :
  forallb (paints use_color)
    (fst (draw_rows use_color rows fs dev COLS)) = true.
Proof.
  unfold draw_rows.
  repeat first [apply bar_row_paints | apply text_row_paints
               | apply forallb_pbind; [ | intros ?]];
    reflexivity.
Qed.

(** The loop draws, and ends by [endwin] exactly when it returns. *)
Lemma loop_shape (dev : device) (ticks : list tick) :
  exists t,
    forallb (paints use_color) t = true /\
    ((fst (loop use_color rows dev ticks) = (t ++ [endwin])%list /\
      snd (loop use_color rows dev ticks) = Ok (Exit EXIT_SUCCESS)) \/
     (fst (loop use_color rows dev ticks) = t /\
      forall st, snd (loop use_color rows dev ticks) <> Ok (Exit st))).
Proof.
  induction ticks as [ | t rest IH]; cbn [loop].
  - exists []. split; [reflexivity | right]. split; [reflexivity | ].
    intros st H; discriminate.
  - destruct (should_close t).
    { exists []. split; [reflexivity | left]. split; reflexivity. }
    set (w := if should_resize t
              then handle_winch use_color rows (ws_row t) (ws_col t)
              else pret tt).
    assert (Hw : forallb (paints use_color) (fst w) = true).
    { subst w. destruct (should_resize t);
        [apply handle_winch_paints | reflexivity]. }
    pose proof (draw_rows_paints (files t) dev (COLS t)) as Hd.
    destruct w as (tw, [[] | e | ]); cbn [fst] in Hw; cbn [pbind];
      [ | exists tw; split; [exact Hw | right; split; [reflexivity | ];
                             intros st H; discriminate] .. ].
    destruct (draw_rows use_color rows (files t) dev (COLS t))
      as (td, [[] | e | ]); cbn [fst] in Hd; cbn [pbind emit];
      [ | exists (tw ++ td)%list; split;
          [rewrite forallb_app, Hw, Hd; reflexivity
          | right; split; [reflexivity | intros st H; discriminate]] .. ].
    destruct (is_quit (key t)).
    + exists (tw ++ td ++ [refresh; getch])%list. split.
      * rewrite !forallb_app, Hw, Hd. reflexivity.
      * left. cbn [pbind pret fst snd]. split; [ | reflexivity].
        rewrite <- ?app_assoc; reflexivity.
    + destruct IH as (tl & Hl & IH).
      destruct (loop use_color rows dev rest) as (t', r').
      cbn [fst snd] in IH |- *.
      destruct IH as [(-> & ->) | (-> & Hne)].
      * exists (tw ++ td ++ [refresh; getch] ++ tl)%list. split.
        -- rewrite !forallb_app, Hw, Hd, Hl. reflexivity.
        -- left. split; [ | reflexivity].
           rewrite <- ?app_assoc; reflexivity.
      * exists (tw ++ td ++ [refresh; getch] ++ tl)%list. split.
        -- rewrite !forallb_app, Hw, Hd, Hl. reflexivity.
        -- right. split; [ | exact Hne].
           rewrite <- ?app_assoc; reflexivity.
Qed.

End Painting.

Section MainRun.

Lemma parse_options_cases (argv0 : string) (opts : list getopt) :
  forall s0 : settings,
    (exists s, parse_options argv0 opts s0 = ([], Ok (Configured s))) \/
    (parse_options argv0 opts s0 = (print_help argv0, Ok (Return EXIT_SUCCESS))
     /\ In opt_h opts) \/
    (parse_options argv0 opts s0 = ([], Ok (Return EXIT_FAILURE))
     /\ In opt_other opts) \/
    (exists e, parse_options argv0 opts s0 = ([], Throw e)) \/
    parse_options argv0 opts s0 = ([], Undef).
Proof.
  induction opts as [ | o rest IH]; intros s0; cbn [parse_options].
  - left. eexists. reflexivity.
  - destruct o as [ | | a | a | ].
    + right. left. split; [reflexivity | left; reflexivity].
    + destruct (IH {| sleep_time := sleep_time s0; use_color := false;
                      enabled_rows := enabled_rows s0 |})
        as [H | [(H & I) | [(H & I) | [H | H]]]]; cbn [In]; tauto.
    + destruct (stoi a) as [n | e | ]; unfold lift; cbn [pbind].
      * match goal with |- context [parse_options argv0 rest ?s] =>
          destruct (IH s) as [(s' & H) | [(H & I) | [(H & I) | [(e & H) | H]]]]
        end; rewrite H; cbn [In app]; eauto 8.
      * right; right; right; left. eexists; reflexivity.
      * right; right; right; right. reflexivity.
    + destruct (disable_options (enabled_rows s0) a) as [n | e | ];
        unfold lift; cbn [pbind].
      * match goal with |- context [parse_options argv0 rest ?s] =>
          destruct (IH s) as [(s' & H) | [(H & I) | [(H & I) | [(e & H) | H]]]]
        end; rewrite H; cbn [In app]; eauto 8.
      * right; right; right; left. eexists; reflexivity.
      * right; right; right; right. reflexivity.
    + right. right. left. split; [reflexivity | left; reflexivity].
Qed.

Lemma parse_options_no_color (argv0 : string) (opts : list getopt) :
  forall (s0 s : settings) (tr : list call),
    parse_options argv0 opts s0 = (tr, Ok (Configured s)) ->
    In opt_n opts \/ use_color s0 = false ->
    use_color s = false.
Proof.
  induction opts as [ | o rest IH]; intros s0 s tr H Hn; cbn [parse_options] in H.
  - injection H as _ <-. destruct Hn as [[] | Hn]; exact Hn.
  - destruct o as [ | | a | a | ]; try discriminate.
    + apply (IH _ _ _ H). right. reflexivity.
    + destruct (stoi a) as [n | e | ]; unfold lift in H; cbn [pbind] in H;
        try discriminate.
      destruct (parse_options argv0 rest _) as (t', r') eqn:Hp.
      injection H as _ ->. apply (IH _ _ _ Hp).
      destruct Hn as [[Hn | Hn] | Hn]; [discriminate | auto | auto].
    + destruct (disable_options _ a) as [n | e | ]; unfold lift in H;
        cbn [pbind] in H; try discriminate.
      destruct (parse_options argv0 rest _) as (t', r') eqn:Hp.
      injection H as _ ->. apply (IH _ _ _ Hp).
      destruct Hn as [[Hn | Hn] | Hn]; [discriminate | auto | auto].
Qed.

(** How a run of [main] goes: it stops before the terminal is touched, or
    it enters curses mode, makes screen calls only, and calls [endwin]
    last exactly when it returns. *)
Lemma main_run (argv0 : string) (opts : list getopt) (has_colors : bool)
    (boot : filesystem) (ticks : list tick) :
  let r := main argv0 opts has_colors boot ticks in
  (fst r = [] /\
   ((snd r = Exit EXIT_FAILURE /\ In opt_other opts) \/
    (exists e, snd r = Terminated e) \/ snd r = Undefined)) \/
  (fst r = print_help argv0 /\ snd r = Exit EXIT_SUCCESS) \/
  (fst r = [cout ("All rows disabled. Exiting." ++ nl)] /\
   snd r = Exit EXIT_SUCCESS) \/
  (exists s body,
     parse_options argv0 opts initial_settings = ([], Ok (Configured s)) /\
     forallb (paints (use_color s && has_colors)) body = true /\
     ((fst r = (startup ++ body ++ [endwin])%list /\
       snd r = Exit EXIT_SUCCESS) \/
      (fst r = (startup ++ body)%list /\
       forall st, snd r <> Exit st))).
Proof.
  unfold main, main_prog.
  destruct (parse_options_cases argv0 opts initial_settings)
    as [(s & H) | [(H & I) | [(H & I) | [(e & H) | H]]]]; rewrite H;
    cbn [pbind pret fst snd app].
  2: { right. left. rewrite app_nil_r. split; reflexivity. }
  2: { left. split; [reflexivity | left; split; [reflexivity | exact I]]. }
  2: { left. split; [reflexivity | right; left; eexists; reflexivity]. }
  2: { left. split; [reflexivity | right; right; reflexivity]. }
  destruct (all_disabled (enabled_rows s)).
  { right. right. left. split; reflexivity. }
  right. right. right. exists s.
  cbn [emit pbind app].
  set (uc := use_color s && has_colors).
  destruct (int_of (sleep_time s * 1000)) as [ms | e | ]; unfold lift;
    cbn [pbind app];
    [ | exists []; split; [reflexivity | ]; split; [reflexivity | ];
        right; split; [reflexivity | intros st Hst; discriminate] .. ].
  pose proof (draw_labels_paints uc (enabled_rows s)) as Hl.
  assert (Hc : forallb (paints uc) (if uc then init_colors else []) = true)
    by (destruct uc; reflexivity).
  set (ic := if uc then init_colors else []) in *.
  destruct (draw_labels uc (enabled_rows s)) as (tl, [[] | e | ]);
    cbn [fst] in Hl; cbn [pbind app];
    [ | exists ([timeout ms; noecho; curs_set 0; keypad true; clear]
                  ++ ic ++ tl)%list;
        split; [reflexivity | ]; split;
        [rewrite !forallb_app, Hc, Hl; reflexivity | ];
        right; split; [reflexivity | intros st Hst; discriminate] .. ].
  destruct (device_new boot card0) as [dev | e | ]; cbn [pbind app];
    [ | exists ([timeout ms; noecho; curs_set 0; keypad true; clear]
                  ++ ic ++ tl)%list;
        split; [reflexivity | ]; split;
        [rewrite !forallb_app, Hc, Hl; reflexivity | ];
        right; split; [rewrite ?app_nil_r; reflexivity
                      | intros st Hst; discriminate] .. ].
  destruct (loop_shape uc (enabled_rows s) dev ticks) as (t & Ht & Hloop).
  destruct (loop uc (enabled_rows s) dev ticks) as (t', r').
  cbn [fst snd] in Hloop |- *.
  exists ([timeout ms; noecho; curs_set 0; keypad true; clear]
            ++ ic ++ tl ++ t)%list.
  split; [reflexivity | ]. split.
  { rewrite !forallb_app, Hc, Hl, Ht. reflexivity. }
  destruct Hloop as [(-> & ->) | (-> & Hne)].
  - left. split; [ | reflexivity]. cbn [app]. rewrite <- ?app_assoc.
    reflexivity.
  - right. destruct r' as [o | e | ]; cbn [fst snd];
      (split; [reflexivity | ]); try (intros st Hst; discriminate).
    intros st Hst. apply (Hne st). congruence.
Qed.

End MainRun.

Section Lifecycle.

Lemma paints_not_endwin (uc : bool) (t : list call) :
  forallb (paints uc) t = true ->
  existsb is_endwin t = false /\ existsb is_initscr t = false.
Proof.
  induction t as [ | c t IH]; cbn [forallb existsb]; [auto | ].
  intros H. apply andb_prop in H. destruct H as (Hc & Ht).
  destruct (IH Ht) as (-> & ->). destruct c; try discriminate; auto.
Qed.

Lemma paints_not_color (t : list call) :
  forallb (paints false) t = true -> existsb is_color_call t = false.
Proof.
  induction t as [ | c t IH]; cbn [forallb existsb]; [auto | ].
  intros H. apply andb_prop in H. destruct H as (Hc & Ht).
  rewrite (IH Ht). destruct c as [ | | [] | [] | | | | | | | | | | | | | | | | | | | ];
    try discriminate; reflexivity.
Qed.

Lemma stoull_not_undef (s : string) : stoull s <> Undef.
Proof.
  unfold stoull. destruct (read_sign _) as (neg, r).
  destruct (read_digits r 0) as ((n, v), rest).
  destruct n; [discriminate | ]. destruct (v <=? ULLONG_MAX); discriminate.
Qed.

Lemma stoi_not_undef (s : string) : stoi s <> Undef.
Proof.
  unfold stoi. destruct (read_sign _) as (neg, r).
  destruct (read_digits r 0) as ((n, v), rest).
  destruct n; [discriminate | ]. cbv zeta.
  destruct (in_int (if neg then - v else v)); discriminate.
Qed.

Lemma device_new_malformed (fs : filesystem) (path file : string) :
  In file calibration_files ->
  no_integer (read_file fs path file) = true ->
  exists e, device_new fs path = Throw e.
Proof.
  intros Hin Hno. apply stoull_no_integer in Hno. unfold device_new.
  repeat lazymatch goal with
  | |- context [bind (stoull ?x) _] =>
      let E := fresh "E" in
      destruct (stoull x) eqn:E; cbn [bind];
        [ | eexists; reflexivity | exfalso; exact (stoull_not_undef _ E)]
  end.
  cbn in Hin.
  repeat destruct Hin as [<- | Hin]; try contradiction; congruence.
Qed.

(** X5. [main] returns 1 only when [getopt_long] reports an error (an
    option it does not know, or one without its argument), and then
    [main] has written nothing to standard output and made no curses
    call; in every other case in which it returns it returns 0: after the
    usage text, after the notice that every row is disabled, or after
    [endwin]. *)
Theorem exit_status (argv0 : string) (opts : list getopt)
    (has_colors : bool) (boot : filesystem) (ticks : list tick) (st : Z) :
  let r := main argv0 opts has_colors boot ticks in
  snd r = Exit st ->
  (st = EXIT_FAILURE /\ fst r = [] /\ In opt_other opts) \/
  (st = EXIT_SUCCESS /\
   (fst r = print_help argv0 \/
    fst r = [cout ("All rows disabled. Exiting." ++ nl)] \/
    exists body, fst r = (startup ++ body ++ [endwin])%list)).
Proof.
  intros r Hst.
  destruct (main_run argv0 opts has_colors boot ticks)
    as [(Ht & [(Ho & I) | [(e & Ho) | Ho]])
       | [(Ht & Ho) | [(Ht & Ho) | (s & body & _ & _ & [(Ht & Ho) | (Ht & Ho)])]]];
    fold r in Ht, Ho; try congruence.
  - left. repeat split; auto; congruence.
  - right. split; [congruence | auto].
  - right. split; [congruence | auto].
  - right. split; [congruence | ]. right. right. exists body. exact Ht.
Qed.

(** X6. [endwin] is called exactly when [initscr] was called and [main]
    returns, and then it is the last call and the only one: a run that an
    uncaught exception or undefined behaviour ends leaves the terminal in
    curses mode. *)
Theorem endwin_on_return_only (argv0 : string) (opts : list getopt)
    (has_colors : bool) (boot : filesystem) (ticks : list tick) :
  let r := main argv0 opts has_colors boot ticks in
  existsb is_endwin (fst r) =
    existsb is_initscr (fst r)
    && match snd r with Exit _ => true | _ => false end /\
  (existsb is_endwin (fst r) = true ->
   exists t, fst r = (t ++ [endwin])%list /\ existsb is_endwin t = false).
Proof.
  intros r.
  destruct (main_run argv0 opts has_colors boot ticks)
    as [(Ht & _)
       | [(Ht & Ho) | [(Ht & Ho) | (s & body & _ & Hb & [(Ht & Ho) | (Ht & Ho)])]]];
    fold r in Ht; try fold r in Ho; rewrite Ht; try rewrite Ho.
  - split; [reflexivity | discriminate].
  - split; [reflexivity | discriminate].
  - split; [reflexivity | discriminate].
  - destruct (paints_not_endwin _ _ Hb) as (He & Hi). split.
    + rewrite !existsb_app, He. reflexivity.
    + intros _. exists (startup ++ body)%list.
      rewrite <- app_assoc, existsb_app, He. split; reflexivity.
  - destruct (paints_not_endwin _ _ Hb) as (He & Hi).
    rewrite !existsb_app, He.
    split; [ | discriminate].
    destruct (snd r) as [st | | | ]; try reflexivity.
    exfalso. apply (Ho st). reflexivity.
Qed.

(** X7. With [--no-color] among the options, or on a terminal without
    colours, no call of the run selects a colour: no [start_color], no
    [init_pair], no colour pair switched on or off. *)
Theorem no_color_run (argv0 : string) (opts : list getopt)
    (has_colors : bool) (boot : filesystem) (ticks : list tick) :
  In opt_n opts \/ has_colors = false ->
  existsb is_color_call (fst (main argv0 opts has_colors boot ticks)) = false.
Proof.
  intros Hn.
  destruct (main_run argv0 opts has_colors boot ticks)
    as [(Ht & _)
       | [(Ht & Ho) | [(Ht & Ho) | (s & body & Hp & Hb & Hr)]]];
    try (rewrite Ht; reflexivity).
  assert (Huc : use_color s && has_colors = false).
  { destruct Hn as [Hn | ->]; [ | apply andb_false_r].
    rewrite (parse_options_no_color _ _ _ _ _ Hp (or_introl Hn)).
    reflexivity. }
  rewrite Huc in Hb. apply paints_not_color in Hb.
  destruct Hr as [(Ht & _) | (Ht & _)]; rewrite Ht, !existsb_app, Hb;
    reflexivity.
Qed.

(** X8. The update interval: [-u N] makes [getch] wait [N * 1000]
    milliseconds when the product fits an [int]; beyond 2147483 seconds
    the product overflows, undefined behaviour with the terminal already
    in curses mode; an [N] that is no number ends the process by an
    uncaught exception before anything is printed. *)
Theorem update_interval (argv0 optarg : string) (has_colors : bool)
    (boot : filesystem) (ticks : list tick) :
  let r := main argv0 [opt_u optarg] has_colors boot ticks in
  match stoi optarg with
  | Ok n =>
      if (-2147483 <=? n) && (n <=? 2147483)
      then exists body, fst r = (startup ++ timeout (n * 1000) :: body)%list
      else r = (startup, Undefined)
  | Throw e => r = ([], Terminated e)
  | Undef => False
  end.
Proof.
  intros r. subst r. unfold main, main_prog. cbn [parse_options].
  pose proof (stoi_not_undef optarg) as Hu.
  destruct (stoi optarg) as [n | e | ]; unfold lift; cbn [pbind pret];
    [ | reflexivity | congruence].
  cbn [enabled_rows initial_settings all_disabled forallb repeat
       info.row_count negb andb emit pbind app sleep_time].
  unfold int_of, in_int, INT_MIN, INT_MAX.
  destruct (Z.leb_spec (- 2 ^ 31) (n * 1000));
    destruct (Z.leb_spec (n * 1000) (2 ^ 31 - 1));
    destruct (Z.leb_spec (-2147483) n);
    destruct (Z.leb_spec n 2147483); try lia; cbn [andb pbind app];
    try reflexivity.
  destruct (pbind _ _) as (t, [o | e | ]); eexists; reflexivity.
Qed.

(** X9. A calibration file whose line has no integer at its start is
    fatal at start-up, whichever rows are enabled: the constructor
    throws after the labels are drawn, nothing catches it, no iteration
    runs and [endwin] is never called. *)
Theorem malformed_calibration_is_fatal (argv0 : string)
    (opts : list getopt) (has_colors : bool) (boot : filesystem)
    (ticks : list tick) (s : settings) (file : string) :
  parse_options argv0 opts initial_settings = ([], Ok (Configured s)) ->
  all_disabled (enabled_rows s) = false ->
  in_int (sleep_time s * 1000) = true ->
  In file calibration_files ->
  no_integer (read_file boot card0 file) = true ->
  let uc := use_color s && has_colors in
  exists e,
    main argv0 opts has_colors boot ticks =
      ((startup
          ++ [timeout (sleep_time s * 1000); noecho; curs_set 0;
              keypad true; clear]
          ++ (if uc then init_colors else [])
          ++ fst (draw_labels uc (enabled_rows s)))%list,
       Terminated e).
Proof.
  intros Hp Ha Hs Hin Hno uc.
  destruct (device_new_malformed boot card0 file Hin Hno) as (e & Hd).
  exists e. unfold main, main_prog. rewrite Hp. cbn [pbind pret].
  rewrite Ha. unfold int_of. rewrite Hs. unfold lift, emit. cbn [pbind app].
  fold uc.
  pose proof (parse_options_length _ _ _ _ _ Hp eq_refl) as Hl.
  pose proof (draw_labels_ok uc _ Hl) as Hok.
  destruct (draw_labels uc (enabled_rows s)) as (tl, rl).
  cbn [snd] in Hok. subst rl. cbn [pbind fst]. rewrite Hd.
  rewrite ?app_nil_r. reflexivity.
Qed.

End Lifecycle.

Section Keys.

Variable use_color : bool.
Variable rows : list bool.
Variable dev : device.

Lemma loop_quit (pre : list tick) (tk : tick) (post : list tick) :
  quits tk = true ->
  loop use_color rows dev (pre ++ tk :: post)
    = loop use_color rows dev (pre ++ [tk]).
Proof.
  unfold quits. intros Hq.
  induction pre as [ | t pre IH]; cbn [app loop].
  - destruct (should_close tk); [reflexivity | ].
    cbn [orb] in Hq. rewrite Hq. reflexivity.
  - rewrite IH. reflexivity.
Qed.

Lemma loop_running (ticks : list tick) :
  snd (loop use_color rows dev ticks) = Ok Running ->
  forallb (fun t => negb (quits t)) ticks = true.
Proof.
  unfold quits.
  induction ticks as [ | t rest IH]; cbn [loop forallb]; [reflexivity | ].
  destruct (should_close t); [discriminate | ].
  destruct (if should_resize t
            then handle_winch use_color rows (ws_row t) (ws_col t)
            else pret tt) as (tw, [[] | e | ]); cbn [pbind snd];
    try discriminate.
  destruct (draw_rows use_color rows (files t) dev (COLS t))
    as (td, [[] | e | ]); cbn [pbind snd emit]; try discriminate.
  destruct (is_quit (key t)); [discriminate | ].
  destruct (loop use_color rows dev rest) as (tr, r).
  cbn [snd orb negb andb] in *. exact IH.
Qed.

Lemma loop_key (pre : list tick) (tk : tick) (post : list tick) (k : Z) :
  is_quit (key tk) = false -> is_quit k = false ->
  loop use_color rows dev (pre ++ with_key k tk :: post)
    = loop use_color rows dev (pre ++ tk :: post).
Proof.
  intros H1 H2.
  induction pre as [ | t pre IH]; cbn [app loop].
  - cbn [with_key should_close should_resize ws_row ws_col COLS files key].
    rewrite H1, H2. reflexivity.
  - rewrite IH. reflexivity.
Qed.

End Keys.

(** [main] sees the iterations through the loop only. *)
Lemma main_loop_ext (argv0 : string) (opts : list getopt)
    (has_colors : bool) (boot : filesystem) (t1 t2 : list tick) :
  (forall uc rows dev, loop uc rows dev t1 = loop uc rows dev t2) ->
  main argv0 opts has_colors boot t1 = main argv0 opts has_colors boot t2.
Proof.
  intros H. unfold main, main_prog.
  destruct (parse_options argv0 opts initial_settings)
    as (t0, [[s | st] | e | ]); cbn [pbind]; try reflexivity.
  destruct (all_disabled (enabled_rows s)); [reflexivity | ].
  cbn [emit pbind].
  destruct (int_of (sleep_time s * 1000)) as [ms | e | ]; unfold lift;
    cbn [pbind]; try reflexivity.
  destruct (draw_labels (use_color s && has_colors) (enabled_rows s))
    as (tl, [[] | e | ]); cbn [pbind]; try reflexivity.
  destruct (device_new boot card0) as [dev | e | ]; cbn [pbind];
    try reflexivity.
  rewrite H. reflexivity.
Qed.

Lemma main_running (argv0 : string) (opts : list getopt)
    (has_colors : bool) (boot : filesystem) (ticks : list tick) :
  snd (main argv0 opts has_colors boot ticks) = Running ->
  forallb (fun t => negb (quits t)) ticks = true.
Proof.
  unfold main, main_prog.
  destruct (parse_options argv0 opts initial_settings)
    as (t0, [[s | st] | e | ]); cbn [pbind pret snd]; try discriminate.
  destruct (all_disabled (enabled_rows s)); [discriminate | ].
  cbn [emit pbind].
  destruct (int_of (sleep_time s * 1000)) as [ms | e | ]; unfold lift;
    cbn [pbind snd]; try discriminate.
  destruct (draw_labels (use_color s && has_colors) (enabled_rows s))
    as (tl, [[] | e | ]); cbn [pbind snd]; try discriminate.
  destruct (device_new boot card0) as [dev | e | ]; cbn [pbind snd];
    try discriminate.
  pose proof (loop_running (use_color s && has_colors) (enabled_rows s)
                dev ticks) as HL.
  destruct (loop (use_color s && has_colors) (enabled_rows s) dev ticks)
    as (tr, [o | e | ]); cbn [snd] in *; try discriminate.
  intros ->. apply HL. reflexivity.
Qed.

(** X22. Leaving the loop: an iteration that finds [should_close] set, or
    reads q, Ctrl-D or Escape, is the last one, whatever would follow; a
    run that is still going has met no such iteration; and any other key
    does what any other does, the run goes on the same. *)
Theorem quit_ends_the_run (argv0 : string) (opts : list getopt)
    (has_colors : bool) (boot : filesystem)
    (pre : list tick) (tk : tick) (post : list tick) :
  let run := main argv0 opts has_colors boot in
  (quits tk = true -> run (pre ++ tk :: post)%list = run (pre ++ [tk])%list) /\
  (forall ticks,
     snd (run ticks) = Running ->
     forallb (fun t => negb (quits t)) ticks = true) /\
  (forall k,
     is_quit (key tk) = false -> is_quit k = false ->
     run (pre ++ with_key k tk :: post)%list
       = run (pre ++ tk :: post)%list).
Proof.
  intros run. subst run. split; [ | split].
  - intros Hq. apply main_loop_ext. intros uc rows dev.
    apply loop_quit, Hq.
  - intros ticks. apply main_running.
  - intros k H1 H2. apply main_loop_ext. intros uc rows dev.
    apply loop_key; assumption.
Qed.

(* ================================================================== *)
(** ** The rows on the screen *)

Section Labels.

Variable use_color : bool.

Lemma draw_labels_chain (rows : list bool) :
  draw_labels use_color rows =
    pbind (emit (set_color use_color color.label))
      (fun _ =>
         chain (map (fun it => label_row rows (fst it) (snd it))
                  (combine (seq 0 12) label_texts))
           (emit (remove_color use_color color.label)) (vpad - 1)).
Proof. reflexivity. Qed.

Lemma draw_rows_chain (rows : list bool) (fs : filesystem) (dev : device)
    (COLS : Z) :
  draw_rows use_color rows fs dev COLS =
    pbind (lift (int_sub COLS text_len)) (fun w =>
    pbind (lift (int_sub w hpad)) (fun bar_width =>
      chain
        [ bar_row use_color rows info.busy (busy fs dev) bar_width;
          bar_row use_color rows info.vram (vram fs dev) bar_width;
          bar_row use_color rows info.gtt (gtt fs dev) bar_width;
          bar_row use_color rows info.cpu_vis (vis_vram fs dev) bar_width;
          bar_row use_color rows info.power (power fs dev) bar_width;
          bar_row use_color rows info.temperature (temperature fs dev) bar_width;
          bar_row use_color rows info.fan (fan fs dev) bar_width;
          text_row use_color rows info.voltage (Ok (voltage fs dev));
          text_row use_color rows info.gfx_clock (gfx_clock fs dev);
          text_row use_color rows info.mem_clock (mem_clock fs dev);
          text_row use_color rows info.link_speed (Ok (link_speed fs dev));
          text_row use_color rows info.link_width (Ok (link_width fs dev)) ]
        (pret tt) (vpad - 1))).
Proof. reflexivity. Qed.

Lemma label_row_eq (rows : list bool) (i : nat) (text : string) (row : Z)
    (b : bool) :
  at_ rows i = Ok b ->
  label_row rows i text row =
    ((if b then [mvaddstr (row + 1) hpad text] else []),
     Ok (if b then row + 1 else row)).
Proof. unfold label_row. intros ->. destruct b; reflexivity. Qed.

Lemma label_chain (rows : list bool) (last : prog unit) :
  forall (texts : list string) (n : nat) (flags : list bool) (row : Z),
    (forall k b, nth_error flags k = Some b -> at_ rows (n + k) = Ok b) ->
    List.length flags = List.length texts ->
    chain (map (fun it => label_row rows (fst it) (snd it))
             (combine (seq n (List.length texts)) texts)) last row =
      ((stack (row + 1) (shown flags texts) ++ fst last)%list, snd last).
Proof.
  induction texts as [ | text texts IH]; intros n flags row Hat Hl.
  - destruct flags; [ | discriminate]. destruct last. reflexivity.
  - destruct flags as [ | b flags]; [discriminate | ].
    cbn [List.length seq combine map chain fst snd].
    rewrite (label_row_eq rows n text row b)
      by (rewrite <- (Nat.add_0_r n); apply Hat; reflexivity).
    cbn [pbind].
    rewrite (IH (S n) flags (if b then row + 1 else row)).
    + destruct b; reflexivity.
    + intros k b' Hk. replace (S n + k)%nat with (n + S k)%nat by lia.
      apply Hat. exact Hk.
    + cbn in Hl. congruence.
Qed.

Lemma at_nth (rows : list bool) (k : nat) (b : bool) :
  nth_error rows k = Some b -> at_ rows k = Ok b.
Proof. unfold at_. intros ->. reflexivity. Qed.

Lemma draw_labels_stack (rows : list bool) :
  List.length rows = info.row_count ->
  draw_labels use_color rows =
    ((set_color use_color color.label
        ++ stack vpad (shown rows label_texts)
        ++ remove_color use_color color.label)%list, Ok tt).
Proof.
  intros Hl. rewrite draw_labels_chain.
  change 12%nat with (List.length label_texts).
  rewrite (label_chain rows _ label_texts 0 rows (vpad - 1));
    [reflexivity | intros k b; apply at_nth | exact Hl].
Qed.

Lemma shown_length {A : Type} (flags : list bool) (xs : list A) :
  List.length flags = List.length xs ->
  List.length (shown flags xs) = enabled_count flags.
Proof.
  unfold enabled_count. revert xs.
  induction flags as [ | b flags IH]; intros [ | x xs] Hl; try discriminate.
  - reflexivity.
  - cbn [shown filter]. injection Hl as Hl.
    destruct b; cbn [List.length]; rewrite (IH xs Hl); reflexivity.
Qed.

Lemma shown_Forall {A : Type} (P : A -> Prop) (flags : list bool)
    (xs : list A) :
  Forall P xs -> Forall P (shown flags xs).
Proof.
  intros H. revert flags. induction H as [ | x xs Hx _ IH]; intros [ | b flags];
    cbn [shown]; try constructor.
  destruct b; [constructor; auto | auto].
Qed.

Lemma put_cells (y x : Z) (s : string) :
  Forall (fun p => fst (fst p) = y /\ x <= snd (fst p) < x + size s)
    (put y x s).
Proof.
  revert x. induction s as [ | c r IH]; intros x; cbn [put];
    constructor.
  - unfold size. cbn [fst snd String.length]. lia.
  - eapply Forall_impl; [ | apply (IH (x + 1))].
    intros p (H1 & H2). unfold size in *. cbn [String.length]. lia.
Qed.

Lemma cells_stack (W : Z) (tail : list call) :
  (forall y x, cells y x tail = []) ->
  forall (texts : list string) (r y x : Z),
    Forall (fun s => size s <= W) texts ->
    Forall (fun p => r <= fst (fst p) < r + Z.of_nat (List.length texts) /\
                     hpad <= snd (fst p) < hpad + W)
      (cells y x (stack r texts ++ tail)).
Proof.
  intros Htail texts. induction texts as [ | text texts IH];
    intros r y x Hw; cbn [stack app cells].
  - rewrite Htail. constructor.
  - inversion Hw as [ | ? ? H1 H2]; subst. apply Forall_app. split.
    + eapply Forall_impl; [ | apply put_cells].
      intros p (Hr & Hc). cbn [List.length]. lia.
    + eapply Forall_impl; [ | apply (IH (r + 1) r (hpad + size text) H2)].
      intros p (Hr & Hc). cbn [List.length]. lia.
Qed.

(** X10. [draw_labels] puts the labels of the enabled rows, in the order
    of the rows, on consecutive screen rows from row 1 down, with no gap
    for a disabled row; every character of a label lies between column
    [hpad] and the column before [text_len], where the values start. *)
Theorem labels_are_stacked (rows : list bool) :
  List.length rows = info.row_count ->
  draw_labels use_color rows =
    ((set_color use_color color.label
        ++ stack vpad (shown rows label_texts)
        ++ remove_color use_color color.label)%list, Ok tt) /\
  forall y x,
    Forall (fun p => vpad <= fst (fst p) < vpad + Z.of_nat (enabled_count rows) /\
                     hpad <= snd (fst p) < text_len - 1)
      (cells y x (fst (draw_labels use_color rows))).
Proof.
  intros Hl. split; [apply draw_labels_stack, Hl | ].
  intros y x. rewrite (draw_labels_stack rows Hl). cbn [fst].
  assert (Hc : forall t, cells y x (set_color use_color color.label ++ t)
                         = cells y x t)
    by (intros t; unfold set_color; destruct use_color; reflexivity).
  rewrite Hc, <- (shown_length rows label_texts Hl).
  change (text_len - 1) with (hpad + 12).
  apply cells_stack.
  - intros y' x'. unfold remove_color. destruct use_color; reflexivity.
  - apply shown_Forall. unfold label_texts, size.
    repeat constructor; cbn; lia.
Qed.


Lemma pbind_inv {A B : Type} (m : prog A) (k : A -> prog B)
    (t : list call) (b : B) :
  pbind m k = (t, Ok b) ->
  exists t1 a t2, m = (t1, Ok a) /\ k a = (t2, Ok b) /\ t = (t1 ++ t2)%list.
Proof.
  destruct m as (t1, [a | e | ]); cbn [pbind]; try discriminate.
  destruct (k a) as (t2, r) eqn:Hk. intros H. injection H as <- ->.
  exists t1, a, t2. auto.
Qed.

Lemma draw_bar_cleared (row col width : Z) (pc : double) (str : string)
    (t : list call) :
  draw_bar use_color row col width pc str = Ok t ->
  forall y tail, cleared y (t ++ tail) = row :: cleared row tail.
Proof.
  unfold draw_bar, draw_bar_body.
  destruct (int_add 2 _) as [reserved | | ]; cbn [bind]; try discriminate.
  destruct (int_sub width reserved) as [w | | ]; cbn [bind]; try discriminate.
  destruct (Double.to_int _) as [bars | | ]; cbn [bind]; try discriminate.
  destruct (bars <? 0); [intros H; injection H as <-; reflexivity | ].
  destruct (int_add col w) as [c | | ]; cbn [bind]; try discriminate.
  destruct (int_add c 1) as [c' | | ]; cbn [bind]; try discriminate.
  intros H; injection H as <-. intros y tail.
  unfold set_color, remove_color. destruct use_color; reflexivity.
Qed.

Lemma bar_row_step (rows : list bool) (i : nat) (b : bool)
    (sample : result (string * double)) (bar_width : Z) :
  at_ rows i = Ok b ->
  row_step b (bar_row use_color rows i sample bar_width).
Proof.
  intros Hat row t row' H. unfold bar_row in H. rewrite Hat in H.
  unfold lift in H. cbn [pbind app] in H. destruct b.
  - destruct sample as [(text, pc) | e | ]; cbn [pbind] in H;
      try discriminate.
    destruct (draw_bar use_color (row + 1) text_len bar_width pc text)
      as [calls | e | ] eqn:Hd; cbn [pbind emit pret app] in H;
      try discriminate.
    injection H as <- <-. split; [reflexivity | ].
    intros y tail. exists (row + 1). rewrite app_nil_r.
    apply (draw_bar_cleared _ _ _ _ _ _ Hd).
  - injection H as <- <-. split; [reflexivity | ].
    intros y tail. exists y. reflexivity.
Qed.

Lemma text_row_step (rows : list bool) (i : nat) (b : bool)
    (sample : result string) :
  at_ rows i = Ok b ->
  row_step b (text_row use_color rows i sample).
Proof.
  intros Hat row t row' H. unfold text_row in H. rewrite Hat in H.
  unfold lift in H. cbn [pbind app] in H. destruct b.
  - destruct sample as [text | e | ]; cbn [pbind emit pret app] in H;
      try discriminate.
    injection H as <- <-. split; [reflexivity | ].
    intros y tail. exists (row + 1).
    unfold print_string, set_color, remove_color.
    destruct use_color; reflexivity.
  - injection H as <- <-. split; [reflexivity | ].
    intros y tail. exists y. reflexivity.
Qed.

Lemma chain_cleared (flags : list bool) (steps : list (Z -> prog Z)) :
  Forall2 row_step flags steps ->
  forall (row : Z) (t : list call),
    chain steps (pret tt) row = (t, Ok tt) ->
    forall y, cleared y t = rows_from row flags.
Proof.
  induction 1 as [ | b f flags steps Hf _ IH]; intros row t H y;
    cbn [chain] in H.
  - injection H as <-. reflexivity.
  - apply pbind_inv in H. destruct H as (t1 & row' & t2 & H1 & H2 & ->).
    destruct (Hf row t1 row' H1) as (-> & Hc).
    destruct (Hc y t2) as (y' & ->).
    rewrite (IH _ _ H2 y'). destruct b; reflexivity.
Qed.

Lemma count_up_cons (row : Z) (n : nat) :
  count_up row (S n) = row :: count_up (row + 1) n.
Proof.
  unfold count_up. cbn [seq map]. rewrite Z.add_0_r. f_equal.
  rewrite <- seq_shift, map_map. apply map_ext. intros k. lia.
Qed.

Lemma rows_from_count (flags : list bool) :
  forall row, rows_from row flags = count_up (row + 1) (enabled_count flags).
Proof.
  unfold enabled_count.
  induction flags as [ | b flags IH]; intros row; cbn [rows_from filter].
  - reflexivity.
  - destruct b; cbn [List.length]; rewrite ?count_up_cons, IH; reflexivity.
Qed.

Lemma label_rows_stack (texts : list string) :
  forall row, label_rows (stack row texts) = count_up row (List.length texts).
Proof.
  induction texts as [ | text texts IH]; intros row.
  - reflexivity.
  - cbn [stack label_rows List.length]. rewrite count_up_cons, IH.
    reflexivity.
Qed.

Lemma label_rows_app (a b : list call) :
  label_rows (a ++ b) = (label_rows a ++ label_rows b)%list.
Proof.
  induction a as [ | c a IH]; [reflexivity | ].
  destruct c; cbn [app label_rows]; rewrite IH; reflexivity.
Qed.

(** X11. An iteration that draws all its rows clears and redraws exactly
    the rows that carry a label: one screen row for each enabled row, on
    rows 1, 2, ... without a gap, the same rows [draw_labels] wrote the
    labels on. *)
Theorem values_face_their_labels (rows : list bool) (fs : filesystem)
    (dev : device) (COLS : Z) (t : list call) :
  List.length rows = info.row_count ->
  draw_rows use_color rows fs dev COLS = (t, Ok tt) ->
  forall y,
    cleared y t = label_rows (fst (draw_labels use_color rows)) /\
    cleared y t = count_up vpad (enabled_count rows).
Proof.
  intros Hl H y.
  assert (Hrows : cleared y t = rows_from (vpad - 1) rows).
  { rewrite draw_rows_chain in H.
    apply pbind_inv in H. destruct H as (t1 & w & t2 & H1 & H & ->).
    apply pbind_inv in H. destruct H as (t3 & bw & t4 & H3 & H & ->).
    unfold lift in H1, H3.
    injection H1 as <- _. injection H3 as <- _. cbn [app].
    do 12 (destruct rows as [ | ? rows]; [discriminate | ]).
    destruct rows; [ | discriminate].
    refine (chain_cleared _ _ _ _ _ H y).
    repeat (apply Forall2_cons;
            [first [apply bar_row_step | apply text_row_step]; reflexivity | ]).
    apply Forall2_nil. }
  rewrite Hrows, rows_from_count. split; [ | reflexivity].
  rewrite (draw_labels_stack rows Hl). cbn [fst].
  rewrite !label_rows_app, label_rows_stack,
    (shown_length rows label_texts Hl).
  unfold set_color, remove_color.
  destruct use_color; cbn [label_rows app]; rewrite app_nil_r; reflexivity.
Qed.

End Labels.

Section Geometry.

Variable use_color : bool.

Lemma size_string_of_char (n : nat) (c : ascii) :
  size (string_of_char n c) = Z.of_nat n.
Proof. unfold size. rewrite length_string_of_char. reflexivity. Qed.

Lemma c_str_printable (s : string) : printable s = true -> c_str s = s.
Proof.
  unfold printable. induction s as [ | c r IH]; [reflexivity | ].
  cbn [list_ascii_of_string forallb c_str]. intros H.
  apply andb_true_iff in H. destruct H as [Hc Hr].
  rewrite (IH Hr).
  destruct (N.eqb_spec (N_of_ascii c) 0) as [E | _]; [ | reflexivity].
  unfold char_in in Hc. rewrite E in Hc. discriminate.
Qed.

Lemma cells_bar_calls (row col track bars : Z) (c : double) (str : string)
    (y x : Z) :
  cells y x (bar_calls use_color row col track bars c str) =
    ((row, col, "["%char)
       :: put row (col + 1) (string_of_char (Z.to_nat bars) "|")
       ++ put row (col + track + 1) (c_str str)
       ++ [(row, col + track + 1 + size (c_str str), "]"%char)])%list.
Proof.
  unfold bar_calls, print_string, set_color, remove_color.
  rewrite c_str_string_of_char.
  destruct use_color; reflexivity.
Qed.

Lemma put_columns (y x : Z) (s : string) (p : Z * Z) :
  In p (map fst (put y x s)) -> fst p = y /\ x <= snd p < x + size s.
Proof.
  intros H. apply in_map_iff in H. destruct H as (q & <- & Hq).
  pose proof (put_cells y x s) as Hf. rewrite Forall_forall in Hf.
  apply (Hf q Hq).
Qed.

Lemma put_NoDup (y x : Z) (s : string) : NoDup (map fst (put y x s)).
Proof.
  revert x. induction s as [ | c r IH]; intros x; cbn [put map fst].
  - constructor.
  - constructor; [ | apply IH].
    intros H. apply put_columns in H. cbn [snd] in H. lia.
Qed.


(** X12. The bar and its label stay inside the width they are given and
    never overlap: on a track that is not negative, [draw_bar] writes
    the opening bracket in column [col], the bar glyphs next to it, the
    label from column [col + track + 1] on and the closing bracket in the
    last column [col + width - 1], all on the row of the call and each in
    a cell of its own. *)
Theorem bar_fits_its_width (row col width : Z) (pc : double)
    (str : string) (y x : Z) :
  Double.valid pc -> Double.is_nan pc = false ->
  no_overflow col width str ->
  0 <= track_of width str ->
  printable str = true ->
  exists bars t,
    draw_bar use_color row col width pc str = Ok t /\
    0 <= bars <= track_of width str /\
    cells y x t =
      ((row, col, "["%char)
         :: put row (col + 1) (string_of_char (Z.to_nat bars) "|")
         ++ put row (col + track_of width str + 1) str
         ++ [(row, col + width - 1, "]"%char)])%list /\
    Forall (fun p => fst (fst p) = row /\ col <= snd (fst p) < col + width)
      (cells y x t) /\
    NoDup (map fst (cells y x t)).
Proof.
  intros Hv Hn Hno Ht Hp.
  destruct (bar_length_defined col width pc str Hv Hn Hno)
    as (_ & _ & bars & Hb & Hin & Hpos & _).
  specialize (Hpos Ht).
  pose proof (draw_bar_run use_color row col width bars pc str Hno Hb Hin)
    as Hrun.
  destruct (Z.ltb_spec bars 0) as [Hlt | _]; [lia | ].
  assert (Htr : track_of width str = width - (2 + size str))
    by (apply track_of_small, Hno).
  pose proof (size_nonneg str) as Hs.
  exists bars. eexists. split; [exact Hrun | ]. split; [exact Hpos | ].
  rewrite cells_bar_calls, (c_str_printable str Hp).
  replace (col + track_of width str + 1 + size str) with (col + width - 1)
    by lia.
  split; [reflexivity | ]. split.
  - constructor; [cbn [fst snd]; lia | ].
    rewrite !Forall_app. repeat split.
    + eapply Forall_impl; [ | apply put_cells].
      intros p (Hr & Hc). rewrite size_string_of_char in Hc. lia.
    + eapply Forall_impl; [ | apply put_cells].
      intros p (Hr & Hc). lia.
    + repeat constructor; cbn [fst snd]; lia.
  - cbn [map fst]. rewrite !map_app. cbn [map fst].
    constructor.
    + rewrite !in_app_iff. intros [H | [H | [H | []]]].
      * apply put_columns in H. cbn [snd] in H. lia.
      * apply put_columns in H. cbn [snd] in H. lia.
      * injection H as H. lia.
    + apply NoDup_app; [apply put_NoDup | | ].
      * apply NoDup_app; [apply put_NoDup | repeat constructor; auto | ].
        intros p H [H' | []]. apply put_columns in H. subst p.
        cbn [snd] in H. lia.
      * intros p H H'. apply put_columns in H.
        rewrite size_string_of_char in H.
        apply in_app_iff in H'. destruct H' as [H' | [H' | []]].
        -- apply put_columns in H'. lia.
        -- subst p. cbn [snd] in H. lia.
Qed.

End Geometry.

Section Styles.

Variable use_color : bool.

Lemma style_after_app (s : style) (a b : list call) :
  style_after s (a ++ b) = style_after (style_after s a) b.
Proof.
  revert s. induction a as [ | c a IH]; intros s; [reflexivity | ].
  destruct c; cbn [app style_after]; apply IH.
Qed.

(** A program that leaves the attributes off when it starts with them
    off, however it ends. *)
Lemma restores_pbind {A B : Type} (m : prog A) (k : A -> prog B) :
  style_after plain (fst m) = plain ->
  (forall a, style_after plain (fst (k a)) = plain) ->
  style_after plain (fst (pbind m k)) = plain.
Proof.
  intros Hm Hk. rewrite fst_pbind.
  destruct (snd m); [ | assumption | assumption].
  rewrite style_after_app, Hm. apply Hk.
Qed.

Lemma draw_bar_restores (row col width : Z) (pc : double) (str : string)
    (t : list call) :
  draw_bar use_color row col width pc str = Ok t ->
  style_after plain t = plain.
Proof.
  unfold draw_bar, draw_bar_body.
  destruct (int_add 2 _) as [reserved | | ]; cbn [bind]; try discriminate.
  destruct (int_sub width reserved) as [w | | ]; cbn [bind]; try discriminate.
  destruct (Double.to_int _) as [bars | | ]; cbn [bind]; try discriminate.
  destruct (bars <? 0); [intros H; injection H as <-; reflexivity | ].
  destruct (int_add col w) as [c | | ]; cbn [bind]; try discriminate.
  destruct (int_add c 1) as [c' | | ]; cbn [bind]; try discriminate.
  intros H; injection H as <-.
  unfold set_color, remove_color. destruct use_color; reflexivity.
Qed.

Lemma style_after_stack (s : style) (texts : list string) :
  forall row, style_after s (stack row texts) = s.
Proof. induction texts as [ | text texts IH]; intros row; [reflexivity | apply IH]. Qed.

Lemma draw_labels_restores (rows : list bool) :
  List.length rows = info.row_count ->
  style_after plain (fst (draw_labels use_color rows)) = plain.
Proof.
  intros Hl. rewrite (draw_labels_stack use_color rows Hl). cbn [fst].
  rewrite !style_after_app, style_after_stack.
  unfold set_color, remove_color. destruct use_color; reflexivity.
Qed.

Lemma bar_row_restores (rows : list bool) (i : nat)
    (sample : result (string * double)) (bar_width row : Z) :
  style_after plain (fst (bar_row use_color rows i sample bar_width row))
    = plain.
Proof.
  unfold bar_row. apply restores_pbind; [reflexivity | ].
  intros [ | ]; [ | reflexivity].
  apply restores_pbind; [reflexivity | intros (text, pc)].
  destruct (draw_bar use_color (row + 1) text_len bar_width pc text)
    as [t | e | ] eqn:Hd; try reflexivity.
  unfold lift, emit, pret. cbn [pbind fst app]. rewrite app_nil_r.
  apply (draw_bar_restores _ _ _ _ _ _ Hd).
Qed.

Lemma text_row_restores (rows : list bool) (i : nat)
    (sample : result string) (row : Z) :
  style_after plain (fst (text_row use_color rows i sample row)) = plain.
Proof.
  unfold text_row. apply restores_pbind; [reflexivity | ].
  intros [ | ]; [ | reflexivity].
  apply restores_pbind; [reflexivity | intros _].
  apply restores_pbind; [reflexivity | intros text].
  apply restores_pbind; [ | reflexivity].
  unfold emit, print_string, set_color, remove_color.
  destruct use_color; reflexivity.
Qed.

Lemma draw_rows_restores (rows : list bool) (fs : filesystem)
    (dev : device) (COLS : Z) :
  style_after plain (fst (draw_rows use_color rows fs dev COLS)) = plain.
Proof.
  unfold draw_rows.
  repeat first [apply bar_row_restores | apply text_row_restores
               | apply restores_pbind; [ | intros ?]];
    reflexivity.
Qed.

Lemma loop_restores (rows : list bool) (dev : device) (ticks : list tick) :
  List.length rows = info.row_count ->
  style_after plain (fst (loop use_color rows dev ticks)) = plain.
Proof.
  intros Hl. induction ticks as [ | t rest IH]; cbn [loop]; [reflexivity | ].
  destruct (should_close t); [reflexivity | ].
  apply restores_pbind.
  { destruct (should_resize t); [ | reflexivity].
    unfold handle_winch. apply restores_pbind; [reflexivity | intros _].
    apply (draw_labels_restores rows Hl). }
  intros _. apply restores_pbind; [apply draw_rows_restores | intros _].
  apply restores_pbind; [reflexivity | intros _].
  destruct (is_quit (key t)); [reflexivity | exact IH].
Qed.

End Styles.

(** X17. What [draw_bar] draws in which style: the two brackets in bold
    with no colour pair, the bar glyphs without bold in the colour of the
    band, the label (as [addstr] takes it) in bold in the value colour; with colours off no
    pair is selected at all. When the bar length is negative nothing is
    written. Either way the attributes are off again at the end. *)
Theorem bar_styles (use_color : bool) (row col width : Z) (pc : double)
    (str : string) (t : list call) :
  draw_bar use_color row col width pc str = Ok t ->
  let c := Double.clamp pc Double.zero Double.one in
  style_after plain t = plain /\
  (styled plain t = [] \/
   exists bars,
     0 <= bars /\
     styled plain t =
       [ ("[", (true, 0));
         (string_of_char (Z.to_nat bars) "|",
          (false, pair_of use_color (bar_color c)));
         (c_str str, (true, pair_of use_color color.value));
         ("]", (true, 0)) ]).
Proof.
  intros H c. split; [apply (draw_bar_restores _ _ _ _ _ _ _ H) | ].
  revert H. unfold draw_bar, draw_bar_body. fold c.
  destruct (int_add 2 _) as [reserved | | ]; cbn [bind]; try discriminate.
  destruct (int_sub width reserved) as [w | | ]; cbn [bind]; try discriminate.
  destruct (Double.to_int _) as [bars | | ]; cbn [bind]; try discriminate.
  destruct (Z.ltb_spec bars 0) as [Hlt | Hge];
    [intros H; injection H as <-; left; reflexivity | ].
  destruct (int_add col w) as [x | | ]; cbn [bind]; try discriminate.
  destruct (int_add x 1) as [x' | | ]; cbn [bind]; try discriminate.
  intros H; injection H as <-. right. exists bars. split; [exact Hge | ].
  unfold print_string. rewrite c_str_string_of_char.
  unfold pair_of, set_color, remove_color. destruct use_color; reflexivity.
Qed.

(** X18. No attribute stays on: whatever the options, the files and the
    keys, and however the run ends, after the calls of [main] bold is off
    and no colour pair is selected; the same holds after every
    iteration of the loop. *)
Theorem attributes_are_restored (argv0 : string) (opts : list getopt)
    (has_colors : bool) (boot : filesystem) (ticks : list tick) :
  style_after plain (fst (main argv0 opts has_colors boot ticks)) = plain /\
  forall n,
    style_after plain
      (fst (main argv0 opts has_colors boot (firstn n ticks))) = plain.
Proof.
  assert (H : forall tk,
            style_after plain (fst (main argv0 opts has_colors boot tk))
            = plain).
  { intros tk. unfold main, main_prog.
    destruct (parse_options_cases argv0 opts initial_settings)
      as [(s & H) | [(H & I) | [(H & I) | [(e & H) | H]]]]; rewrite H;
      cbn [pbind pret fst snd app]; try reflexivity.
    pose proof (parse_options_length _ _ _ _ _ H eq_refl) as Hl.
    destruct (all_disabled (enabled_rows s)); [reflexivity | ].
    cbn [emit pbind app].
    set (uc := use_color s && has_colors).
    destruct (int_of (sleep_time s * 1000)) as [ms | e | ]; unfold lift;
      cbn [pbind app]; try reflexivity.
    assert (Hc : style_after plain (if uc then init_colors else []) = plain)
      by (destruct uc; reflexivity).
    pose proof (draw_labels_restores uc (enabled_rows s) Hl) as Hlab.
    pose proof (draw_labels_ok uc (enabled_rows s) Hl) as Hok.
    destruct (draw_labels uc (enabled_rows s)) as (tl, [[] | e | ]);
      cbn [fst snd] in Hlab, Hok; try discriminate. cbn [pbind app].
    destruct (device_new boot card0) as [dev | e | ]; cbn [pbind app fst];
      [ | cbn [style_after]; rewrite ?app_nil_r, style_after_app, Hc;
          exact Hlab .. ].
    pose proof (loop_restores uc (enabled_rows s) dev tk Hl) as Hloop.
    destruct (loop uc (enabled_rows s) dev tk) as (t', [o | e | ]);
      cbn [fst] in Hloop |- *; cbn [style_after];
      rewrite !style_after_app, Hc, Hlab; exact Hloop. }
  split; [apply H | intros n; apply H].
Qed.

(* ================================================================== *)
(** ** Readings on their scale *)

Section Ratios.

(** A value whose mantissa is at most the power of two its exponent
    scales down by is at most one. *)
Lemma mantissa_leb_one (m : positive) (e : Z) :
  Double.valid (S754_finite false m e) ->
  e <= 0 -> Zpos m <= 2 ^ (- e) ->
  Double.leb (S754_finite false m e) Double.one = true.
Proof.
  unfold Double.valid, Double.leb, SFleb, Double.one.
  cbn [valid_binary SFcompare].
  unfold bounded, canonical_mantissa. intros Hv He Hm.
  apply andb_prop in Hv. destruct Hv as [Hc _]. apply Z.eqb_eq in Hc.
  pose proof (digits2_bounds m) as [Hlo _].
  destruct (Z.compare_spec e (-52)) as [Heq | Hlt | Hgt].
  - subst e. rewrite Pos.compare_cont_spec. cbn [Pos.switch_Eq].
    change (2 ^ (- -52)) with (Zpos 4503599627370496) in Hm.
    destruct (Pos.compare_spec m 4503599627370496) as [Hc' | Hc' | Hc'];
      try reflexivity.
    exfalso. apply (Z.lt_irrefl (Zpos m)).
    apply Z.le_lt_trans with (Zpos 4503599627370496); [exact Hm | exact Hc'].
  - reflexivity.
  - exfalso.
    assert (Hd : Zpos (digits2_pos m) = 53).
    { revert Hc. unfold fexp, SpecFloat.emin, prec, emax. lia. }
    rewrite Hd in Hlo.
    assert (2 ^ (- e) < 2 ^ (53 - 1)) by (apply Z.pow_lt_mono_r; lia).
    lia.
Qed.

Lemma new_location_exact (m : Z) : new_location m 0 = loc_Exact.
Proof.
  unfold new_location, new_location_even, new_location_odd.
  destruct (Z.even m); reflexivity.
Qed.

Lemma fexp_le_m52 (k : Z) : k <= 1 -> fexp prec emax k <= -52.
Proof. unfold fexp, SpecFloat.emin, prec, emax. lia. Qed.

(** The quotient of two positive values, the first at most the second,
    is at most one after rounding, and not below zero. *)
Lemma div_le_one (mx my : positive) (ex ey c : Z) :
  0 <= c + ex -> 0 <= c + ey ->
  Zpos mx * 2 ^ (c + ex) <= Zpos my * 2 ^ (c + ey) ->
  let q := Double.div (S754_finite false mx ex) (S754_finite false my ey) in
  Double.leb Double.zero q = true /\ Double.leb q Double.one = true.
Proof.
  intros Hcx Hcy Hle q.
  pose proof (div_valid (S754_finite false mx ex) (S754_finite false my ey))
    as Hvalid.
  fold q in Hvalid. revert Hvalid. subst q.
  unfold Double.div, SF64div, SFdiv, SFdiv_core_binary.
  cbn [Zdigits2 xorb].
  pose proof (digits2_bounds mx) as [Hlox Hhix].
  pose proof (digits2_bounds my) as [Hloy Hhiy].
  set (d1 := Zpos (digits2_pos mx)) in *.
  set (d2 := Zpos (digits2_pos my)) in *.
  assert (Hd1 : 1 <= d1) by (subst d1; lia).
  assert (Hd2 : 1 <= d2) by (subst d2; lia).
  assert (Hpx : 0 < 2 ^ (c + ex)) by (apply Z.pow_pos_nonneg; lia).
  assert (Hpy : 0 < 2 ^ (c + ey)) by (apply Z.pow_pos_nonneg; lia).
  assert (HD : d1 + ex - (d2 + ey) <= 0).
  { assert (Hlt : 2 ^ (d1 - 1 + (c + ex)) < 2 ^ (d2 + (c + ey))).
    { rewrite (Z.pow_add_r 2 (d1 - 1)), (Z.pow_add_r 2 d2) by lia.
      apply Z.le_lt_trans with (Zpos mx * 2 ^ (c + ex));
        [apply Z.mul_le_mono_nonneg_r; lia | ].
      apply Z.le_lt_trans with (Zpos my * 2 ^ (c + ey)); [exact Hle | ].
      apply Zmult_lt_compat_r; lia. }
    apply pow2_lt_inv in Hlt; lia. }
  pose proof (fexp_le_m52 (d1 + ex - (d2 + ey)) ltac:(lia)) as Hf.
  set (e' := Z.min (fexp prec emax (d1 + ex - (d2 + ey))) (ex - ey)) in *.
  assert (He' : e' <= -52 /\ e' <= ex - ey) by (subst e'; lia).
  set (E := - e').
  set (s := ex - ey - e').
  assert (Hs : 0 <= s) by (subst s; lia).
  set (m' := match s with
             | 0 => Zpos mx
             | Zpos _ => Z.shiftl (Zpos mx) s
             | Zneg _ => 0
             end).
  assert (Hm' : m' = Zpos mx * 2 ^ s).
  { subst m'. destruct s as [ | p | p] eqn:Hp; try lia.
    rewrite Z.shiftl_mul_pow2 by lia. reflexivity. }
  assert (HpE : 0 < 2 ^ E) by (apply Z.pow_pos_nonneg; subst E; lia).
  assert (Hps : 0 < 2 ^ s) by (apply Z.pow_pos_nonneg; lia).
  assert (Hbound : m' <= Zpos my * 2 ^ E).
  { rewrite Hm'.
    apply Z.mul_le_mono_pos_r with (2 ^ (c + ey)); [exact Hpy | ].
    rewrite <- !Z.mul_assoc, <- !Z.pow_add_r by (subst E; lia).
    replace (s + (c + ey)) with (c + ex + E) by (subst s E; lia).
    replace (E + (c + ey)) with (c + ey + E) by lia.
    rewrite (Z.pow_add_r 2 (c + ex)), (Z.pow_add_r 2 (c + ey))
      by (subst E; lia).
    rewrite !Z.mul_assoc. apply Z.mul_le_mono_nonneg_r; lia. }
  pose proof (Z.div_eucl_eq m' (Zpos my) ltac:(lia)) as Heq.
  pose proof (Z.mod_pos_bound m' (Zpos my) ltac:(lia)) as Hr.
  unfold Z.modulo in Hr.
  destruct (Z.div_eucl m' (Zpos my)) as (qz, r) eqn:Hdiv.
  assert (Hq0 : 0 <= qz).
  { assert (Hm0 : 0 <= m') by (rewrite Hm'; lia). nia. }
  assert (HqE : qz <= 2 ^ E) by nia.
  assert (Hexact : qz = 2 ^ E -> r = 0) by nia.
  destruct (binary_round_aux_spec false qz e'
              (new_location (Zpos my) r) Hq0)
    as (m2 & e1 & e2 & m'' & He1 & Hm2 & _ & Hex & He2 & Hm'' & ->).
  assert (Hdq : Zdigits2 qz <= E + 1).
  { apply Zdigits2_le; [ | subst E; lia].
    split; [lia | ]. rewrite Z.pow_add_r, Z.pow_1_r by (subst E; lia). lia. }
  pose proof (fexp_le_m52 (Zdigits2 qz + e') ltac:(subst E; lia)) as Hf1.
  set (E1 := - e1).
  assert (HE1 : 52 <= E1 <= E) by (subst E1 E; lia).
  assert (Hk1 : e1 - e' = E - E1) by (subst E1 E; lia).
  rewrite Hk1 in Hm2, Hex.
  assert (Hpk1 : 0 < 2 ^ (E - E1)) by (apply Z.pow_pos_nonneg; lia).
  assert (HpE1 : 0 < 2 ^ E1) by (apply Z.pow_pos_nonneg; lia).
  assert (Hsplit : 2 ^ E = 2 ^ (E - E1) * 2 ^ E1).
  { rewrite <- Z.pow_add_r by lia. f_equal. lia. }
  assert (Hm2le : 0 <= m2 <= 2 ^ E1).
  { destruct (Z.eq_dec qz (2 ^ E)) as [Hqe | Hqne].
    - rewrite (Hexact Hqe), new_location_exact in Hex.
      assert (Hmod : qz mod 2 ^ (E - E1) = 0).
      { rewrite Hqe, Hsplit, Z.mul_comm. apply Z.mod_mul. lia. }
      rewrite (Hex eq_refl Hmod), Hqe, Hsplit, Z.mul_comm, Z.div_mul by lia.
      lia.
    - assert (Hlt : qz / 2 ^ (E - E1) < 2 ^ E1).
      { apply Z.div_lt_upper_bound; [lia | ]. rewrite <- Hsplit. lia. }
      assert (0 <= qz / 2 ^ (E - E1)) by (apply Z.div_pos; lia).
      destruct Hm2 as [-> | ->]; lia. }
  assert (Hd2' : Zdigits2 m2 <= E1 + 1).
  { apply Zdigits2_le; [ | lia].
    split; [lia | ]. rewrite Z.pow_add_r, Z.pow_1_r by lia. lia. }
  pose proof (fexp_le_m52 (Zdigits2 m2 + e1) ltac:(subst E1; lia)) as Hf2.
  set (E2 := - e2).
  assert (HE2 : 52 <= E2 <= E1) by (subst E2 E1; lia).
  replace (e2 - e1) with (E1 - E2) in Hm'' by (subst E1 E2; lia).
  assert (Hpk2 : 0 < 2 ^ (E1 - E2)) by (apply Z.pow_pos_nonneg; lia).
  assert (Hm''le : 0 <= m'' <= 2 ^ E2).
  { subst m''. split; [apply Z.div_pos; lia | ].
    apply Z.le_trans with (2 ^ E1 / 2 ^ (E1 - E2));
      [apply Z.div_le_mono; lia | ].
    replace (2 ^ E1) with (2 ^ E2 * 2 ^ (E1 - E2)).
    - rewrite Z.div_mul by lia. lia.
    - rewrite <- Z.pow_add_r by lia. f_equal. lia. }
  destruct m'' as [ | p | p]; try lia.
  - intros _. split; reflexivity.
  - replace (e2 <=? emax - prec) with true
      by (symmetry; apply Z.leb_le; unfold emax, prec; subst E2; lia).
    intros Hvalid. split; [reflexivity | ].
    apply mantissa_leb_one; [exact Hvalid | subst E2; lia | ].
    replace (- e2) with E2 by reflexivity. lia.
Qed.

(** A finite value divided by itself is one. *)
Lemma div_self (m : positive) (e : Z) :
  Double.div (S754_finite false m e) (S754_finite false m e) = Double.one.
Proof.
  unfold Double.div, SF64div, SFdiv, SFdiv_core_binary.
  cbn [Zdigits2 xorb].
  rewrite !Z.sub_diag.
  change (Z.min (fexp prec emax 0) 0) with (-53).
  change (0 - -53) with 53.
  cbv beta iota zeta.
  rewrite Z.shiftl_mul_pow2 by lia.
  assert (Hq : Zpos m * 2 ^ 53 / Zpos m = 2 ^ 53)
    by (rewrite Z.mul_comm; apply Z.div_mul; lia).
  assert (Hr : (Zpos m * 2 ^ 53) mod Zpos m = 0)
    by (rewrite Z.mul_comm; apply Z.mod_mul; lia).
  unfold Z.div, Z.modulo in Hq, Hr.
  destruct (Z.div_eucl (Zpos m * 2 ^ 53) (Zpos m)) as (q, r).
  subst q r. rewrite new_location_exact. reflexivity.
Qed.

Lemma read_digits_nonneg (s : string) :
  forall acc, 0 <= acc -> 0 <= snd (fst (read_digits s acc)).
Proof.
  induction s as [ | c r IH]; intros acc Hacc; cbn [read_digits].
  - exact Hacc.
  - destruct (isdigit c) eqn:Hd; [ | exact Hacc].
    assert (Hv : 0 <= digit_val c).
    { unfold isdigit, char_in in Hd. unfold digit_val.
      apply andb_prop in Hd. destruct Hd as (Hd & _).
      apply N.leb_le in Hd. lia. }
    specialize (IH (10 * acc + digit_val c) ltac:(lia)).
    destruct (read_digits r (10 * acc + digit_val c)) as ((n, v), rest).
    exact IH.
Qed.

(** What [stoull] returns is a value of the type. *)
Lemma stoull_range (s : string) (u : Z) : stoull s = Ok u -> 0 <= u < 2 ^ 64.
Proof.
  unfold stoull. destruct (read_sign _) as (neg, r).
  pose proof (read_digits_nonneg r 0 ltac:(lia)) as Hv.
  destruct (read_digits r 0) as ((n, v), rest). cbn [fst snd] in Hv.
  destruct n; [discriminate | ].
  destruct (Z.leb_spec v ULLONG_MAX) as [Hle | ]; [ | discriminate].
  intros H. injection H as <-. unfold ULLONG_MAX in Hle.
  destruct neg; [apply Z.mod_pos_bound; reflexivity | lia].
Qed.

(** The ratio of two integers below 2^53, the first at most the second:
    within [0, 1], zero for zero and one for equal. *)
Lemma ratio_in_unit (u t : Z) :
  0 <= u <= t -> 0 < t < 2 ^ 53 ->
  let pc := Double.div (Double.of_Z u) (Double.of_Z t) in
  Double.leb Double.zero pc = true /\ Double.leb pc Double.one = true /\
  Double.clamp pc Double.zero Double.one = pc /\
  (u = 0 -> pc = Double.zero) /\ (u = t -> pc = Double.one).
Proof.
  intros Hu Ht pc.
  assert (Hclamp : Double.leb Double.zero pc = true ->
                   Double.leb pc Double.one = true ->
                   Double.clamp pc Double.zero Double.one = pc).
  { intros H0 H1. unfold Double.clamp.
    rewrite (leb_not_ltb _ _ H0), (leb_not_ltb _ _ H1). reflexivity. }
  subst pc.
  destruct (of_Z_repr t) as (b & mt & Hb & Hmt & Dt & Et); [lia | ].
  replace (t <? 0) with false in Et by (symmetry; apply Z.ltb_ge; lia).
  rewrite Et in *.
  destruct (Z.eq_dec u 0) as [-> | Hnz].
  - repeat split; try reflexivity. intros <-. lia.
  - destruct (of_Z_repr u) as (a & mu & Ha & Hmu & Du & Eu); [lia | ].
    replace (u <? 0) with false in Eu by (symmetry; apply Z.ltb_ge; lia).
    rewrite Eu in *.
    destruct (div_le_one mu mt (- a) (- b) (a + b)) as (H0 & H1);
      try lia.
    { replace (a + b + - a) with b by lia.
      replace (a + b + - b) with a by lia.
      rewrite Hmu, Hmt, !Z.abs_eq by lia.
      assert (0 < 2 ^ a) by (apply Z.pow_pos_nonneg; lia).
      assert (0 < 2 ^ b) by (apply Z.pow_pos_nonneg; lia).
      nia. }
    split; [exact H0 | ]. split; [exact H1 | ].
    split; [apply Hclamp; assumption | ].
    split; [intros; lia | ].
    intros ->. assert (Hm : Zpos mu = Zpos mt /\ a = b).
    { assert (Hpa : 0 < 2 ^ a) by (apply Z.pow_pos_nonneg; lia).
      assert (Hpb : 0 < 2 ^ b) by (apply Z.pow_pos_nonneg; lia).
      pose proof (digits2_bounds mu) as Bu.
      pose proof (digits2_bounds mt) as Bt.
      rewrite Du in Bu. rewrite Dt in Bt.
      assert (a = b); [ | subst; split; [congruence | reflexivity]].
      destruct (Z.lt_trichotomy a b) as [Hlt | [Heq | Hgt]]; [ | exact Heq | ];
        exfalso.
      - assert (Hs : 2 ^ b = 2 ^ a * 2 ^ (b - a))
          by (rewrite <- Z.pow_add_r by lia; f_equal; lia).
        assert (2 <= 2 ^ (b - a))
          by (change 2 with (2 ^ 1) at 1; apply Z.pow_le_mono_r; lia).
        change (2 ^ 53) with (2 * 2 ^ (53 - 1)) in Bu. nia.
      - assert (Hs : 2 ^ a = 2 ^ b * 2 ^ (a - b))
          by (rewrite <- Z.pow_add_r by lia; f_equal; lia).
        assert (2 <= 2 ^ (a - b))
          by (change 2 with (2 ^ 1) at 1; apply Z.pow_le_mono_r; lia).
        change (2 ^ 53) with (2 * 2 ^ (53 - 1)) in Bt. nia. }
    destruct Hm as (Hm & <-). injection Hm as <-. apply div_self.
Qed.

End Ratios.

Section Decimal.

Lemma read_digits_acc (d : Decimal.uint) :
  forall acc : positive,
    read_digits (NilEmpty.string_of_uint d) (Zpos acc) =
      (Decimal.nb_digits d, Zpos (Pos.of_uint_acc d acc), EmptyString).
Proof.
  induction d; intros acc; cbn [NilEmpty.string_of_uint read_digits
    Decimal.nb_digits Pos.of_uint_acc]; try reflexivity;
    match goal with
    | |- context [isdigit ?c] =>
        change (isdigit c) with true; cbv iota;
        match goal with
        | |- context [read_digits _ ?a] =>
            match goal with
            | |- context [Pos.of_uint_acc _ ?p] =>
                replace a with (Zpos p)
                  by (unfold digit_val; simpl (N_of_ascii _); lia)
            end
        end
    end; rewrite IHd; reflexivity.
Qed.

Lemma read_digits_uint (d : Decimal.uint) :
  read_digits (NilEmpty.string_of_uint d) 0 =
    (Decimal.nb_digits d, Z.of_N (Pos.of_uint d), EmptyString).
Proof.
  induction d; cbn [NilEmpty.string_of_uint read_digits
    Decimal.nb_digits Pos.of_uint]; try reflexivity;
    match goal with
    | |- context [isdigit ?c] => change (isdigit c) with true; cbv iota
    end.
  - change (10 * 0 + digit_val "0") with 0. rewrite IHd. reflexivity.
  - change (10 * 0 + digit_val "1") with (Zpos 1). rewrite read_digits_acc. reflexivity.
  - change (10 * 0 + digit_val "2") with (Zpos 2). rewrite read_digits_acc. reflexivity.
  - change (10 * 0 + digit_val "3") with (Zpos 3). rewrite read_digits_acc. reflexivity.
  - change (10 * 0 + digit_val "4") with (Zpos 4). rewrite read_digits_acc. reflexivity.
  - change (10 * 0 + digit_val "5") with (Zpos 5). rewrite read_digits_acc. reflexivity.
  - change (10 * 0 + digit_val "6") with (Zpos 6). rewrite read_digits_acc. reflexivity.
  - change (10 * 0 + digit_val "7") with (Zpos 7). rewrite read_digits_acc. reflexivity.
  - change (10 * 0 + digit_val "8") with (Zpos 8). rewrite read_digits_acc. reflexivity.
  - change (10 * 0 + digit_val "9") with (Zpos 9). rewrite read_digits_acc. reflexivity.
Qed.

Lemma to_uint_nonnil (n : N) : N.to_uint n <> Decimal.Nil.
Proof.
  destruct n; [discriminate | apply DecimalPos.Unsigned.to_uint_nonnil].
Qed.

(** The digits [to_string] writes read back as the number, and nothing
    is left over. *)
Lemma read_digits_to_string (z : Z) :
  0 <= z ->
  exists n, read_digits (to_string z) 0 = (S n, z, EmptyString).
Proof.
  intros Hz. unfold to_string.
  pose proof (to_uint_nonnil (Z.to_N z)) as Hnil.
  pose proof (DecimalN.Unsigned.of_to (Z.to_N z)) as Hof.
  unfold N.of_uint in Hof.
  destruct (N.to_uint (Z.to_N z)) as [ | d | d | d | d | d | d | d | d | d | d] eqn:Hd;
    try contradiction;
    unfold NilZero.string_of_uint;
    rewrite read_digits_uint, Hof, Z2N.id by lia;
    eexists; reflexivity.
Qed.

(** [to_string] writes a digit first: no white space and no sign. *)
Lemma to_string_head (z : Z) :
  read_sign (skip_space (to_string z)) = (false, to_string z).
Proof.
  unfold to_string.
  pose proof (to_uint_nonnil (Z.to_N z)) as Hnil.
  destruct (N.to_uint (Z.to_N z)); try contradiction; reflexivity.
Qed.

Lemma stoull_to_string (z : Z) :
  0 <= z <= ULLONG_MAX -> stoull (to_string z) = Ok z.
Proof.
  intros Hz. unfold stoull. rewrite to_string_head.
  destruct (read_digits_to_string z) as (n & ->); [lia | ].
  replace (z <=? ULLONG_MAX) with true by (symmetry; apply Z.leb_le; lia).
  reflexivity.
Qed.

Lemma stoull_minus (z : Z) :
  0 <= z <= ULLONG_MAX -> stoull ("-" ++ to_string z) = Ok (ull (- z)).
Proof.
  intros Hz. unfold stoull.
  change (read_sign (skip_space ("-" ++ to_string z)))
    with (true, to_string z).
  destruct (read_digits_to_string z) as (n & ->); [lia | ].
  replace (z <=? ULLONG_MAX) with true by (symmetry; apply Z.leb_le; lia).
  reflexivity.
Qed.

End Decimal.

(* ================================================================== *)
(** ** What the conversions reject, and what a rejection does *)

Section Conversions.

(** Digits that are all read are read the same when something that is no
    digit follows them. *)
Lemma read_digits_app (s tail : string) :
  digit_first tail = false ->
  forall (acc : Z) (n : nat) (v : Z),
    read_digits s acc = (n, v, EmptyString) ->
    read_digits (s ++ tail) acc = (n, v, tail).
Proof.
  intros Ht. induction s as [ | c r IH]; intros acc n v.
  - cbn [read_digits append]. intros H. injection H as <- <-.
    destruct tail as [ | c r]; [reflexivity | ].
    cbn [digit_first] in Ht. cbn [read_digits]. rewrite Ht. reflexivity.
  - cbn [read_digits append]. destruct (isdigit c); [ | discriminate].
    destruct (read_digits r (10 * acc + digit_val c)) as ((n', v'), rest)
      eqn:E.
    intros H. injection H as <- <- ->. rewrite (IH _ _ _ E). reflexivity.
Qed.

Lemma to_string_head_app (z : Z) (tail : string) :
  read_sign (skip_space (to_string z ++ tail))
    = (false, (to_string z ++ tail)%string).
Proof.
  unfold to_string.
  pose proof (to_uint_nonnil (Z.to_N z)) as Hnil.
  destruct (N.to_uint (Z.to_N z)); try contradiction; reflexivity.
Qed.

(** [stoull] converts the digits a line starts with and ignores what
    follows them. *)
Lemma stoull_prefix (n : Z) (tail : string) :
  0 <= n -> digit_first tail = false ->
  stoull (to_string n ++ tail) =
    if n <=? ULLONG_MAX then Ok n else Throw out_of_range.
Proof.
  intros Hn Ht. unfold stoull. rewrite to_string_head_app.
  destruct (read_digits_to_string n Hn) as (k & Hk).
  rewrite (read_digits_app _ tail Ht _ _ _ Hk). reflexivity.
Qed.

Lemma stoull_invalid (line : string) :
  stoull line = Throw invalid_argument -> no_integer line = true.
Proof.
  unfold no_integer, stoull.
  destruct (read_sign (skip_space line)) as [neg s]. cbn [snd].
  destruct s as [ | c r]; [reflexivity | ].
  cbn [read_digits]. destruct (isdigit c); [ | reflexivity].
  destruct (read_digits r _) as ((n, v), rest).
  destruct (v <=? ULLONG_MAX); discriminate.
Qed.

Lemma strtod_scaled_cases (neg : bool) (m base e : Z) :
  (exists x, strtod_scaled neg m base e = Ok x) \/
  strtod_scaled neg m base e = Throw out_of_range.
Proof.
  assert (H : forall num den,
            (exists x, strtod_round neg num den = Ok x) \/
            strtod_round neg num den = Throw out_of_range).
  { intros num den. unfold strtod_round.
    destruct (round_ratio neg num den);
      try (right; reflexivity);
      (destruct (_ && _); [right; reflexivity | left; eexists; reflexivity]). }
  unfold strtod_scaled. destruct m as [ | q | q];
    try (left; eexists; reflexivity).
  destruct (0 <=? e); apply H.
Qed.

Lemma dec_subject_some (c : ascii) (r : string) :
  isdigit c = true \/
  (c = "."%char /\ match r with
                   | String d _ => isdigit d = true
                   | EmptyString => False
                   end) ->
  exists me, dec_subject (String c r) = Some me.
Proof.
  unfold dec_subject, read_mantissa. cbn [read_digits].
  intros [Hc | (-> & Hd)].
  - rewrite Hc. destruct (read_digits r _) as ((n1, v1), r1).
    destruct (match r1 with
              | String "." r0 => read_digits r0 v1
              | _ => (O, v1, r1)
              end) as ((n2, v2), r2).
    cbn [Nat.add]. eexists. reflexivity.
  - change (isdigit ".") with false. cbv iota.
    destruct r as [ | d r']; [contradiction | ].
    cbn [read_digits]. rewrite Hd.
    destruct (read_digits r' _) as ((n2, v2), r2).
    cbn [Nat.add]. eexists. reflexivity.
Qed.

(** [stod] returns a value or throws one of its two exceptions. *)
Lemma stod_cases (line : string) :
  (exists x, stod line = Ok x) \/
  stod line = Throw out_of_range \/
  (stod line = Throw invalid_argument /\ no_float line = true).
Proof.
  unfold stod, no_float.
  destruct (read_sign (skip_space line)) as [neg s]. cbn [snd].
  destruct (strip_prefix_ci "inf" s); [left; eexists; reflexivity | ].
  destruct (strip_prefix_ci "nan" s); [left; eexists; reflexivity | ].
  destruct (hex_subject s) as [(m, e) | ].
  { destruct (strtod_scaled_cases neg m 2 e) as [H | H]; tauto. }
  destruct s as [ | c r]; [right; right; split; reflexivity | ].
  destruct (isdigit c) eqn:Hc.
  { destruct (dec_subject_some c r (or_introl Hc)) as ((m, e) & ->).
    destruct (strtod_scaled_cases neg m 10 e) as [H | H]; tauto. }
  cbn [negb andb].
  destruct (Ascii.eqb_spec c ".") as [-> | Hne]; cbn [andb].
  - destruct r as [ | d r'].
    + right; right. split; reflexivity.
    + destruct (isdigit d) eqn:Hd.
      * destruct (dec_subject_some "." (String d r')) as ((m, e) & ->);
          [right; split; [reflexivity | exact Hd] | ].
        destruct (strtod_scaled_cases neg m 10 e) as [H | H]; tauto.
      * right; right. rewrite dec_subject_none; [split; reflexivity | reflexivity | ].
        cbn. exact Hd.
  - right; right. rewrite dec_subject_none; [split; reflexivity | exact Hc | ].
    destruct (Ascii.eqb_spec c "."); [contradiction | reflexivity].
Qed.

Variable fs : filesystem.
Variable dev : device.

(** The fetch of a metric fails exactly as the conversion of its line
    does. *)
Lemma fetch_conversion (m : metric) :
  let line := read_file fs (m_path dev) (metric_file m) in
  fetch m fs dev =
    match m with
    | Busy | Fan => returns (stod line)
    | _ => returns (stoull line)
    end.
Proof.
  destruct m; cbn [fetch metric_file]; cbv zeta;
    unfold busy, vram, gtt, vis_vram, memory, power, temperature, fan,
      gfx_clock, mem_clock, clock, returns;
    match goal with
    | |- context [stod ?l] => destruct (stod l)
    | |- context [stoull ?l] => destruct (stoull l)
    end; reflexivity.
Qed.

(** A fetch returns or throws one of the two exceptions; it throws
    [invalid_argument] exactly on a malformed line. *)
Lemma fetch_cases (m : metric) :
  let line := read_file fs (m_path dev) (metric_file m) in
  (fetch m fs dev = Ok tt /\ malformed m line = false) \/
  (fetch m fs dev = Throw out_of_range /\ malformed m line = false) \/
  (fetch m fs dev = Throw invalid_argument /\ malformed m line = true).
Proof.
  intros line. rewrite fetch_conversion. fold line.
  assert (Hd : (returns (stod line) = Ok tt /\ no_float line = false) \/
               (returns (stod line) = Throw out_of_range
                /\ no_float line = false) \/
               (returns (stod line) = Throw invalid_argument
                /\ no_float line = true)).
  { destruct (no_float line) eqn:Hn.
    - right; right. rewrite (stod_no_float _ Hn). split; reflexivity.
    - destruct (stod_cases line) as [(x & ->) | [-> | (_ & H)]];
        [left | right; left | congruence]; split; reflexivity. }
  assert (Hu : (returns (stoull line) = Ok tt /\ no_integer line = false) \/
               (returns (stoull line) = Throw out_of_range
                /\ no_integer line = false) \/
               (returns (stoull line) = Throw invalid_argument
                /\ no_integer line = true)).
  { destruct (no_integer line) eqn:Hn.
    - right; right. rewrite (stoull_no_integer _ Hn). split; reflexivity.
    - destruct (stoull line) as [v | [ | ] | ] eqn:E.
      + left. split; reflexivity.
      + apply stoull_invalid in E. congruence.
      + right; left. split; reflexivity.
      + exfalso. exact (stoull_not_undef _ E). }
  destruct m; cbn [malformed]; assumption.
Qed.

End Conversions.

Section LaterIterations.

Variable use_color : bool.
Variable rows : list bool.
Variable dev : device.

(** Iterations that leave the loop running do not change how the ones
    after them end. *)
Lemma loop_app (pre ticks : list tick) :
  snd (loop use_color rows dev pre) = Ok Running ->
  snd (loop use_color rows dev (pre ++ ticks))
    = snd (loop use_color rows dev ticks).
Proof.
  induction pre as [ | t pre IH]; [reflexivity | ].
  cbn [loop app]. destruct (should_close t); [discriminate | ].
  rewrite !snd_pbind. cbn [emit snd].
  repeat match goal with
         | |- match ?x with Ok _ => _ | Throw _ => _ | Undef => _ end = _ -> _ =>
             destruct x; try discriminate
         end.
  destruct (is_quit (key t)); [discriminate | exact IH].
Qed.

(** The exception of the first enabled row ends the loop. *)
Lemma loop_thrown (m : metric) (t : tick) (rest : list tick) (e : exn) :
  List.length rows = info.row_count ->
  should_close t = false ->
  in_int (COLS t - text_len) = true ->
  in_int (COLS t - text_len - hpad) = true ->
  at_ rows (metric_row m) = Ok true ->
  (forall i, (i < metric_row m)%nat -> at_ rows i = Ok false) ->
  fetch m (files t) dev = Throw e ->
  snd (loop use_color rows dev (t :: rest)) = Throw e.
Proof.
  intros Hlen Hc Hw1 Hw2 Hon Hoff Hf. cbn [loop]. rewrite Hc.
  rewrite snd_pbind.
  assert (Hwinch : snd (handle_winch use_color rows (ws_row t) (ws_col t))
                   = Ok tt).
  { unfold handle_winch. rewrite snd_pbind. cbn [emit snd].
    apply draw_labels_ok. assumption. }
  destruct (should_resize t); [rewrite Hwinch | cbn [pret snd]];
    rewrite snd_pbind;
    rewrite (draw_rows_thrown _ _ m (files t) dev (COLS t) e
               Hw1 Hw2 Hon Hoff Hf);
    reflexivity.
Qed.

End LaterIterations.

(** A run whose loop is still going ends, with more iterations, as the
    loop over them ends. *)
Lemma main_goes_on (argv0 : string) (opts : list getopt) (has_colors : bool)
    (boot : filesystem) (pre ticks : list tick)
    (tr : list call) (s : settings) (dev : device) :
  parse_options argv0 opts initial_settings = (tr, Ok (Configured s)) ->
  device_new boot card0 = Ok dev ->
  snd (main argv0 opts has_colors boot pre) = Running ->
  snd (main argv0 opts has_colors boot (pre ++ ticks)) =
    match snd (loop (use_color s && has_colors) (enabled_rows s) dev ticks)
    with
    | Ok o => o
    | Throw e => Terminated e
    | Undef => Undefined
    end.
Proof.
  intros Hp Hdev. rewrite !snd_main. unfold main_prog. cbv zeta.
  rewrite !snd_pbind, Hp. cbn [snd].
  destruct (all_disabled (enabled_rows s)); [discriminate | ].
  rewrite !snd_pbind. unfold lift, emit. cbn [snd].
  destruct (int_of (sleep_time s * 1000)); try discriminate.
  rewrite !snd_pbind. cbn [snd].
  destruct (snd (draw_labels (use_color s && has_colors) (enabled_rows s)));
    try discriminate.
  rewrite Hdev. intros H. rewrite loop_app; [reflexivity | ].
  destruct (snd (loop _ _ dev pre)) as [o | e | ]; try discriminate.
  now subst o.
Qed.

(** C7 (amended). The fetch of a numeric metric throws [invalid_argument]
    exactly when the first line of its file has no number at its start;
    otherwise it returns, or throws [out_of_range]. For the integer
    metrics a line that starts with digits is converted to their value,
    whatever follows them, and rejected with [out_of_range] only when
    the value does not fit. Nobody catches either exception: in
    whichever iteration the fetch of an enabled row throws, the run ends
    with the process terminated (or, when a row above it made the
    behaviour undefined, without defined behaviour), never with [main]
    returning or the loop running on; when no row above it is enabled,
    the exception of the fetch is how the process ends. *)
Theorem malformed_reading_is_fatal
    (m : metric) (argv0 : string) (opts : list getopt) (has_colors : bool)
    (boot : filesystem) (pre : list tick) (t : tick) (rest : list tick)
    (tr : list call) (s : settings) (dev : device) :
  parse_options argv0 opts initial_settings = (tr, Ok (Configured s)) ->
  at_ (enabled_rows s) (metric_row m) = Ok true ->
  device_new boot card0 = Ok dev ->
  snd (main argv0 opts has_colors boot pre) = Running ->
  should_close t = false ->
  let line := read_file (files t) card0 (metric_file m) in
  let run := snd (main argv0 opts has_colors boot (pre ++ t :: rest)) in
  (fetch m (files t) dev = Throw invalid_argument <->
   malformed m line = true) /\
  (malformed m line = false ->
   fetch m (files t) dev = Ok tt \/
   fetch m (files t) dev = Throw out_of_range) /\
  (forall (n : Z) (tail : string),
     m <> Busy -> m <> Fan ->
     0 <= n -> digit_first tail = false ->
     line = (to_string n ++ tail)%string ->
     stoull line = (if n <=? ULLONG_MAX then Ok n else Throw out_of_range) /\
     fetch m (files t) dev =
       (if n <=? ULLONG_MAX then Ok tt else Throw out_of_range)) /\
  (forall e : exn,
     fetch m (files t) dev = Throw e ->
     ((exists e', run = Terminated e') \/ run = Undefined) /\
     ((forall i, (i < metric_row m)%nat ->
                 at_ (enabled_rows s) i = Ok false) ->
      in_int (COLS t - text_len) = true ->
      in_int (COLS t - text_len - hpad) = true ->
      run = Terminated e)).
Proof.
  intros Hp Hi Hdev Hrun Hc line run.
  pose proof (device_new_path _ _ _ Hdev) as Hpath.
  pose proof (fetch_cases (files t) dev m) as Hcases.
  cbv zeta in Hcases. rewrite Hpath in Hcases. fold line in Hcases.
  split; [ | split; [ | split]].
  - destruct Hcases as [(Hf & Hm) | [(Hf & Hm) | (Hf & Hm)]];
      rewrite Hf, Hm; split; congruence.
  - intros Hm.
    destruct Hcases as [(Hf & _) | [(Hf & _) | (_ & Hm')]];
      [left | right | congruence]; exact Hf.
  - intros n tail Hb Hfan Hn Htail Hline.
    assert (Hs : stoull line =
                 if n <=? ULLONG_MAX then Ok n else Throw out_of_range)
      by (rewrite Hline; apply stoull_prefix; assumption).
    split; [exact Hs | ].
    rewrite fetch_conversion. rewrite Hpath. fold line.
    destruct m; try congruence; rewrite Hs;
      destruct (n <=? ULLONG_MAX); reflexivity.
  - intros e Hf.
    assert (Hlen : List.length (enabled_rows s) = info.row_count).
    { apply (parse_options_length _ _ _ _ _ Hp). reflexivity. }
    subst run.
    rewrite (main_goes_on argv0 opts has_colors boot pre (t :: rest)
               tr s dev Hp Hdev Hrun).
    split.
    + pose proof (fun o => loop_fatal (use_color s && has_colors)
                             (enabled_rows s) m dev t rest e o Hc Hi Hf)
        as Hno.
      destruct (snd (loop _ _ dev (t :: rest))) as [o | e' | ].
      * exfalso. exact (Hno o eq_refl).
      * left. exists e'. reflexivity.
      * right. reflexivity.
    + intros Hoff Hw1 Hw2.
      rewrite (loop_thrown (use_color s && has_colors) (enabled_rows s) dev
                 m t rest e Hlen Hc Hw1 Hw2 Hi Hoff Hf).
      reflexivity.
Qed.


(** X19. A reading with a minus sign is not rejected: [std::stoull]
    negates it in the unsigned type, so a temperature of [-n]
    millidegrees is taken as [2^64 - n], shown with that many
    thousandths and divided by the critical temperature as such. *)
Theorem negative_temperature_wraps (fs : filesystem) (dev : device)
    (n : Z) :
  0 < n < 2 ^ 64 ->
  read_file fs (m_path dev) "hwmon/hwmon1/temp1_input"
    = "-" ++ to_string n ->
  temperature fs dev =
    Ok (to_string ((2 ^ 64 - n) / 1000) ++ "C",
        Double.div (Double.of_Z (2 ^ 64 - n))
          (Double.of_Z (m_temp_crit dev))).
Proof.
  intros Hn Hline. unfold temperature. rewrite Hline.
  rewrite stoull_minus by (unfold ULLONG_MAX; lia). cbn [bind].
  assert (Hw : ull (- n) = 2 ^ 64 - n).
  { unfold ull. symmetry. apply (Z.mod_unique _ _ (-1)); lia. }
  rewrite Hw. reflexivity.
Qed.

(** X23. The two clocks: a frequency file that holds a whole number of
    hertz that fits [unsigned long long] is shown in whole megahertz,
    rounded down; a number that does not fit makes [std::stoull] throw
    [out_of_range]. *)
Theorem clock_in_megahertz (fs : filesystem) (dev : device) (n : Z) :
  0 <= n ->
  let shown :=
    if n <=? ULLONG_MAX then Ok (to_string (n / 1000000) ++ "MHz")
    else Throw out_of_range in
  (read_file fs (m_path dev) "hwmon/hwmon1/freq1_input" = to_string n ->
   gfx_clock fs dev = shown) /\
  (read_file fs (m_path dev) "hwmon/hwmon1/freq2_input" = to_string n ->
   mem_clock fs dev = shown).
Proof.
  intros Hn shown.
  assert (H : stoull (to_string n)
              = if n <=? ULLONG_MAX then Ok n else Throw out_of_range).
  { unfold stoull. rewrite to_string_head.
    destruct (read_digits_to_string n Hn) as (k & ->). reflexivity. }
  subst shown. unfold gfx_clock, mem_clock, clock.
  split; intros ->; rewrite H; destruct (n <=? ULLONG_MAX); reflexivity.
Qed.

Section ExactIntegers.

Lemma Zdigits2_pos (p : positive) : Zdigits2 (Zpos p) = Zpos (digits2_pos p).
Proof. reflexivity. Qed.

Lemma Zdigits2_shift (v g : Z) :
  0 < v -> 0 <= g -> Zdigits2 (v * 2 ^ g) = Zdigits2 v + g.
Proof.
  intros Hv Hg.
  assert (0 < 2 ^ g) by (apply Z.pow_pos_nonneg; lia).
  rewrite !Zdigits2_log2 by nia.
  rewrite Z.log2_mul_pow2 by lia. lia.
Qed.

Lemma Zdigits2_small (v : Z) : 0 < v < 2 ^ 53 -> 1 <= Zdigits2 v <= 53.
Proof.
  intros Hv. split.
  - rewrite Zdigits2_log2 by lia. pose proof (Z.log2_nonneg v). lia.
  - apply Zdigits2_le; lia.
Qed.

(** An integer below 2^53 held in a mantissa with trailing zero bits
    rounds to itself, in the form with 53 digits. *)
Lemma binary_round_aux_scaled (s : bool) (v g : Z) :
  0 < v < 2 ^ 53 ->
  let a := 53 - Zdigits2 v in
  a <= g ->
  binary_round_aux prec emax s (v * 2 ^ g) (- g) loc_Exact =
    S754_finite s (Z.to_pos (v * 2 ^ a)) (- a).
Proof.
  intros Hv a Hg.
  pose proof (Zdigits2_small v Hv) as Hd.
  assert (Ha : 0 <= a) by (subst a; lia).
  assert (Hpg : 0 < 2 ^ g) by (apply Z.pow_pos_nonneg; lia).
  assert (Hpa : 0 < 2 ^ a) by (apply Z.pow_pos_nonneg; lia).
  assert (Hpk : 0 < 2 ^ (g - a)) by (apply Z.pow_pos_nonneg; lia).
  assert (Hsplit : v * 2 ^ g = v * 2 ^ a * 2 ^ (g - a)).
  { rewrite <- Z.mul_assoc, <- Z.pow_add_r by lia. do 2 f_equal. lia. }
  destruct (binary_round_aux_spec s (v * 2 ^ g) (- g) loc_Exact)
    as (m2 & e1 & e2 & m'' & He1 & _ & _ & Hex & He2 & Hm'' & ->); [nia | ].
  rewrite Zdigits2_shift in He1 by lia.
  replace (Zdigits2 v + g + - g) with (Zdigits2 v) in He1 by lia.
  rewrite fexp_large in He1 by (unfold prec, emax; lia).
  assert (Ee1 : e1 = - a) by (subst a; unfold prec in He1; lia).
  clear He1. subst e1.
  replace (- a - - g) with (g - a) in Hex by lia.
  assert (Hm2 : m2 = v * 2 ^ a).
  { rewrite Hex; [ | reflexivity | ].
    - rewrite Hsplit. apply Z.div_mul. lia.
    - rewrite Hsplit. apply Z.mod_mul. lia. }
  subst m2. rewrite Zdigits2_shift in He2 by lia.
  rewrite fexp_large in He2 by (unfold prec, emax; subst a; lia).
  assert (Ee2 : e2 = - a) by (subst a; unfold prec in He2; lia).
  clear He2. subst e2.
  rewrite Z.sub_diag, Z.pow_0_r, Z.div_1_r in Hm''. subst m''.
  assert (Hpos : 0 < v * 2 ^ a) by nia.
  destruct (v * 2 ^ a) as [ | q | q] eqn:Hq; try lia.
  replace (- a <=? emax - prec) with true
    by (symmetry; apply Z.leb_le; unfold emax, prec; lia).
  reflexivity.
Qed.

Lemma binary_round_scaled (s : bool) (P : positive) (c v : Z) :
  0 <= c -> Zpos P = v * 2 ^ c -> 0 < v < 2 ^ 53 ->
  let a := 53 - Zdigits2 v in
  binary_round prec emax s P (- c) =
    S754_finite s (Z.to_pos (v * 2 ^ a)) (- a).
Proof.
  intros Hc HP Hv a.
  pose proof (Zdigits2_small v Hv) as Hd.
  unfold binary_round.
  rewrite <- Zdigits2_pos, HP, Zdigits2_shift by lia.
  replace (Zdigits2 v + c + - c) with (Zdigits2 v) by lia.
  rewrite fexp_large by (unfold prec, emax; lia).
  unfold shl_align, prec at 1.
  destruct (Zdigits2 v - 53 - - c) as [ | d | d] eqn:Hk.
  - rewrite HP. apply binary_round_aux_scaled; [exact Hv | ].
    fold a. subst a. lia.
  - rewrite HP. apply binary_round_aux_scaled; [exact Hv | ].
    fold a. subst a. lia.
  - rewrite pos_iter_xO, HP.
    replace (Zdigits2 v - 53) with (- a) by (subst a; lia).
    replace (v * 2 ^ c * 2 ^ Zpos d) with (v * 2 ^ a).
    + apply (binary_round_aux_scaled s v a Hv). lia.
    + rewrite <- Z.mul_assoc, <- Z.pow_add_r by lia. do 2 f_equal.
      subst a. lia.
Qed.

(** The double of an integer below 2^53 in absolute value. *)
Lemma of_Z_exact (w : Z) :
  0 < Z.abs w < 2 ^ 53 ->
  let a := 53 - Zdigits2 (Z.abs w) in
  Double.of_Z w = S754_finite (w <? 0) (Z.to_pos (Z.abs w * 2 ^ a)) (- a).
Proof.
  intros Hw a. unfold Double.of_Z, binary_normalize.
  destruct w as [ | p | p]; cbn [Z.abs] in *; try lia.
  - apply (binary_round_scaled false p 0 (Zpos p)); [lia | | lia].
    rewrite Z.pow_0_r. lia.
  - apply (binary_round_scaled true p 0 (Zpos p)); [lia | | lia].
    rewrite Z.pow_0_r. lia.
Qed.

Lemma binary_normalize_scaled (D c v : Z) :
  0 <= c -> D = v * 2 ^ c -> Z.abs v < 2 ^ 53 ->
  binary_normalize prec emax D (- c) false = Double.of_Z v.
Proof.
  intros Hc HD Hv.
  assert (Hp : 0 < 2 ^ c) by (apply Z.pow_pos_nonneg; lia).
  destruct (Z.eq_dec v 0) as [-> | Hnz].
  { subst D. reflexivity. }
  rewrite of_Z_exact by lia. unfold binary_normalize.
  destruct D as [ | P | P].
  - exfalso. nia.
  - assert (0 < v) by nia.
    replace (v <? 0) with false by (symmetry; apply Z.ltb_ge; lia).
    rewrite Z.abs_eq by lia.
    apply (binary_round_scaled false P c v); lia.
  - assert (v < 0) by nia.
    replace (v <? 0) with true by (symmetry; apply Z.ltb_lt; lia).
    apply (binary_round_scaled true P c (Z.abs v)); [lia | | lia].
    rewrite Z.abs_neq by lia. lia.
Qed.

(** The difference of two integers below 2^53 is exact. *)
Lemma sub_of_Z (n m : Z) :
  0 <= n < 2 ^ 53 -> 0 <= m < 2 ^ 53 ->
  Double.sub (Double.of_Z n) (Double.of_Z m) = Double.of_Z (n - m).
Proof.
  intros Hn Hm.
  destruct (Z.eq_dec m 0) as [-> | Hm0].
  { rewrite Z.sub_0_r. destruct (Double.of_Z n) as [[ | ] | | | ];
      reflexivity. }
  destruct (Z.eq_dec n 0) as [-> | Hn0].
  { cbn [Z.sub Z.opp]. rewrite (of_Z_exact m), (of_Z_exact (0 - m)) by lia.
    replace (m <? 0) with false by (symmetry; apply Z.ltb_ge; lia).
    replace (0 - m <? 0) with true by (symmetry; apply Z.ltb_lt; lia).
    replace (Z.abs (0 - m)) with (Z.abs m) by lia. reflexivity. }
  rewrite (of_Z_exact n), (of_Z_exact m) by lia.
  replace (n <? 0) with false by (symmetry; apply Z.ltb_ge; lia).
  replace (m <? 0) with false by (symmetry; apply Z.ltb_ge; lia).
  rewrite !Z.abs_eq by lia.
  pose proof (Zdigits2_small n ltac:(lia)) as Hdn.
  pose proof (Zdigits2_small m ltac:(lia)) as Hdm.
  set (a := 53 - Zdigits2 n). set (b := 53 - Zdigits2 m).
  assert (Ha : 0 <= a) by (subst a; lia).
  assert (Hb : 0 <= b) by (subst b; lia).
  assert (Hpa : 0 < 2 ^ a) by (apply Z.pow_pos_nonneg; lia).
  assert (Hpb : 0 < 2 ^ b) by (apply Z.pow_pos_nonneg; lia).
  unfold Double.sub, SF64sub, SFsub. cbn [cond_Zopp].
  set (c := Z.max a b).
  replace (Z.min (- a) (- b)) with (- c) by (subst c; lia).
  assert (Hal : forall v g, 0 < v -> 0 <= g <= c ->
            Zpos (fst (shl_align (Z.to_pos (v * 2 ^ g)) (- g) (- c)))
            = v * 2 ^ c).
  { intros v g Hv Hg.
    assert (0 < 2 ^ g) by (apply Z.pow_pos_nonneg; lia).
    unfold shl_align.
    destruct (- c - - g) as [ | d | d] eqn:Hk; cbn [fst].
    - rewrite Z2Pos.id by nia. do 2 f_equal. lia.
    - lia.
    - rewrite pos_iter_xO, Z2Pos.id by nia.
      rewrite <- Z.mul_assoc, <- Z.pow_add_r by lia. do 2 f_equal. lia. }
  rewrite (Hal n a), (Hal m b) by (subst c; lia).
  apply binary_normalize_scaled; [subst c; lia | lia | lia].
Qed.

Lemma all_digits_uint (d : Decimal.uint) :
  all_digits (NilEmpty.string_of_uint d) = true.
Proof. induction d; cbn [NilEmpty.string_of_uint all_digits]; auto. Qed.

Lemma all_digits_to_string (z : Z) : all_digits (to_string z) = true.
Proof.
  unfold to_string, NilZero.string_of_uint.
  destruct (N.to_uint (Z.to_N z)) eqn:E; try reflexivity;
    rewrite <- E; apply all_digits_uint.
Qed.

Lemma digit_not_letter (c : ascii) :
  isdigit c = true ->
  lower c = c /\
  Ascii.eqb c "i" = false /\ Ascii.eqb c "n" = false /\
  Ascii.eqb c "x" = false /\ Ascii.eqb c "." = false.
Proof.
  destruct c as [[ | ] [ | ] [ | ] [ | ] [ | ] [ | ] [ | ] [ | ]];
    intros H; try discriminate; repeat split; reflexivity.
Qed.

(** A line of decimal digits is neither [inf] nor [nan] nor a
    hexadecimal constant. *)
Lemma digits_no_other_subject (s : string) :
  all_digits s = true ->
  strip_prefix_ci "inf" s = None /\ strip_prefix_ci "nan" s = None /\
  hex_subject s = None.
Proof.
  destruct s as [ | c r]; [repeat split; reflexivity | ].
  cbn [all_digits]. intros H. apply andb_prop in H. destruct H as (Hc & Hr).
  destruct (digit_not_letter c Hc) as (Hl & Hi & Hn & Hx & _).
  unfold hex_subject. cbn [strip_prefix_ci]. rewrite Hl, Hi, Hn.
  repeat split; try reflexivity.
  destruct (Ascii.eqb c "0"); [ | reflexivity].
  destruct r as [ | c' r']; [reflexivity | ].
  cbn [all_digits] in Hr. apply andb_prop in Hr. destruct Hr as (Hc' & _).
  destruct (digit_not_letter c' Hc') as (Hl' & _ & _ & Hx' & _).
  rewrite Hl', Hx'. reflexivity.
Qed.

(** The quotient of an integer below 2^53 by one is the integer. *)
Lemma round_ratio_one (neg : bool) (p : positive) :
  Zpos p < 2 ^ 53 ->
  let a := 53 - Zdigits2 (Zpos p) in
  round_ratio neg p 1 =
    S754_finite neg (Z.to_pos (Zpos p * 2 ^ a)) (- a).
Proof.
  intros Hp a.
  pose proof (Zdigits2_small (Zpos p) ltac:(lia)) as Hd.
  unfold round_ratio, SFdiv_core_binary.
  change (Zdigits2 1) with 1.
  replace (Zdigits2 (Zpos p) + 0 - (1 + 0)) with (Zdigits2 (Zpos p) - 1)
    by lia.
  rewrite fexp_large by (unfold prec, emax; lia).
  cbv zeta.
  repeat match goal with
  | |- context [IntDef.Z.min ?x ?y] =>
      change (IntDef.Z.min x y) with (Z.min x y);
      replace (Z.min x y) with (- (a + 1)) by (subst a; unfold prec; lia)
  end.
  replace (0 - 0 - - (a + 1)) with (a + 1) by lia.
  destruct (a + 1) as [ | g | g] eqn:Hg; try lia.
  rewrite Z.shiftl_mul_pow2 by lia.
  assert (Hq : Zpos p * 2 ^ Zpos g / 1 = Zpos p * 2 ^ Zpos g)
    by apply Z.div_1_r.
  assert (Hr : (Zpos p * 2 ^ Zpos g) mod 1 = 0) by apply Z.mod_1_r.
  unfold Z.div, Z.modulo in Hq, Hr.
  destruct (Z.div_eucl (Zpos p * 2 ^ Zpos g) 1) as (q, r).
  subst q r. rewrite new_location_exact.
  apply (binary_round_aux_scaled neg (Zpos p) (Zpos g)); [lia | ].
  fold a. lia.
Qed.

(** A whole number is not tiny. *)
Lemma is_tiny_integer (p : positive) : is_tiny p 1 = false.
Proof.
  unfold is_tiny. apply Z.ltb_ge.
  apply Z.le_trans with (1 * 2 ^ 1076); [vm_compute; discriminate | ].
  apply Z.mul_le_mono_nonneg_r; [vm_compute; discriminate | lia].
Qed.

(** [stod] of the decimal digits of an integer below 2^53 is the double
    of the integer. *)
Lemma stod_to_string (n : Z) :
  0 <= n < 2 ^ 53 -> stod (to_string n) = Ok (Double.of_Z n).
Proof.
  intros Hn. unfold stod. rewrite to_string_head.
  destruct (digits_no_other_subject _ (all_digits_to_string n))
    as (-> & -> & ->).
  unfold dec_subject, read_mantissa.
  destruct (read_digits_to_string n) as (k & ->); [lia | ].
  cbn [Nat.add read_exponent Z.of_nat].
  destruct n as [ | p | p]; try lia.
  - reflexivity.
  - unfold strtod_scaled. cbn [Z.mul Z.sub Z.leb Z.compare Z.pow Z.to_pos].
    change (Z.to_pos (Z.pow_pos 10 _)) with 1%positive.
    unfold strtod_round. rewrite Pos.mul_1_r.
    rewrite round_ratio_one by lia.
    rewrite (of_Z_exact (Zpos p)) by (cbn [Z.abs]; lia).
    cbn [Z.abs Z.ltb Z.compare].
    rewrite is_tiny_integer. reflexivity.
Qed.

End ExactIntegers.

Section Above.

(** A value whose mantissa is at least the power of two its exponent
    scales down by is at least one. *)
Lemma one_leb_mantissa (m : positive) (e : Z) :
  Double.valid (S754_finite false m e) ->
  0 <= e \/ 2 ^ (- e) <= Zpos m ->
  Double.leb Double.one (S754_finite false m e) = true.
Proof.
  unfold Double.valid, Double.leb, SFleb, Double.one.
  cbn [valid_binary SFcompare].
  unfold bounded, canonical_mantissa. intros Hv Hm.
  apply andb_prop in Hv. destruct Hv as [Hc _]. apply Z.eqb_eq in Hc.
  pose proof (digits2_bounds m) as [_ Hhi].
  destruct (Z.compare_spec (-52) e) as [Heq | Hlt | Hgt]; try reflexivity.
  - subst e. rewrite Pos.compare_cont_spec. cbn [Pos.switch_Eq].
    destruct Hm as [Hm | Hm]; [lia | ].
    change (2 ^ (- -52)) with (Zpos 4503599627370496) in Hm.
    destruct (Pos.compare_spec 4503599627370496 m) as [Hc' | Hc' | Hc'];
      try reflexivity.
    exfalso. apply (Z.lt_irrefl (Zpos m)).
    apply Z.lt_le_trans with (Zpos 4503599627370496); [exact Hc' | exact Hm].
  - exfalso. destruct Hm as [Hm | Hm]; [lia | ].
    assert (Hd : Zpos (digits2_pos m) <= 53).
    { revert Hc. unfold fexp, SpecFloat.emin, prec, emax. lia. }
    assert (2 ^ Zpos (digits2_pos m) <= 2 ^ 53)
      by (apply Z.pow_le_mono_r; lia).
    assert (2 ^ 53 <= 2 ^ (- e)) by (apply Z.pow_le_mono_r; lia).
    lia.
Qed.

(** The quotient of two doubles with full mantissas, the first at least
    the second, is at least one after rounding. *)
Lemma div_ge_one (mx my : positive) (a b : Z) :
  Zpos (digits2_pos mx) = 53 -> Zpos (digits2_pos my) = 53 ->
  0 <= a <= 52 -> 0 <= b <= 52 ->
  Zpos my * 2 ^ a <= Zpos mx * 2 ^ b ->
  Double.leb Double.one
    (Double.div (S754_finite false mx (- a)) (S754_finite false my (- b)))
    = true.
Proof.
  intros Hdx Hdy Ha Hb Hle.
  pose proof (div_valid (S754_finite false mx (- a))
                (S754_finite false my (- b))) as Hvalid.
  revert Hvalid.
  unfold Double.div, SF64div, SFdiv, SFdiv_core_binary.
  cbn [Zdigits2 xorb]. rewrite Hdx, Hdy.
  pose proof (digits2_bounds mx) as [Hlox Hhix].
  pose proof (digits2_bounds my) as [Hloy Hhiy].
  rewrite Hdx in Hlox, Hhix. rewrite Hdy in Hloy, Hhiy.
  assert (Hpa : 0 < 2 ^ a) by (apply Z.pow_pos_nonneg; lia).
  assert (Hpb : 0 < 2 ^ b) by (apply Z.pow_pos_nonneg; lia).
  assert (Hba : a <= b).
  { destruct (Z_le_gt_dec a b) as [ | Hgt]; [assumption | exfalso].
    assert (Hs : 2 ^ a = 2 ^ b * 2 ^ (a - b))
      by (rewrite <- Z.pow_add_r by lia; f_equal; lia).
    assert (2 <= 2 ^ (a - b))
      by (change 2 with (2 ^ 1) at 1; apply Z.pow_le_mono_r; lia).
    change (2 ^ 53) with (2 * 2 ^ (53 - 1)) in Hhix. nia. }
  set (D := b - a).
  replace (53 + - a - (53 + - b)) with D by (subst D; lia).
  rewrite fexp_large by (unfold prec, emax; subst D; lia).
  replace (- a - - b) with D by (subst D; lia).
  set (E := 53 - D).
  assert (HE : 1 <= E <= 53) by (subst E D; lia).
  match goal with
  | |- context [IntDef.Z.min ?x ?y] =>
      replace (IntDef.Z.min x y) with (- E)
        by (change (IntDef.Z.min x y) with (Z.min x y);
            subst E; unfold prec; lia)
  end.
  replace (D - - E) with 53 by (subst E; lia).
  cbv beta iota zeta.
  rewrite Z.shiftl_mul_pow2 by lia.
  pose proof (Z.div_eucl_eq (Zpos mx * 2 ^ 53) (Zpos my) ltac:(lia)) as Heq.
  pose proof (Z.mod_pos_bound (Zpos mx * 2 ^ 53) (Zpos my) ltac:(lia)) as Hr.
  unfold Z.modulo in Hr.
  destruct (Z.div_eucl (Zpos mx * 2 ^ 53) (Zpos my)) as (q, r) eqn:Hdiv.
  assert (HpE : 0 < 2 ^ E) by (apply Z.pow_pos_nonneg; lia).
  assert (HpD : 0 < 2 ^ D) by (apply Z.pow_pos_nonneg; subst D; lia).
  assert (H53 : 2 ^ 53 = 2 ^ E * 2 ^ D)
    by (rewrite <- Z.pow_add_r by (subst D; lia); f_equal; subst E; lia).
  assert (Hb' : 2 ^ b = 2 ^ a * 2 ^ D)
    by (rewrite <- Z.pow_add_r by (subst D; lia); f_equal; subst D; lia).
  assert (HqE : 2 ^ E <= q).
  { assert (Hxy : Zpos my <= Zpos mx * 2 ^ D).
    { rewrite Hb' in Hle. nia. }
    assert (Zpos my * 2 ^ E <= Zpos mx * 2 ^ 53).
    { rewrite H53. nia. }
    nia. }
  assert (Hq54 : q < 2 ^ 54).
  { change (2 ^ 54) with (2 * 2 ^ 53). change (2 ^ 53) with (2 * 2 ^ (53 - 1)) in Hhix.
    nia. }
  destruct (binary_round_aux_spec false q (- E)
              (new_location (Zpos my) r) ltac:(lia))
    as (m2 & e1 & e2 & m'' & He1 & Hm2 & _ & _ & He2 & Hm'' & ->).
  assert (Hdq : E + 1 <= Zdigits2 q <= 54).
  { split.
    - rewrite Zdigits2_log2 by lia.
      pose proof (Z.log2_le_mono _ _ HqE) as Hl.
      rewrite Z.log2_pow2 in Hl by lia. lia.
    - apply Zdigits2_le; lia. }
  rewrite fexp_large in He1 by (unfold prec, emax; lia).
  unfold prec in He1.
  set (k1 := e1 - - E) in *.
  assert (Hk1 : 0 <= k1 <= 1 /\ e1 = k1 - E) by (subst k1; lia).
  destruct Hk1 as (Hk1 & Ee1).
  assert (Hpk1 : 0 < 2 ^ k1) by (apply Z.pow_pos_nonneg; lia).
  assert (Hfl : 2 ^ (E - k1) <= q / 2 ^ k1 < 2 ^ 53).
  { split.
    - apply Z.div_le_lower_bound; [lia | ].
      rewrite <- Z.pow_add_r by lia. replace (k1 + (E - k1)) with E by lia.
      exact HqE.
    - apply Z.div_lt_upper_bound; [lia | ].
      destruct (Z.eq_dec k1 0) as [K | K].
      + rewrite K, Z.pow_0_r, Z.mul_1_l.
        assert (Zdigits2 q <= 53) by lia.
        destruct (Z_lt_ge_dec q (2 ^ 53)) as [ | Hge]; [assumption | ].
        exfalso. pose proof (Z.log2_le_mono _ _ (Z.ge_le _ _ Hge)) as Hl.
        rewrite Z.log2_pow2 in Hl by lia.
        rewrite Zdigits2_log2 in * by lia. lia.
      + replace k1 with 1 by lia. change (2 ^ 1 * 2 ^ 53) with (2 ^ 54).
        exact Hq54. }
  assert (Hm2b : 2 ^ (E - k1) <= m2 <= 2 ^ 53) by (destruct Hm2; lia).
  assert (Hp1 : 0 < 2 ^ (E - k1)) by (apply Z.pow_pos_nonneg; lia).
  assert (Hd2 : E - k1 + 1 <= Zdigits2 m2 <= 54).
  { split.
    - rewrite Zdigits2_log2 by lia.
      pose proof (Z.log2_le_mono _ _ (proj1 Hm2b)) as Hl.
      rewrite Z.log2_pow2 in Hl by lia. lia.
    - apply Zdigits2_le; [ | lia]. split; [lia | ].
      change (2 ^ 54) with (2 * 2 ^ 53). lia. }
  rewrite fexp_large in He2 by (unfold prec, emax; lia).
  unfold prec in He2.
  set (k2 := e2 - e1) in *.
  assert (Hk2 : 0 <= k2 <= 1 /\ e2 = k2 + e1) by (subst k2; lia).
  destruct Hk2 as (Hk2 & Ee2).
  assert (Hpk2 : 0 < 2 ^ k2) by (apply Z.pow_pos_nonneg; lia).
  assert (Hm''1 : 1 <= m'').
  { subst m''. apply Z.div_le_lower_bound; [lia | ].
    destruct (Z.eq_dec k2 0) as [K | K].
    - rewrite K, Z.pow_0_r. lia.
    - replace k2 with 1 in * by lia.
      assert (54 <= Zdigits2 m2) by lia.
      destruct (Z_lt_ge_dec m2 (2 ^ 53)) as [Hlt | Hge]; [ | lia].
      exfalso. pose proof (Zdigits2_le m2 53 ltac:(lia) ltac:(lia)). lia. }
  destruct m'' as [ | p | p]; try lia.
  destruct (e2 <=? emax - prec); intros Hvalid; [ | reflexivity].
  apply one_leb_mantissa; [exact Hvalid | ].
  destruct (Z_le_gt_dec 0 e2) as [ | Hneg]; [left; assumption | right].
  rewrite Hm''. apply Z.div_le_lower_bound; [lia | ].
  rewrite <- Z.pow_add_r by lia.
  replace (k2 + - e2) with (E - k1) by lia. lia.
Qed.

(** A fraction at least one is clamped to one. *)
Lemma clamp_above (pc : double) :
  Double.leb Double.one pc = true ->
  Double.clamp pc Double.zero Double.one = Double.one.
Proof.
  unfold Double.clamp, Double.leb, Double.ltb, SFleb, SFltb, Double.one,
    Double.zero.
  destruct pc as [s | [ | ] | | [ | ] m e]; cbn [SFcompare];
    try discriminate; try reflexivity.
  destruct (Z.compare_spec (-52) e) as [Heq | Hlt | Hgt];
    try discriminate; try reflexivity.
  subst e. rewrite Pos.compare_cont_spec. cbn [Pos.switch_Eq].
  destruct (Pos.compare_spec 4503599627370496 m) as [Hc | Hc | Hc];
    try discriminate; try reflexivity.
  subst m. reflexivity.
Qed.

(** A fraction at most zero is clamped to a zero. *)
Lemma clamp_below (pc : double) :
  Double.leb pc Double.zero = true ->
  Double.clamp pc Double.zero Double.one = Double.zero \/
  Double.clamp pc Double.zero Double.one = S754_zero true.
Proof.
  unfold Double.clamp, Double.leb, Double.ltb, SFleb, SFltb, Double.one,
    Double.zero.
  destruct pc as [[ | ] | [ | ] | | [ | ] m e]; cbn [SFcompare];
    try discriminate; auto.
Qed.

(** Rounding keeps the sign it is given. *)
Lemma binary_round_aux_signed (s : bool) (m e : Z) (l : location) :
  0 <= m ->
  match binary_round_aux prec emax s m e l with
  | S754_zero s' | S754_infinity s' | S754_finite s' _ _ => s' = s
  | S754_nan => False
  end.
Proof.
  intros Hm.
  destruct (binary_round_aux_spec s m e l Hm)
    as (m2 & e1 & e2 & m'' & _ & Hm2 & _ & _ & _ & Hm'' & ->).
  assert (Hdiv : forall x k, 0 <= x -> 0 <= x / 2 ^ k).
  { intros x k Hx. destruct (Z_le_gt_dec 0 k).
    - apply Z.div_pos; [lia | apply Z.pow_pos_nonneg; lia].
    - rewrite Z.pow_neg_r by lia. rewrite Z.div_0_r. lia. }
  pose proof (Hdiv m (e1 - e) Hm) as H1.
  assert (H2 : 0 <= m2) by (destruct Hm2; lia).
  pose proof (Hdiv m2 (e2 - e1) H2) as H3. rewrite <- Hm'' in H3.
  destruct m'' as [ | p | p]; try lia; try reflexivity.
  destruct (e2 <=? emax - prec); reflexivity.
Qed.

(** The ratio of a negative integer to a positive one is at most zero. *)
Lemma ratio_below (u t : Z) :
  - 2 ^ 53 < u < 0 -> 0 < t < 2 ^ 53 ->
  Double.leb (Double.div (Double.of_Z u) (Double.of_Z t)) Double.zero = true.
Proof.
  intros Hu Ht.
  rewrite (of_Z_exact u), (of_Z_exact t) by lia.
  replace (u <? 0) with true by (symmetry; apply Z.ltb_lt; lia).
  replace (t <? 0) with false by (symmetry; apply Z.ltb_ge; lia).
  unfold Double.div, SF64div, SFdiv. cbn [xorb].
  destruct (SFdiv_core_binary _ _ _ _ _ _) as ((q, e), l) eqn:Hcore.
  assert (Hq : 0 <= q).
  { revert Hcore. unfold SFdiv_core_binary.
    match goal with
    | |- context [Z.div_eucl ?m' ?d] =>
        pose proof (Z.div_pos m' d) as Hdiv;
        unfold Z.div in Hdiv; destruct (Z.div_eucl m' d) as (q0, r0) eqn:Hde
    end.
    intros H. injection H as <- _ _. apply Hdiv; [ | lia].
    match goal with
    | |- 0 <= match ?s with _ => _ end => destruct s; try lia
    end.
    rewrite Z.shiftl_mul_pow2 by lia.
    apply Z.mul_nonneg_nonneg; [lia | apply Z.pow_nonneg; lia]. }
  pose proof (binary_round_aux_signed true q e l Hq) as Hs.
  destruct (binary_round_aux prec emax true q e l) as [s | s | | s m' e'];
    try contradiction; subst s; reflexivity.
Qed.

(** The ratio of two integers below 2^53, the first at least the
    second, is at least one. *)
Lemma ratio_above (u t : Z) :
  0 < t <= u -> u < 2 ^ 53 ->
  Double.leb Double.one (Double.div (Double.of_Z u) (Double.of_Z t)) = true.
Proof.
  intros Ht Hu.
  rewrite (of_Z_exact u), (of_Z_exact t) by lia.
  replace (u <? 0) with false by (symmetry; apply Z.ltb_ge; lia).
  replace (t <? 0) with false by (symmetry; apply Z.ltb_ge; lia).
  rewrite !Z.abs_eq by lia.
  pose proof (Zdigits2_small u ltac:(lia)) as Hdu.
  pose proof (Zdigits2_small t ltac:(lia)) as Hdt.
  set (a := 53 - Zdigits2 u). set (b := 53 - Zdigits2 t).
  assert (Hpa : 0 < 2 ^ a) by (apply Z.pow_pos_nonneg; subst a; lia).
  assert (Hpb : 0 < 2 ^ b) by (apply Z.pow_pos_nonneg; subst b; lia).
  apply div_ge_one; try (subst a b; lia).
  - rewrite <- Zdigits2_pos, Z2Pos.id, Zdigits2_shift by (subst a; nia).
    subst a. lia.
  - rewrite <- Zdigits2_pos, Z2Pos.id, Zdigits2_shift by (subst b; nia).
    subst b. lia.
  - rewrite !Z2Pos.id by nia. nia.
Qed.

End Above.

(** X13. A reading on its scale, for the three memory regions, the
    temperature and the power: when the reading is at or above the lower
    end of the scale, the lower end is below the upper one and all three
    are below 2^53, the fraction is (reading - lower) / (upper - lower);
    up to the upper end it lies within [0, 1] and the clamp of
    [draw_bar] leaves it as it is, exactly zero at the lower end and
    exactly one at the upper end; at the upper end and beyond it the
    clamp gives one. *)
Theorem reading_on_its_scale (m : metric) (fs : filesystem) (dev : device)
    (lo hi u : Z) :
  scale_of m dev = Some (lo, hi) ->
  stoull (read_file fs (m_path dev) (metric_file m)) = Ok u ->
  0 <= lo <= u -> u < 2 ^ 53 -> lo < hi < 2 ^ 53 ->
  exists text pc,
    bar_sample m fs dev = Some (Ok (text, pc)) /\
    pc = Double.div (Double.of_Z (u - lo)) (Double.of_Z (hi - lo)) /\
    (u <= hi ->
     Double.leb Double.zero pc = true /\ Double.leb pc Double.one = true /\
     Double.clamp pc Double.zero Double.one = pc) /\
    (u = lo -> pc = Double.zero) /\ (u = hi -> pc = Double.one) /\
    (hi <= u -> Double.clamp pc Double.zero Double.one = Double.one).
Proof.
  intros Hs Hu Hlo Hu53 Hr.
  set (pc := Double.div (Double.of_Z (u - lo)) (Double.of_Z (hi - lo))).
  assert (Hin : u <= hi ->
            Double.leb Double.zero pc = true /\
            Double.leb pc Double.one = true /\
            Double.clamp pc Double.zero Double.one = pc /\
            (u = lo -> pc = Double.zero) /\ (u = hi -> pc = Double.one)).
  { intros Hhi.
    destruct (ratio_in_unit (u - lo) (hi - lo) ltac:(lia) ltac:(lia))
      as (H0 & H1 & Hc & Hz & Ho).
    repeat split; auto; intros ->; [apply Hz | apply Ho]; lia. }
  assert (Hz : u = lo -> pc = Double.zero) by (intros E; apply Hin; lia).
  assert (Ho : u = hi -> pc = Double.one) by (intros E; apply Hin; lia).
  assert (Hup : hi <= u ->
            Double.clamp pc Double.zero Double.one = Double.one).
  { intros Hhi. apply clamp_above, ratio_above; lia. }
  exists (match m with
          | Power => to_string (u / 1000000) ++ "W"
          | Temperature => to_string (u / 1000) ++ "C"
          | Vram => to_string (u / MiB) ++ m_vram_str dev
          | Gtt => to_string (u / MiB) ++ m_gtt_str dev
          | _ => to_string (u / MiB) ++ m_vis_vram_str dev
          end), pc.
  split.
  - subst pc.
    destruct m; try discriminate; cbn [scale_of] in Hs;
      injection Hs as <- <-; cbn [metric_file] in Hu;
      cbn [bar_sample]; unfold vram, gtt, vis_vram, memory, power, temperature;
      rewrite Hu; cbn [bind]; rewrite ?Z.sub_0_r;
      try (unfold ull_sub, ull; rewrite !Z.mod_small
             by (split; [lia | ];
                 apply Z.lt_trans with (2 ^ 53); [lia | reflexivity]));
      reflexivity.
  - split; [reflexivity | ]. split; [ | auto].
    intros Hhi. destruct (Hin Hhi) as (H0 & H1 & Hc & _). auto.
Qed.

(** X20. The fan on its scale, for a whole number of revolutions below
    2^53 and limits below 2^53: the fraction is
    (reading - fan1_min) / (fan1_max - fan1_min), the subtraction being
    made in [double]. Below the lower limit it is negative and clamped to
    zero, between the limits it lies within [0, 1] and is left as it is,
    at the upper limit and beyond the clamp gives one. *)
Theorem fan_on_its_scale (fs : filesystem) (dev : device) (n : Z) :
  read_file fs (m_path dev) "hwmon/hwmon1/fan1_input" = to_string n ->
  0 <= n < 2 ^ 53 ->
  0 <= m_fan_min dev < m_fan_max dev -> m_fan_max dev < 2 ^ 53 ->
  exists pc,
    fan fs dev = Ok (to_string n ++ "RPM", pc) /\
    pc = Double.div (Double.of_Z (n - m_fan_min dev))
           (Double.of_Z (m_fan_max dev - m_fan_min dev)) /\
    (n < m_fan_min dev ->
     Double.leb pc Double.zero = true /\
     (Double.clamp pc Double.zero Double.one = Double.zero \/
      Double.clamp pc Double.zero Double.one = S754_zero true)) /\
    (m_fan_min dev <= n <= m_fan_max dev ->
     Double.leb Double.zero pc = true /\ Double.leb pc Double.one = true /\
     Double.clamp pc Double.zero Double.one = pc) /\
    (m_fan_max dev <= n ->
     Double.clamp pc Double.zero Double.one = Double.one).
Proof.
  intros Hline Hn Hlo Hhi.
  set (lo := m_fan_min dev) in *. set (hi := m_fan_max dev) in *.
  exists (Double.div (Double.of_Z (n - lo)) (Double.of_Z (hi - lo))).
  split.
  - unfold fan. rewrite Hline, stod_to_string by lia. cbn [bind].
    fold lo hi. rewrite sub_of_Z by lia.
    unfold ull_sub, ull. rewrite Z.mod_small; [reflexivity | ].
    split; [lia | ]. apply Z.lt_trans with (2 ^ 53); [lia | reflexivity].
  - split; [reflexivity | ]. split; [ | split].
    + intros Hb.
      assert (Hle : Double.leb
                      (Double.div (Double.of_Z (n - lo)) (Double.of_Z (hi - lo)))
                      Double.zero = true)
        by (apply ratio_below; lia).
      split; [exact Hle | apply clamp_below, Hle].
    + intros Hb.
      destruct (ratio_in_unit (n - lo) (hi - lo) ltac:(lia) ltac:(lia))
        as (H0 & H1 & Hc & _). auto.
    + intros Hb. apply clamp_above, ratio_above; lia.
Qed.

(** X21. The two ends of the bar: on a track that is not negative, a
    fraction at least one (an infinite one included) is drawn as a full
    bar, as many glyphs as the track has columns, and a fraction at most
    zero as an empty bar, the brackets around the label (as [addstr]
    takes it). *)
Theorem full_and_empty_bars (use_color : bool) (row col width : Z)
    (pc : double) (str : string) :
  no_overflow col width str ->
  0 <= track_of width str ->
  (Double.leb Double.one pc = true ->
   exists t,
     draw_bar use_color row col width pc str = Ok t /\
     written t =
       ("[" ++ string_of_char (Z.to_nat (track_of width str)) "|"
            ++ c_str str ++ "]")%string) /\
  (Double.leb pc Double.zero = true ->
   exists t,
     draw_bar use_color row col width pc str = Ok t /\
     written t = ("[" ++ c_str str ++ "]")%string).
Proof.
  intros Hno Ht. assert (Hno' := Hno). destruct Hno' as (_ & Htr & _).
  pose proof (in_int_abs _ Htr) as Habs.
  split; intros Hpc.
  - eexists. split.
    + apply (draw_bar_run use_color row col width (track_of width str) pc str
               Hno); [ | exact Htr].
      rewrite (clamp_above pc Hpc). apply trunc_mul_one, Habs.
    + destruct (Z.ltb_spec (track_of width str) 0); [lia | ].
      apply written_bar_calls.
  - eexists. split.
    + apply (draw_bar_run use_color row col width 0 pc str Hno);
        [ | reflexivity].
      destruct (clamp_below pc Hpc) as [-> | ->];
        [apply trunc_mul_zero, Habs | ].
      destruct (Z.eq_dec (track_of width str) 0) as [-> | Hnz];
        [reflexivity | ].
      rewrite of_Z_exact
        by (split; [lia | ];
            apply Z.le_lt_trans with (2 ^ 31); [exact Habs | reflexivity]).
      reflexivity.
    + apply written_bar_calls.
Qed.

(* ================================================================== *)
(** ** What the rows show *)

Section Samples.

Lemma same_double_eq (a b : double) : same_double a b = true -> a = b.
Proof.
  destruct a as [s | s | | s m e], b as [s' | s' | | s' m' e'];
    cbn [same_double]; try discriminate; intros H.
  - apply Bool.eqb_prop in H. congruence.
  - apply Bool.eqb_prop in H. congruence.
  - reflexivity.
  - apply andb_prop in H. destruct H as (H & He).
    apply andb_prop in H. destruct H as (Hs & Hm).
    apply Bool.eqb_prop in Hs. apply Pos.eqb_eq in Hm. apply Z.eqb_eq in He.
    congruence.
Qed.

Lemma color_code_inj (a b : color.type) :
  color.code a = color.code b -> a = b.
Proof. destruct a, b; cbn; intros H; try reflexivity; discriminate. Qed.

(** X14. A whole percentage from 0 to 100 in [gpu_busy_percent] gives a
    fraction within [0, 1] that the clamp leaves as it is, 0 for 0 and 1
    for 100; the bar is in the ok band up to 32 percent, in the warn band
    from 33 to 66 and in the bad band from 67 on. *)
Theorem busy_percent_bands (fs : filesystem) (dev : device) (n : Z) :
  0 <= n <= 100 ->
  read_file fs (m_path dev) "gpu_busy_percent" = to_string n ->
  exists pc,
    busy fs dev = Ok (to_string n ++ "%", pc) /\
    Double.leb Double.zero pc = true /\ Double.leb pc Double.one = true /\
    Double.clamp pc Double.zero Double.one = pc /\
    bar_color pc = percent_band n /\
    (n = 0 -> pc = Double.zero) /\ (n = 100 -> pc = Double.one).
Proof.
  intros Hn Hline. unfold busy. rewrite Hline.
  set (check := fun k : nat =>
    let n := Z.of_nat k in
    match stod (to_string n) with
    | Ok d =>
        let pc := Double.mul d Double.c0_01 in
        Double.leb Double.zero pc && Double.leb pc Double.one
        && same_double (Double.clamp pc Double.zero Double.one) pc
        && (color.code (bar_color pc) =? color.code (percent_band n))
        && (negb (n =? 0) || same_double pc Double.zero)
        && (negb (n =? 100) || same_double pc Double.one)
    | _ => false
    end).
  assert (Hall : forallb check (seq 0 101) = true) by (vm_compute; reflexivity).
  rewrite forallb_forall in Hall.
  specialize (Hall (Z.to_nat n) ltac:(apply in_seq; lia)).
  unfold check in Hall. rewrite Z2Nat.id in Hall by lia.
  destruct (stod (to_string n)) as [d | | ]; try discriminate.
  cbn [bind]. cbv zeta in Hall.
  set (pc := Double.mul d Double.c0_01) in *.
  exists pc.
  apply andb_prop in Hall. destruct Hall as (Hall & H100).
  apply andb_prop in Hall. destruct Hall as (Hall & H0).
  apply andb_prop in Hall. destruct Hall as (Hall & Hband).
  apply andb_prop in Hall. destruct Hall as (Hall & Hclamp).
  apply andb_prop in Hall. destruct Hall as (Hle0 & Hle1).
  split; [reflexivity | ]. split; [exact Hle0 | ]. split; [exact Hle1 | ].
  split; [apply same_double_eq, Hclamp | ].
  split; [apply color_code_inj, Z.eqb_eq, Hband | ].
  split; intros ->; cbn in *; apply same_double_eq; assumption.
Qed.

(** A text without a NUL followed by another is one. *)
Lemma c_str_app (a b : string) :
  c_str a = a -> c_str (a ++ b) = (a ++ c_str b)%string.
Proof.
  induction a as [ | ch a IH]; [reflexivity | ].
  cbn [c_str append]. destruct (N_of_ascii ch =? 0)%N; [discriminate | ].
  intros H. injection H as H. now rewrite (IH H).
Qed.

(** X15. The voltage, the link speed and the link width are not
    converted: whatever their files hold, an iteration that has only
    these rows enabled draws them and fails on none. Each text goes to
    [addstr] as a C string, so what is written is the text up to its
    first NUL; a line without a NUL is written whole, with its suffix or
    prefix. *)
Theorem raw_text_rows_never_fail (use_color : bool) (a b c : bool)
    (fs : filesystem) (dev : device) (COLS : Z) :
  in_int (COLS - text_len) = true ->
  in_int (COLS - text_len - hpad) = true ->
  let rows := [false; false; false; false; false; false; false;
               a; false; false; b; c] in
  let mv := read_file fs (m_path dev) "hwmon/hwmon1/in0_input" in
  let speed := read_file fs (m_path dev) "current_link_speed" in
  let lanes := read_file fs (m_path dev) "current_link_width" in
  exists t,
    draw_rows use_color rows fs dev COLS = (t, Ok tt) /\
    written t =
      ((if a then c_str (mv ++ "mV") else "")
       ++ (if b then c_str speed else "")
       ++ (if c then c_str ("x" ++ lanes) else ""))%string /\
    (c_str mv = mv -> c_str speed = speed -> c_str lanes = lanes ->
     written t =
       ((if a then mv ++ "mV" else "")
        ++ (if b then speed else "")
        ++ (if c then "x" ++ lanes else ""))%string).
Proof.
  intros H1 H2 rows mv speed lanes.
  assert (H : exists t,
            draw_rows use_color rows fs dev COLS = (t, Ok tt) /\
            written t =
              ((if a then c_str (mv ++ "mV") else "")
               ++ (if b then c_str speed else "")
               ++ (if c then c_str ("x" ++ lanes) else ""))%string).
  { subst rows mv speed lanes.
    unfold draw_rows, int_sub, int_of, lift.
    rewrite H1. cbn [pbind]. rewrite H2.
    unfold voltage, link_speed, link_width.
    destruct use_color, a, b, c; eexists; (split; [reflexivity | ]);
      cbn [written app print_string set_color remove_color fst snd];
      rewrite ?append_nil_r, ?append_assoc; reflexivity. }
  destruct H as (t & Hd & Hw). exists t. split; [exact Hd | ].
  split; [exact Hw | ]. intros Hv Hs Hl. rewrite Hw.
  rewrite (c_str_app mv "mV" Hv), Hs.
  change (c_str ("x" ++ lanes)) with (String "x" (c_str lanes)).
  rewrite Hl. reflexivity.
Qed.

Lemma device_new_fields (fs : filesystem) (path : string) (dev : device) :
  device_new fs path = Ok dev ->
  exists vram gtt vis,
    stoull (read_file fs path "mem_info_vram_total") = Ok vram /\
    stoull (read_file fs path "mem_info_gtt_total") = Ok gtt /\
    stoull (read_file fs path "mem_info_vis_vram_total") = Ok vis /\
    m_path dev = path /\
    m_vram dev = vram /\ m_gtt dev = gtt /\ m_vis_vram dev = vis /\
    m_vram_str dev = "/" ++ to_string (vram / MiB) ++ "MiB" /\
    m_gtt_str dev = "/" ++ to_string (gtt / MiB) ++ "MiB" /\
    m_vis_vram_str dev = "/" ++ to_string (vis / MiB) ++ "MiB".
Proof.
  unfold device_new.
  repeat lazymatch goal with
  | |- context [bind (stoull ?x) _] =>
      destruct (stoull x); cbn [bind]; try discriminate
  end.
  intros H. injection H as <-. cbn.
  eexists _, _, _. repeat split; reflexivity.
Qed.

(** X16. A memory row shows the megabytes in use over the megabytes of
    the total read when the device was built: the total is converted once,
    at start-up, and a later change of its file changes neither the text
    nor the fraction. *)
Theorem memory_row_text (m : metric) (file : string)
    (boot fs : filesystem) (path : string) (dev : device) (total u : Z) :
  total_file m = Some file ->
  device_new boot path = Ok dev ->
  stoull (read_file boot path file) = Ok total ->
  stoull (read_file fs path (metric_file m)) = Ok u ->
  bar_sample m fs dev =
    Some (Ok (to_string (u / MiB) ++ "/" ++ to_string (total / MiB) ++ "MiB",
              Double.div (Double.of_Z u) (Double.of_Z total))).
Proof.
  intros Hf Hd Ht Hu.
  destruct (device_new_fields boot path dev Hd)
    as (v & g & vis & Hv & Hg & Hvis & Hp & E1 & E2 & E3 & S1 & S2 & S3).
  destruct m; try discriminate; cbn [total_file] in Hf; injection Hf as <-;
    cbn [metric_file] in Hu; cbn [bar_sample];
    unfold vram, gtt, vis_vram, memory; rewrite Hp, Hu; cbn [bind];
    rewrite ?E1, ?E2, ?E3, ?S1, ?S2, ?S3; do 3 f_equal; congruence.
Qed.

End Samples.

(* ================================================================== *)
(** ** The further theorems at sample inputs *)

Lemma disable_options_rows_witness :
  exists rows',
    disable_options (repeat true info.row_count) "busy,fan" = Ok rows' /\
    nth_error rows' info.fan = Some false /\
    nth_error rows' info.vram = Some true.
Proof.
  destruct (disable_options_rows (repeat true info.row_count) "busy,fan")
    as (rows' & H & _ & N & _).
  - reflexivity.
  - exists rows'. split; [exact H | ]. rewrite !N. split; reflexivity.
Defined.

Lemma every_row_has_one_name_witness :
  exists name,
    info.find name = Some info.fan /\
    exists rows',
      disable_option (repeat true info.row_count) name = Ok rows' /\
      nth_error rows' info.fan = Some false.
Proof.
  destruct (every_row_has_one_name info.fan) as (name & Hf & _ & Hd).
  - apply Nat.ltb_lt. reflexivity.
  - destruct (Hd (repeat true info.row_count) eq_refl) as (rows' & H & N & _).
    exists name. split; [exact Hf | ]. exists rows'. split; assumption.
Defined.

Lemma exit_status_witness :
  (1 = EXIT_FAILURE /\
   fst (main "gpumon" [opt_other] true fs_absent []) = [] /\
   In opt_other [opt_other]) \/
  (1 = EXIT_SUCCESS /\
   (fst (main "gpumon" [opt_other] true fs_absent []) = print_help "gpumon" \/
    fst (main "gpumon" [opt_other] true fs_absent [])
      = [cout ("All rows disabled. Exiting." ++ nl)] \/
    exists body,
      fst (main "gpumon" [opt_other] true fs_absent [])
        = (startup ++ body ++ [endwin])%list)).
Proof.
  apply (exit_status "gpumon" [opt_other] true fs_absent [] 1).
  reflexivity.
Defined.

Lemma no_color_run_witness :
  existsb is_color_call
    (fst (main "gpumon" [opt_n] true fs_busy_50 [sample_tick fs_busy_50 113]))
    = false.
Proof.
  apply (no_color_run "gpumon" [opt_n] true fs_busy_50
           [sample_tick fs_busy_50 113]).
  left. left. reflexivity.
Defined.

Lemma malformed_calibration_is_fatal_witness :
  exists e body,
    main "gpumon" [opt_d "temperature"] true fs_crit_text
      [sample_tick fs_crit_text 113] = ((startup ++ body)%list, Terminated e).
Proof.
  destruct (malformed_calibration_is_fatal "gpumon" [opt_d "temperature"]
              true fs_crit_text [sample_tick fs_crit_text 113]
              {| sleep_time := 2; use_color := true;
                 enabled_rows :=
                   [ true; true; true; true; true; false; true;
                     true; true; true; true; true ] |}
              "hwmon/hwmon1/temp1_crit")
    as (e & H).
  - reflexivity.
  - reflexivity.
  - reflexivity.
  - cbn. tauto.
  - reflexivity.
  - exists e. eexists. exact H.
Defined.

Lemma labels_are_stacked_witness :
  draw_labels false busy_and_voltage =
    ([mvaddstr 1 hpad "GPU busy:"; mvaddstr 2 hpad "Voltage:"], Ok tt).
Proof.
  destruct (labels_are_stacked false busy_and_voltage) as (H & _).
  - reflexivity.
  - exact H.
Defined.

Lemma values_face_their_labels_witness :
  cleared 0
    (fst (draw_rows true busy_and_voltage fs_busy_50
            (sample_device fs_busy_50) 80))
    = count_up vpad 2.
Proof.
  refine (proj2 (values_face_their_labels true busy_and_voltage fs_busy_50
                   (sample_device fs_busy_50) 80 _ _ _ 0)).
  - reflexivity.
  - vm_compute. reflexivity.
Defined.

Lemma bar_fits_its_width_witness :
  exists bars t,
    draw_bar true 5 text_len 63 Double.c0_33 "33W" = Ok t /\
    0 <= bars <= track_of 63 "33W" /\
    NoDup (map fst (cells 0 0 t)).
Proof.
  destruct (bar_fits_its_width true 5 text_len 63 Double.c0_33 "33W" 0 0)
    as (bars & t & Hd & Hb & _ & _ & Hn).
  - reflexivity.
  - reflexivity.
  - closed_no_overflow.
  - vm_compute. discriminate.
  - reflexivity.
  - exists bars, t. repeat split; try assumption; apply Hb.
Defined.

Lemma reading_on_its_scale_witness :
  exists text pc,
    bar_sample Power fs_power_33 (sample_device fs_power_33)
      = Some (Ok (text, pc)) /\
    Double.leb pc Double.one = true.
Proof.
  destruct (reading_on_its_scale Power fs_power_33
              (sample_device fs_power_33) 0 100000000 33000000)
    as (text & pc & H & _ & H1 & _).
  - reflexivity.
  - reflexivity.
  - lia.
  - reflexivity.
  - split; [lia | reflexivity].
  - exists text, pc. split; [exact H | apply H1; lia].
Defined.

Lemma busy_percent_bands_witness :
  exists pc,
    busy fs_busy_50 (sample_device fs_busy_50) = Ok ("50%", pc) /\
    bar_color pc = color.warn.
Proof.
  destruct (busy_percent_bands fs_busy_50 (sample_device fs_busy_50) 50)
    as (pc & H & _ & _ & _ & Hb & _).
  - lia.
  - reflexivity.
  - exists pc. split; [exact H | exact Hb].
Defined.

Lemma raw_text_rows_never_fail_witness :
  exists t,
    draw_rows true
      [ false; false; false; false; false; false; false;
        true; false; false; true; true ]
      fs_absent (sample_device fs_absent) 80 = (t, Ok tt) /\
    written t = "0mV0x0"%string.
Proof.
  destruct (raw_text_rows_never_fail true true true true fs_absent
              (sample_device fs_absent) 80) as (t & Hd & Hw & _).
  - reflexivity.
  - reflexivity.
  - exists t. split; [exact Hd | exact Hw].
Defined.

Lemma memory_row_text_witness :
  bar_sample Vram fs_vram_suffix (sample_device fs_vram_suffix) =
    Some (Ok ("512/1024MiB",
              Double.div (Double.of_Z 536870912) (Double.of_Z 1073741824))).
Proof.
  apply (memory_row_text Vram "mem_info_vram_total" fs_vram_suffix
           fs_vram_suffix card0 (sample_device fs_vram_suffix)
           1073741824 536870912); reflexivity.
Defined.

Lemma bar_styles_witness :
  exists t,
    draw_bar true 5 text_len 63 Double.c0_33 "33W" = Ok t /\
    style_after plain t = plain.
Proof.
  destruct (draw_bar true 5 text_len 63 Double.c0_33 "33W")
    as [t | e | ] eqn:E.
  - exists t. split; [reflexivity | ].
    exact (proj1 (bar_styles true 5 text_len 63 Double.c0_33 "33W" t E)).
  - vm_compute in E. discriminate.
  - vm_compute in E. discriminate.
Defined.

Lemma negative_temperature_wraps_witness :
  temperature fs_temp_negative (sample_device fs_temp_negative) =
    Ok ("18446744073709546C",
        Double.div (Double.of_Z (2 ^ 64 - 5000)) (Double.of_Z 100000)).
Proof.
  apply (negative_temperature_wraps fs_temp_negative
           (sample_device fs_temp_negative) 5000).
  - split; [lia | reflexivity].
  - reflexivity.
Defined.

Lemma fan_on_its_scale_witness :
  exists pc,
    fan fs_fan_1500 (sample_device fs_fan_1500) = Ok ("1500RPM", pc) /\
    Double.clamp pc Double.zero Double.one = pc.
Proof.
  destruct (fan_on_its_scale fs_fan_1500 (sample_device fs_fan_1500) 1500)
    as (pc & H & _ & _ & Hin & _).
  - reflexivity.
  - split; [lia | reflexivity].
  - cbn. lia.
  - reflexivity.
  - exists pc. split; [exact H | ].
    apply Hin. cbn. lia.
Defined.

Lemma full_and_empty_bars_witness :
  exists t,
    draw_bar true 5 text_len 63 Double.one "100%" = Ok t /\
    written t =
      ("[" ++ string_of_char (Z.to_nat (track_of 63 "100%")) "|"
           ++ "100%" ++ "]")%string.
Proof.
  refine (proj1 (full_and_empty_bars true 5 text_len 63 Double.one "100%"
                   _ _) _).
  - closed_no_overflow.
  - vm_compute. discriminate.
  - reflexivity.
Defined.

Lemma clock_in_megahertz_witness :
  gfx_clock fs_gfx_1500 (sample_device fs_gfx_1500) = Ok "1500MHz".
Proof.
  refine (proj1 (clock_in_megahertz fs_gfx_1500 (sample_device fs_gfx_1500)
                   1500000000 _) _).
  - lia.
  - reflexivity.
Defined.


Lemma malformed_reading_is_fatal_witness :
  fetch Busy fs_busy_text (sample_device fs_busy_50)
    = Throw invalid_argument /\
  snd (main "gpumon" only_busy true fs_busy_50
         [sample_tick fs_busy_50 0; sample_tick fs_busy_text 0])
    = Terminated invalid_argument.
Proof.
  destruct (malformed_reading_is_fatal Busy "gpumon" only_busy true
              fs_busy_50 [sample_tick fs_busy_50 0]
              (sample_tick fs_busy_text 0) [] []
              {| sleep_time := 2; use_color := true;
                 enabled_rows :=
                   [ true; false; false; false; false; false; false;
                     false; false; false; false; false ] |}
              (sample_device fs_busy_50))
    as (Hiff & _ & _ & Hfatal).
  - reflexivity.
  - reflexivity.
  - reflexivity.
  - vm_compute. reflexivity.
  - reflexivity.
  - assert (Hf : fetch Busy fs_busy_text (sample_device fs_busy_50)
                 = Throw invalid_argument)
      by (apply Hiff; reflexivity).
    destruct (Hfatal invalid_argument Hf) as (_ & Hexact).
    split; [exact Hf | ].
    apply Hexact; try reflexivity.
    intros i Hi. change (i < 0)%nat in Hi. lia.
Defined.
